(** * OCPI roaming synchronisation: the CDR-push scheduled task and the eMSP client

    A shallow embedding of
    - [OCPIPushCdrsTask.processTenant] (scheduler/tasks/ocpi/OCPIPushCdrsTask.ts),
      with [TransactionStorage.getTransaction] and
      [TransactionStorage.saveTransactionOcpiData] which it calls,
    - [EmspOCPIClient] (client/ocpi/EmspOCPIClient.ts): the constructor,
      [pushTokens], [pushToken], [checkAndGetCompany], [pullLocations],
      [processLocation], [pullSessions], [pullCdrs], [remoteStartSession] and
      [remoteStopSession],
    - [MigrateUserSettingsTask]: [migrate] and [migrateTenant], and
    - [TransactionStorage]: [findAvailableID], [getTransactionYears],
      [assignTransactionsToUser], [getUnassignedTransactionsCount], and the layout of
      the document that [saveTransaction] stores.

    Asynchronous code is written in a state-and-exception monad.  The state pairs
    the environment (database, lock service, roaming partner) with the trace of the
    calls the program made to it; the environment is reached only through an
    interface of collaborator operations, each of which returns or raises.

    The file has three parts: the two programs and an in-memory environment for
    each; the vocabulary in which their properties are stated; the properties. *)

From Stdlib Require Import List String ZArith Bool Lia Arith DecimalString Permutation
  Sorted.
Import ListNotations.
Open Scope string_scope.

Set Implicit Arguments.

(* ================================================================== *)
(** * Exceptions, replies and the monad *)
(* ================================================================== *)

(** A thrown JavaScript value: the repository's structured [BackendError], or any
    other [Error] (transport failure, storage failure, [TypeError], ...). *)
Inductive Exn : Type :=
| BackendError (module_ method_ message : string)
| Error (message : string).

Definition exn_message (e : Exn) : string :=
  match e with
  | BackendError _ _ m => m
  | Error m => m
  end.

(** What a collaborator answers: the awaited promise resolves or rejects. *)
Inductive Reply (A : Type) : Type :=
| Returned (a : A)
| Raised (e : Exn).
Arguments Raised {A} e.

(** What a piece of the program does: it completes, throws, or is still inside a
    [do ... while] loop when the iteration budget is used up. *)
Inductive Res (A : Type) : Type :=
| Ok (a : A)
| Throw (e : Exn)
| OutOfFuel.
Arguments Throw {A} e.
Arguments OutOfFuel {A}.

Definition M (S A : Type) : Type := S -> S * Res A.

Section Monad.
Context {S : Type}.

Definition ret {A} (a : A) : M S A := fun s => (s, Ok a).

Definition bind {A B} (m : M S A) (k : A -> M S B) : M S B :=
  fun s =>
    match m s with
    | (s', Ok a) => k a s'
    | (s', Throw e) => (s', Throw e)
    | (s', OutOfFuel) => (s', OutOfFuel)
    end.

Definition throw {A} (e : Exn) : M S A := fun s => (s, Throw e).

Definition get : M S S := fun s => (s, Ok s).

Definition modify (f : S -> S) : M S unit := fun s => (f s, Ok tt).

(** [try { m } catch (error) { h error }] *)
Definition try_catch {A} (m : M S A) (h : Exn -> M S A) : M S A :=
  fun s =>
    match m s with
    | (s', Throw e) => h e s'
    | r => r
    end.

(** [try { m } finally { f }]: [f] runs whether [m] completed or threw; an
    exception of [f] replaces the outcome of [m]. *)
Definition try_finally {A} (m : M S A) (f : M S unit) : M S A :=
  fun s =>
    match m s with
    | (s', OutOfFuel) => (s', OutOfFuel)
    | (s', r) =>
        match f s' with
        | (s'', Ok _) => (s'', r)
        | (s'', Throw e) => (s'', Throw e)
        | (s'', OutOfFuel) => (s'', OutOfFuel)
        end
    end.

(** [for (const x of l) { body x }], one iteration after the other. *)
Fixpoint for_of {A} (l : list A) (body : A -> M S unit) : M S unit :=
  match l with
  | [] => ret tt
  | x :: l' => bind (body x) (fun _ => for_of l' body)
  end.

(** [do { locals = body locals } while (cond locals)], at most [fuel] rounds. *)
Fixpoint do_while {L} (fuel : nat) (body : L -> M S L) (cond : L -> bool)
         (locals : L) : M S L :=
  match fuel with
  | O => fun s => (s, OutOfFuel)
  | Datatypes.S fuel' =>
      bind (body locals)
           (fun locals' =>
              if cond locals' then do_while fuel' body cond locals'
              else ret locals')
  end.
End Monad.

Declare Scope monad_scope.
Delimit Scope monad_scope with monad.
Notation "x <- m ;; k" := (bind m (fun x => k))
  (at level 61, m at next level, right associativity) : monad_scope.
Notation "m ;;; k" := (bind m (fun _ => k))
  (at level 61, right associativity) : monad_scope.
Open Scope monad_scope.

(** [`${n}`] for an integer [n]. *)
Definition show (z : Z) : string := NilZero.string_of_int (Z.to_int z).

(** [Utils.isEmptyArray] on an array that is there. *)
Definition isEmptyArray {A} (l : list A) : bool :=
  match l with
  | [] => true
  | _ :: _ => false
  end.

(** Protocol resources, as far as the code looks into them. *)
Record OCPISession : Type := { session_id : string }.
Record OCPICdr : Type := { cdr_id : string }.

(* ================================================================== *)
(** * The CDR-push scheduled task *)
(* ================================================================== *)

Module OCPIPushCdrsTask.

Definition MODULE_NAME : string := "OCPIPushCdrsTask".
Definition STORAGE_MODULE_NAME : string := "TransactionStorage".

Inductive ServerAction : Type := OCPI_PUSH_CDRS | OCPI_PULL_CDRS.
Inductive TenantComponents : Type := OCPI.
Inductive TransactionAction : Type := START | UPDATE | STOP | END.

Record Tenant : Type := { tenant_id : string; tenant_name : string }.
Record TaskConfig : Type := { }.
Record User : Type := { user_id : string }.
Record ChargingStation : Type := { chargingStation_id : string }.
Record Tag : Type := { tag_id : string }.

(** A lock handle: tenant plus resource key. *)
Record Lock : Type := { lock_tenantID : string; lock_key : string }.

Record TransactionOcpiData : Type := {
  session : option OCPISession;
  cdr : option OCPICdr;
  sessionCheckedOn : option Z;
  cdrCheckedOn : option Z
}.

Record Transaction : Type := {
  transaction_id : Z;
  chargeBoxID : string;
  tagID : string;
  user : option User;
  ocpiData : option TransactionOcpiData
}.

Record DataResult : Type := { count : Z; result : list Transaction }.

(** The test [transaction.ocpiData?.cdr]. *)
Definition has_cdr (t : Transaction) : bool :=
  match ocpiData t with
  | Some d => match cdr d with Some _ => true | None => false end
  | None => false
  end.

(** ** Documents of the [transactions] collection

    A field of a stored document is missing, holds [null], or holds a value.
    [saveTransaction] writes [stop] only for a stopped transaction and writes
    [ocpiData] as [{ session, cdr }], so [ocpiData.cdr] of a transaction whose
    CDR was not built yet is stored as [null]. *)
Inductive Field (A : Type) : Type :=
| Missing
| Null
| Val (a : A).
Arguments Missing {A}.
Arguments Null {A}.

Record StopMDB : Type := { stop_timestamp : Z; stop_tagID : string; meterStop : Z }.
Record OcpiDataMDB : Type := { mdb_session : Field OCPISession; mdb_cdr : Field OCPICdr }.
Record TransactionMDB : Type := {
  _id : Z;
  stop : Field StopMDB;
  mdb_ocpiData : Field OcpiDataMDB
}.

(** [TransactionStorage.saveTransaction]: the document [transactionMDB] that it
    builds and stores for the transaction to save, as far as the query of the task
    looks into it.  The field [stop] is written when the transaction has a stop, and
    the field [ocpiData] when it has roaming data, as [{ session, cdr }], so that a
    session or a CDR that is not there yet is stored as [null]. *)
Record TransactionToSave : Type := {
  transaction : Transaction;
  transaction_stop : option StopMDB
}.

Definition stored {A} (o : option A) : Field A :=
  match o with
  | Some a => Val a
  | None => Null
  end.

Definition saveTransaction_document (transactionToSave : TransactionToSave)
  : TransactionMDB :=
  {| _id := transaction_id (transaction transactionToSave);
     stop :=
       match transaction_stop transactionToSave with
       | Some st => Val st
       | None => Missing
       end;
     mdb_ocpiData :=
       match ocpiData (transaction transactionToSave) with
       | Some d => Val {| mdb_session := stored (session d); mdb_cdr := stored (cdr d) |}
       | None => Missing
       end |}.

(** [{ $exists: want }] *)
Definition op_exists {A} (want : bool) (f : Field A) : bool :=
  Bool.eqb want (match f with Missing => false | _ => true end).

(** [field: null] matches a field that holds [null] and a field that is missing. *)
Definition op_is_null {A} (f : Field A) : bool :=
  match f with
  | Val _ => false
  | _ => true
  end.

(** The dotted path ['ocpiData.cdr']. *)
Definition path_ocpiData_cdr (d : TransactionMDB) : Field OCPICdr :=
  match mdb_ocpiData d with
  | Val o => mdb_cdr o
  | _ => Missing
  end.

(** [$match: { 'stop': { $exists: true }, 'ocpiData': { $exists: true },
               'ocpiData.cdr': null }] *)
Definition stage_match (d : TransactionMDB) : bool :=
  op_exists true (stop d) && op_exists true (mdb_ocpiData d)
  && op_is_null (path_ocpiData_cdr d).

(** [$project: { '_id': 1 }]; the projected documents are [{ _id }], written
    here as the id. *)
Definition stage_project (d : TransactionMDB) : Z := _id d.

Definition pipeline (collection : list TransactionMDB) : list Z :=
  map stage_project (filter stage_match collection).

(** ** Log entries *)
Inductive Level : Type := LInfo | LError.

Inductive Details : Type :=
| NoDetails
| DetailsError (error : Exn) (transactionID : Z)
| DetailsCdr (c : option OCPICdr).

Record LogEntry : Type := {
  log_tenantID : string;
  log_action : ServerAction;
  log_actionOnUser : option User;
  log_module : string;
  log_method : string;
  log_message : string;
  log_detailedMessages : Details
}.

(** ** The trace: every call the task makes, with what came back *)
Inductive Event : Type :=
| AcquireOCPIPushCpoCdrsLock (tenantID : string) (r : Reply (option Lock))
| AcquireOCPIPushCdrLock (tenantID : string) (transactionID : Z) (r : Reply (option Lock))
| Release (l : Lock) (r : Reply bool)
| Aggregate (tenantID : string) (r : Reply (list TransactionMDB))
| GetTransactions (tenantID : string) (transactionIDs : list Z) (r : Reply DataResult)
| GetChargingStation (tenantID : string) (id : string) (r : Reply (option ChargingStation))
| GetTag (tenantID : string) (id : string) (r : Reply (option Tag))
| ProcessTransactionRoaming (t : Transaction) (a : TransactionAction) (r : Reply Transaction)
| CheckTenant (tenantID : string) (r : Reply unit)
| FindOneAndUpdate (tenantID : string) (id : Z) (d : option TransactionOcpiData) (r : Reply unit)
| TraceStart (module_ method_ : string)
| TraceEnd (module_ method_ : string)
| Log (level : Level) (entry : LogEntry)
| LogActionExceptionMessage (tenantID : string) (a : ServerAction) (error : Exn).

(** ** The collaborators

    [W] is the state of everything outside the task: the database, the lock
    service, the roaming partner and the other processes working on them.  A call
    moves it and returns or raises. *)
Class Collaborators (W : Type) : Type := {
  isTenantComponentActive : Tenant -> TenantComponents -> bool;
  lockingHelper_acquireOCPIPushCpoCdrsLock : W -> string -> W * Reply (option Lock);
  lockingHelper_acquireOCPIPushCdrLock : W -> string -> Z -> W * Reply (option Lock);
  lockingManager_release : W -> Lock -> W * Reply bool;
  (** reading the [transactions] collection of a tenant *)
  database_transactions : W -> string -> W * Reply (list TransactionMDB);
  transactionStorage_getTransactions : W -> string -> list Z -> W * Reply DataResult;
  chargingStationStorage_getChargingStation :
    W -> string -> string -> W * Reply (option ChargingStation);
  tagStorage_getTag : W -> string -> string -> W * Reply (option Tag);
  (** returns the transaction as the call leaves it (it fills [ocpiData.cdr]) *)
  ocppUtils_processTransactionRoaming :
    W -> Tenant -> Transaction -> ChargingStation -> Tag -> TransactionAction
    -> W * Reply Transaction;
  databaseUtils_checkTenant : W -> string -> W * Reply unit;
  database_findOneAndUpdate_ocpiData :
    W -> string -> Z -> option TransactionOcpiData -> W * Reply unit
}.

Record St (W : Type) : Type := { env : W; trace : list Event }.

Section Task.
Context {W : Type} {C : Collaborators W}.

Definition emit (e : Event) : M (St W) unit :=
  modify (fun s => {| env := env s; trace := trace s ++ [e] |}).

(** [await f(...)]: the environment moves, the call is recorded with its reply,
    and a rejection becomes a throw. *)
Definition call {A} (f : W -> W * Reply A) (ev : Reply A -> Event) : M (St W) A :=
  fun s =>
    let (w', r) := f (env s) in
    ({| env := w'; trace := trace s ++ [ev r] |},
     match r with
     | Returned a => Ok a
     | Raised e => Throw e
     end).

(** Modelled from the spec: the [Logging] collaborator (utils/Logging is not
    part of the sources at hand) records the entry and returns. *)
Definition Logging_logInfo (e : LogEntry) : M (St W) unit := emit (Log LInfo e).
Definition Logging_logError (e : LogEntry) : M (St W) unit := emit (Log LError e).
Definition Logging_logActionExceptionMessage (tenantID : string) (a : ServerAction)
           (error : Exn) : M (St W) unit :=
  emit (LogActionExceptionMessage tenantID a error).
Definition Logging_traceStart (module_ method_ : string) : M (St W) unit :=
  emit (TraceStart module_ method_).
Definition Logging_traceEnd (module_ method_ : string) : M (St W) unit :=
  emit (TraceEnd module_ method_).

Definition entry (tenant : Tenant) (message : string) : LogEntry :=
  {| log_tenantID := tenant_id tenant;
     log_action := OCPI_PUSH_CDRS;
     log_actionOnUser := None;
     log_module := MODULE_NAME;
     log_method := "processTenant";
     log_message := message;
     log_detailedMessages := NoDetails |}.

(** [TransactionStorage.getTransaction(tenantID, id, { withUser: true })] *)
Definition getTransaction (tenantID : string) (id : Z) : M (St W) (option Transaction) :=
  transactionsMDB <- call (fun w => transactionStorage_getTransactions w tenantID [id])
                          (GetTransactions tenantID [id]) ;;
  ret (if (count transactionsMDB =? 1)%Z then nth_error (result transactionsMDB) 0
       else None).

(** [TransactionStorage.saveTransactionOcpiData(tenantID, id, ocpiData)] *)
Definition saveTransactionOcpiData (tenantID : string) (id : Z)
           (d : option TransactionOcpiData) : M (St W) unit :=
  Logging_traceStart STORAGE_MODULE_NAME "saveTransactionOcpiData" ;;;
  call (fun w => databaseUtils_checkTenant w tenantID) (CheckTenant tenantID) ;;;
  call (fun w => database_findOneAndUpdate_ocpiData w tenantID id d)
       (FindOneAndUpdate tenantID id d) ;;;
  Logging_traceEnd STORAGE_MODULE_NAME "saveTransactionOcpiData".

(** The [try] block of one round of the candidate loop.  A [continue] leaves the
    block, so the statements after a guard are the other branch of it. *)
Definition pushCdr_try (tenant : Tenant) (transactionMDB_id : Z) : M (St W) unit :=
  transaction <- getTransaction (tenant_id tenant) transactionMDB_id ;;
  match transaction with
  | None =>
      Logging_logError
        (entry tenant ("Transaction ID '" ++ show transactionMDB_id ++ "' not found"))
  | Some transaction =>
      if has_cdr transaction then
        Logging_logInfo
          (entry tenant ("Transaction ID '" ++ show transactionMDB_id
                         ++ "' already has his CDR pushed"))
      else
        chargingStation <-
          call (fun w => chargingStationStorage_getChargingStation
                           w (tenant_id tenant) (chargeBoxID transaction))
               (GetChargingStation (tenant_id tenant) (chargeBoxID transaction)) ;;
        match chargingStation with
        | None =>
            Logging_logError
              (entry tenant ("Charging Station ID '" ++ chargeBoxID transaction
                             ++ "' not found"))
        | Some chargingStation =>
            tag <- call (fun w => tagStorage_getTag w (tenant_id tenant) (tagID transaction))
                        (GetTag (tenant_id tenant) (tagID transaction)) ;;
            match tag with
            | None =>
                Logging_logError
                  (entry tenant ("Tag ID '" ++ tagID transaction ++ "' not found"))
            | Some tag =>
                transaction' <-
                  call (fun w => ocppUtils_processTransactionRoaming
                                   w tenant transaction chargingStation tag END)
                       (ProcessTransactionRoaming transaction END) ;;
                saveTransactionOcpiData (tenant_id tenant) (transaction_id transaction')
                                        (ocpiData transaction') ;;;
                match ocpiData transaction' with
                | None =>
                    throw (Error "Cannot read properties of undefined (reading 'cdr')")
                | Some d =>
                    Logging_logInfo
                      {| log_tenantID := tenant_id tenant;
                         log_action := OCPI_PUSH_CDRS;
                         log_actionOnUser := user transaction';
                         log_module := MODULE_NAME;
                         log_method := "processTenant";
                         log_message :=
                           "CDR of Transaction ID '" ++ show (transaction_id transaction')
                           ++ "' has been pushed successfully";
                         log_detailedMessages := DetailsCdr (cdr d) |}
                end
            end
        end
  end.

(** One round of [for (const transactionMDB of transactionsMDB)]. *)
Definition pushCdr (tenant : Tenant) (transactionMDB_id : Z) : M (St W) unit :=
  ocpiTransactionLock <-
    call (fun w => lockingHelper_acquireOCPIPushCdrLock w (tenant_id tenant) transactionMDB_id)
         (AcquireOCPIPushCdrLock (tenant_id tenant) transactionMDB_id) ;;
  match ocpiTransactionLock with
  | Some ocpiTransactionLock =>
      try_finally
        (try_catch
           (pushCdr_try tenant transactionMDB_id)
           (fun error =>
              Logging_logError
                {| log_tenantID := tenant_id tenant;
                   log_action := OCPI_PUSH_CDRS;
                   log_actionOnUser := None;
                   log_module := MODULE_NAME;
                   log_method := "processTenant";
                   log_message :=
                     "Failed to pushed the CDR of the Transaction ID '"
                     ++ show transactionMDB_id ++ "' to OCPI";
                   log_detailedMessages := DetailsError error transactionMDB_id |}))
        (call (fun w => lockingManager_release w ocpiTransactionLock)
              (Release ocpiTransactionLock) ;;; ret tt)
  | None => ret tt
  end.

(** The body protected by the tenant-wide lock. *)
Definition pushCdrs (tenant : Tenant) : M (St W) unit :=
  collection <- call (fun w => database_transactions w (tenant_id tenant))
                     (Aggregate (tenant_id tenant)) ;;
  let transactionsMDB := pipeline collection in
  if negb (isEmptyArray transactionsMDB) then
    Logging_logInfo
      (entry tenant (show (Z.of_nat (List.length transactionsMDB))
                     ++ " Transaction's CDRs are going to be pushed to OCPI")) ;;;
    for_of transactionsMDB (pushCdr tenant)
  else ret tt.

Definition processTenant (tenant : Tenant) (config : TaskConfig) : M (St W) unit :=
  try_catch
    (if isTenantComponentActive tenant OCPI then
       ocpiLock <- call (fun w => lockingHelper_acquireOCPIPushCpoCdrsLock w (tenant_id tenant))
                        (AcquireOCPIPushCpoCdrsLock (tenant_id tenant)) ;;
       match ocpiLock with
       | Some ocpiLock =>
           try_finally
             (pushCdrs tenant)
             (call (fun w => lockingManager_release w ocpiLock) (Release ocpiLock) ;;; ret tt)
       | None => ret tt
       end
     else ret tt)
    (fun error =>
       Logging_logActionExceptionMessage (tenant_id tenant) OCPI_PULL_CDRS error).
End Task.

End OCPIPushCdrsTask.


(* ================================================================== *)
(** * The eMSP client *)
(* ================================================================== *)

Module EmspOCPIClient.

Definition MODULE_NAME : string := "EmspOCPIClient".

Inductive ServerAction : Type :=
| OCPI_PUSH_TOKENS | OCPI_PULL_LOCATIONS | OCPI_PULL_SESSIONS | OCPI_PULL_CDRS.

(** [OCPIRole]: a string enumeration. *)
Definition OCPIRole_CPO : string := "CPO".
Definition OCPIRole_EMSP : string := "EMSP".

(** [OCPIEvseStatus.REMOVED] *)
Definition OCPIEvseStatus_REMOVED : string := "REMOVED".

Record Tenant : Type := { tenant_id : string; tenant_name : string }.
Record OcpiSetting : Type := { setting_countryCode : string; setting_partyID : string }.

(** The summary an endpoint keeps of its last token push. *)
Record PatchJobResult : Type := {
  successNbr : Z;
  failureNbr : Z;
  totalNbr : Z;
  tokenIDsInFailure : list string
}.

Record OCPIEndpoint : Type := {
  endpoint_id : string;
  endpoint_name : string;
  role : string;
  baseUrl : string;
  token : string;
  countryCode : string;
  partyId : string;
  lastPatchJobOn : option Z;
  lastPatchJobResult : option PatchJobResult
}.

(** The object [this]. *)
Record OCPIClient : Type := {
  tenant : Tenant;
  settings : OcpiSetting;
  ocpiEndpoint : OCPIEndpoint;
  client_role : string
}.

Record OCPIResult : Type := {
  success : Z;
  failure : Z;
  total : Z;
  logs : list string;
  (** an optional field: [pushTokens] creates it, the pull flows do not *)
  objectIDsInFailure : option (list string)
}.

Record OCPIToken : Type := {
  uid : string;
  token_type : string;
  auth_id : string;
  visual_number : string;
  token_issuer : string;
  valid : bool;
  whitelist : string;
  last_updated : Z
}.

Record Tokens : Type := { tokens_count : Z; tokens_result : list OCPIToken }.

Record Company : Type := {
  company_id : string;
  company_name : string;
  company_issuer : bool;
  company_createdOn : Z
}.

(** What [Utils.convertToFloat] makes of a coordinate string. *)
Inductive JsNumber : Type := convertToFloat (s : string).

Record Address : Type := {
  address1 : string;
  address2 : option string;
  postalCode : string;
  city : string;
  country : string;
  coordinates : list JsNumber
}.

Record Site : Type := {
  site_id : option string;
  site_name : string;
  site_createdOn : Z;
  site_companyID : string;
  site_issuer : bool;
  site_address : Address
}.

Record SiteArea : Type := {
  siteArea_id : option string;
  siteArea_name : string;
  siteArea_createdOn : Z;
  siteArea_siteID : option string;
  siteArea_issuer : bool;
  siteArea_address : Address;
  (** filled by a query [withSite] *)
  siteArea_site : option Site
}.

Record OCPIEvse : Type := {
  evse_uid : option string;
  evse_id : string;
  evse_status : string
}.

Record GeoLocation : Type := { latitude : string; longitude : string }.
Record BusinessDetails : Type := { operator_name : option string }.

Record OCPILocation : Type := {
  location_id : string;
  location_name : string;
  operator : option BusinessDetails;
  location_address : string;
  location_postal_code : string;
  location_city : string;
  location_country : string;
  location_coordinates : option GeoLocation;
  evses : list OCPIEvse
}.

Record ChargingStation : Type := {
  chargingStation_id : string;
  chargingStation_companyID : option string;
  chargingStation_siteID : option string;
  chargingStation_siteAreaID : option string;
  chargingStation_ocpiData : list OCPIEvse
}.

(** An HTTP response: [response.data.data] (an absent array is the empty one, which
    [Utils.isEmptyArray] does not tell apart) and [response.headers.link]. *)
Record Response (X : Type) : Type := { data : list X; link : option string }.

Record LogEntry : Type := {
  log_tenantID : string;
  log_action : ServerAction;
  log_message : string;
  log_module : string;
  log_method : string
}.

(** ** The trace *)
Inductive Event : Type :=
| GetLocations (url authorization : string) (r : Reply (Response OCPILocation))
| GetSessions (url authorization : string) (r : Reply (Response OCPISession))
| GetCdrs (url authorization : string) (r : Reply (Response OCPICdr))
| Put (url : string) (body : OCPIToken) (authorization : string) (r : Reply unit)
| GetTokens (limit skip : Z) (r : Reply Tokens)
| UpdateTransaction (session : OCPISession) (r : Reply unit)
| ProcessCdr (c : OCPICdr) (r : Reply unit)
| GetCompany (id : string) (r : Reply (option Company))
| SaveCompany (c : Company) (r : Reply unit)
| SaveOcpiEndpoint (e : OCPIEndpoint) (r : Reply unit)
| Database (operation : string) (r : Reply unit)
| NewObjectID (id : string)
| GetChargingStationByOcpiLocationUid (locationID evseUid : string)
    (r : Reply (option ChargingStation))
| DeleteChargingStation (id : string) (r : Reply unit)
| SaveChargingStation (c : ChargingStation) (r : Reply unit)
| SaveChargingStationOcpiData (id : string) (d : list OCPIEvse) (r : Reply unit)
| LogDebug (entry : LogEntry)
| LogOcpiResult (a : ServerAction) (method_ : string) (result : OCPIResult)
    (startTime endTime : Z)
(** completion of the two methods of the client that are run once per item *)
| ProcessLocation (location : OCPILocation) (r : Reply unit)
| PushToken (t : OCPIToken) (r : Reply bool).

(** ** The collaborators of the client *)
Class Collaborators (W : Type) : Type := {
  (** constants of [utils/Constants] *)
  DB_RECORD_COUNT_DEFAULT : Z;
  OCPI_MAX_PARALLEL_REQUESTS : Z;
  OCPI_SEPARATOR : string;
  (** the base class [OCPIClient] *)
  ocpiClient_constructor : Tenant -> OcpiSetting -> OCPIEndpoint -> string -> Reply OCPIClient;
  getEndpointUrl : OCPIClient -> string -> ServerAction -> Reply string;
  getLocalCountryCode : OCPIClient -> ServerAction -> Reply string;
  getLocalPartyID : OCPIClient -> ServerAction -> Reply string;
  (** [OCPIUtils] and [OCPIUtilsService] *)
  getNextUrl : option string -> option string;
  buildOperatorName : string -> string -> string;
  convertEvseToChargingStation : OCPIEvse -> OCPILocation -> ChargingStation;
  getTokens : W -> Tenant -> Z -> Z -> W * Reply Tokens;
  updateTransaction : W -> Tenant -> OCPISession -> W * Reply unit;
  processCdr : W -> Tenant -> OCPICdr -> W * Reply unit;
  (** the clock: [new Date().getTime()], and
      [moment().utc().subtract(days, 'days').startOf('day').format()] *)
  now : W -> Z;
  momentFrom : W -> Z -> string;
  (** [this.axiosInstance], with the payload it is read as *)
  axios_get_locations : W -> string -> string -> W * Reply (Response OCPILocation);
  axios_get_sessions : W -> string -> string -> W * Reply (Response OCPISession);
  axios_get_cdrs : W -> string -> string -> W * Reply (Response OCPICdr);
  axios_put : W -> string -> OCPIToken -> string -> W * Reply unit;
  (** storage *)
  getCompany : W -> Tenant -> string -> W * Reply (option Company);
  saveCompany : W -> Tenant -> Company -> W * Reply unit;
  saveOcpiEndpoint : W -> Tenant -> OCPIEndpoint -> W * Reply unit;
  getChargingStationByOcpiLocationUid :
    W -> string -> string -> string -> W * Reply (option ChargingStation);
  deleteChargingStation : W -> string -> string -> W * Reply unit;
  saveChargingStation : W -> string -> ChargingStation -> W * Reply unit;
  saveChargingStationOcpiData : W -> string -> string -> list OCPIEvse -> W * Reply unit;
  (** the database serves a call on the site collections, or raises; and it draws
      the id of a new document *)
  database : W -> string -> W * Reply unit;
  newObjectID : W -> W * string;
  (** the event loop: of [n] calls in flight, the position (in the order in which
      they were started) of the one that settles first *)
  settlesFirst : W -> nat -> W * nat
}.

(** The state: the environment, the two site collections of the tenant, the objects
    the flows mutate in place (the client [this] with its endpoint, and the array
    [sites.result] that [pullLocations] hands to [processLocation]), and the trace. *)
Record St (W : Type) : Type := {
  env : W;
  sites : list Site;
  siteAreas : list SiteArea;
  this : OCPIClient;
  existingSites : list Site;
  trace : list Event
}.

Definition set_env {W} (s : St W) (w : W) : St W :=
  {| env := w; sites := sites s; siteAreas := siteAreas s; this := this s;
     existingSites := existingSites s; trace := trace s |}.
Definition set_sites {W} (s : St W) (l : list Site) : St W :=
  {| env := env s; sites := l; siteAreas := siteAreas s; this := this s;
     existingSites := existingSites s; trace := trace s |}.
Definition set_siteAreas {W} (s : St W) (l : list SiteArea) : St W :=
  {| env := env s; sites := sites s; siteAreas := l; this := this s;
     existingSites := existingSites s; trace := trace s |}.
Definition set_this {W} (s : St W) (c : OCPIClient) : St W :=
  {| env := env s; sites := sites s; siteAreas := siteAreas s; this := c;
     existingSites := existingSites s; trace := trace s |}.
Definition set_existingSites {W} (s : St W) (l : list Site) : St W :=
  {| env := env s; sites := sites s; siteAreas := siteAreas s; this := this s;
     existingSites := l; trace := trace s |}.
Definition add_event {W} (s : St W) (e : Event) : St W :=
  {| env := env s; sites := sites s; siteAreas := siteAreas s; this := this s;
     existingSites := existingSites s; trace := trace s ++ [e] |}.

(** [_.uniq]: the first occurrence of each element, in order. *)
Fixpoint uniq_from (seen l : list string) : list string :=
  match l with
  | [] => []
  | x :: l' =>
      if existsb (String.eqb x) seen then uniq_from seen l'
      else x :: uniq_from (x :: seen) l'
  end.
Definition uniq (l : list string) : list string := uniq_from [] l.

(** Truthiness of a string: [undefined] and [''] are falsy. *)
Definition truthy (o : option string) : bool :=
  match o with
  | Some s => negb (String.eqb s "")
  | None => false
  end.

Definition set_lastPatchJob (e : OCPIEndpoint) (on : Z) (r : PatchJobResult) : OCPIEndpoint :=
  {| endpoint_id := endpoint_id e; endpoint_name := endpoint_name e; role := role e;
     baseUrl := baseUrl e; token := token e; countryCode := countryCode e;
     partyId := partyId e; lastPatchJobOn := Some on; lastPatchJobResult := Some r |}.

Definition set_ocpiEndpoint (c : OCPIClient) (e : OCPIEndpoint) : OCPIClient :=
  {| tenant := tenant c; settings := settings c; ocpiEndpoint := e;
     client_role := client_role c |}.

(** [result.success++] and the other updates of the summary under construction. *)
Definition inc_success (r : OCPIResult) : OCPIResult :=
  {| success := success r + 1; failure := failure r; total := total r; logs := logs r;
     objectIDsInFailure := objectIDsInFailure r |}.
Definition inc_total (r : OCPIResult) : OCPIResult :=
  {| success := success r; failure := failure r; total := total r + 1; logs := logs r;
     objectIDsInFailure := objectIDsInFailure r |}.
Definition inc_failure (r : OCPIResult) : OCPIResult :=
  {| success := success r; failure := failure r + 1; total := total r; logs := logs r;
     objectIDsInFailure := objectIDsInFailure r |}.
Definition push_log (r : OCPIResult) (m : string) : OCPIResult :=
  {| success := success r; failure := failure r; total := total r; logs := logs r ++ [m];
     objectIDsInFailure := objectIDsInFailure r |}.
Definition set_total (r : OCPIResult) (n : Z) : OCPIResult :=
  {| success := success r; failure := failure r; total := n; logs := logs r;
     objectIDsInFailure := objectIDsInFailure r |}.

Section Client.
Context {W : Type} {C : Collaborators W}.

Definition emit (e : Event) : M (St W) unit := modify (fun s => add_event s e).

Definition call {A} (f : W -> W * Reply A) (ev : Reply A -> Event) : M (St W) A :=
  fun s =>
    let (w', r) := f (env s) in
    (add_event (set_env s w') (ev r),
     match r with
     | Returned a => Ok a
     | Raised e => Throw e
     end).

(** A synchronous call that returns or throws. *)
Definition lift {A} (r : Reply A) : M (St W) A :=
  match r with
  | Returned a => ret a
  | Raised e => throw e
  end.

(** Runs a method of the client and records how it completed. *)
Definition observed {A} (ev : Reply A -> Event) (m : M (St W) A) : M (St W) A :=
  fun s =>
    match m s with
    | (s', Ok a) => (add_event s' (ev (Returned a)), Ok a)
    | (s', Throw e) => (add_event s' (ev (Raised e)), Throw e)
    | (s', OutOfFuel) => (s', OutOfFuel)
    end.

Definition gets {A} (f : St W -> A) : M (St W) A := fun s => (s, Ok (f s)).

(** Modelled from the spec: the [Logging] collaborator (utils/Logging is not part of
    the sources at hand) records the entry and returns. *)
Definition Logging_logDebug (e : LogEntry) : M (St W) unit := emit (LogDebug e).
Definition Logging_logOcpiResult (a : ServerAction) (method_ : string) (r : OCPIResult)
           (startTime : Z) : M (St W) unit :=
  endTime <- gets (fun s => now (env s)) ;;
  emit (LogOcpiResult a method_ r startTime endTime).

(** ** The constructor *)
Definition constructor (tenant : Tenant) (settings : OcpiSetting)
           (ocpiEndpoint : OCPIEndpoint) : Reply OCPIClient :=
  match ocpiClient_constructor tenant settings ocpiEndpoint OCPIRole_EMSP with
  | Raised e => Raised e
  | Returned this =>
      if negb (String.eqb (role ocpiEndpoint) OCPIRole_EMSP) then
        Raised (BackendError MODULE_NAME "constructor"
                  ("EmspOCPIClient requires OCPI Endpoint with role " ++ OCPIRole_EMSP))
      else Returned this
  end.

Definition authorization : M (St W) string :=
  gets (fun s => "Token " ++ token (ocpiEndpoint (this s))).

(** ** [pushToken] *)
Definition pushToken (t : OCPIToken) : M (St W) bool :=
  self <- gets (@this W) ;;
  tokensUrl <- lift (getEndpointUrl self "tokens" OCPI_PUSH_TOKENS) ;;
  countryCode <- lift (getLocalCountryCode self OCPI_PUSH_TOKENS) ;;
  partyID <- lift (getLocalPartyID self OCPI_PUSH_TOKENS) ;;
  let fullUrl := tokensUrl ++ "/" ++ countryCode ++ "/" ++ partyID ++ "/" ++ uid t in
  auth <- authorization ;;
  call (fun w => axios_put w fullUrl t auth) (Put fullUrl t auth) ;;;
  ret true.

(** ** [Promise.map(items, worker, { concurrency })] of bluebird

    The workers of the first [concurrency] items are started in the order of the
    array, and the other items wait in a queue; each time a worker is done, the item
    at the end of the queue is started ([queue.pop()]).  A [concurrency] below 1 is
    no limit: every worker is started at once.  A worker of this client awaits one
    call and updates the summary when that call has settled, so a worker is run here
    when its call settles; which of the calls in flight settles first is the choice
    of the environment.  The worker carries the summary under construction. *)

(** The number of workers started at once. *)
Definition limit {A} (concurrency : Z) (items : list A) : nat :=
  if (1 <=? concurrency)%Z then Z.to_nat concurrency else List.length items.

(** The element at position [i] of [x :: l], the last one when [i] is beyond, and the
    other elements in their order. *)
Fixpoint extract {A} (i : nat) (x : A) (l : list A) : A * list A :=
  match i, l with
  | Datatypes.S i', y :: l' => let (z, others) := extract i' y l' in (z, x :: others)
  | _, _ => (x, l)
  end.

(** Which of [n] calls in flight settles first. *)
Definition settles (n : nat) : M (St W) nat :=
  fun s => let (w', i) := settlesFirst (env s) n in (set_env s w', Ok i).

(** The workers in flight, in the order in which they were started, and the queue,
    its end first; [pending] counts the items that are not done. *)
Fixpoint settle {A} (pending : nat) (inFlight queue : list A)
         (worker : A -> OCPIResult -> M (St W) OCPIResult) (result : OCPIResult)
  : M (St W) OCPIResult :=
  match pending, inFlight with
  | Datatypes.S pending', x :: others =>
      i <- settles (List.length inFlight) ;;
      let (done, others) := extract i x others in
      result' <- worker done result ;;
      match queue with
      | next :: queue' => settle pending' (others ++ [next])%list queue' worker result'
      | [] => settle pending' others [] worker result'
      end
  | _, _ => ret result
  end.

Definition Promise_map {A} (items : list A) (worker : A -> OCPIResult -> M (St W) OCPIResult)
           (concurrency : Z) (result : OCPIResult) : M (St W) OCPIResult :=
  let n := limit concurrency items in
  settle (List.length items) (firstn n items) (rev (skipn n items)) worker result.

(** ** [pushTokens] *)
Record PushLocals : Type := {
  push_result : OCPIResult;
  currentSkip : Z;
  tokens : list OCPIToken
}.

Definition pushTokens_worker (t : OCPIToken) (result : OCPIResult) : M (St W) OCPIResult :=
  let result := inc_total result in
  try_catch
    (observed (PushToken t) (pushToken t) ;;; ret (inc_success result))
    (fun error =>
       let result := inc_failure result in
       let result :=
         {| success := success result; failure := failure result; total := total result;
            logs := logs result;
            objectIDsInFailure :=
              match objectIDsInFailure result with
              | Some ids => Some (ids ++ [uid t])%list
              | None => None
              end |} in
       ret (push_log result ("Failed to update Token ID '" ++ uid t ++ "': "
                             ++ exn_message error))).

Definition pushTokens_round (l : PushLocals) : M (St W) PushLocals :=
  self <- gets (@this W) ;;
  page <- call (fun w => getTokens w (tenant self) DB_RECORD_COUNT_DEFAULT (currentSkip l))
               (GetTokens DB_RECORD_COUNT_DEFAULT (currentSkip l)) ;;
  result <- (if negb (isEmptyArray (tokens_result page))
             then Promise_map (tokens_result page) pushTokens_worker
                              OCPI_MAX_PARALLEL_REQUESTS (push_result l)
             else ret (push_result l)) ;;
  ret {| push_result := result;
         currentSkip := currentSkip l + DB_RECORD_COUNT_DEFAULT;
         tokens := tokens_result page |}.

Definition pushTokens (fuel : nat) : M (St W) OCPIResult :=
  let result := {| success := 0; failure := 0; total := 0; logs := [];
                   objectIDsInFailure := Some [] |} in
  startTime <- gets (fun s => now (env s)) ;;
  lastPatchJobOn <- gets (fun s => now (env s)) ;;
  l <- do_while fuel pushTokens_round (fun l => negb (isEmptyArray (tokens l)))
                {| push_result := result; currentSkip := 0; tokens := [] |} ;;
  let result := push_result l in
  (* [if (result)] holds, [result] being an object: the summary is saved from it *)
  modify (fun s =>
            set_this s (set_ocpiEndpoint (this s)
              (set_lastPatchJob (ocpiEndpoint (this s)) lastPatchJobOn
                 {| successNbr := success result;
                    failureNbr := failure result;
                    totalNbr := total result;
                    tokenIDsInFailure :=
                      uniq (match objectIDsInFailure result with
                            | Some ids => ids
                            | None => []
                            end) |}))) ;;;
  self <- gets (@this W) ;;
  call (fun w => saveOcpiEndpoint w (tenant self) (ocpiEndpoint self))
       (SaveOcpiEndpoint (ocpiEndpoint self)) ;;;
  Logging_logOcpiResult OCPI_PUSH_TOKENS "sendTokens" result startTime ;;;
  ret result.

(** ** [checkAndGetCompany] *)
Definition checkAndGetCompany : M (St W) Company :=
  self <- gets (@this W) ;;
  company <- call (fun w => getCompany w (tenant self) (endpoint_id (ocpiEndpoint self)))
                  (GetCompany (endpoint_id (ocpiEndpoint self))) ;;
  match company with
  | Some company => ret company
  | None =>
      createdOn <- gets (fun s => now (env s)) ;;
      let company := {| company_id := endpoint_id (ocpiEndpoint self);
                        company_name := endpoint_name (ocpiEndpoint self);
                        company_issuer := false;
                        company_createdOn := createdOn |} in
      call (fun w => saveCompany w (tenant self) company) (SaveCompany company) ;;;
      ret company
  end.

(** ** Storage of sites and site areas *)

(** The database draws the id of a new document. *)
Definition new_id : M (St W) string :=
  fun s =>
    let (w', id) := newObjectID (env s) in
    (add_event (set_env s w') (NewObjectID id), Ok id).

(** Modelled from the spec: [SiteStorage.getSites(tenant, { companyIDs: [id] }, ...)]
    (storage/mongodb/SiteStorage is not part of the sources at hand) fetches the
    sites of the company. *)
Definition SiteStorage_getSites (companyID : string) : M (St W) (list Site) :=
  call (fun w => database w "getSites") (Database "getSites") ;;;
  gets (fun s => filter (fun x => String.eqb (site_companyID x) companyID) (sites s)).

Definition with_site_id (x : Site) (id : string) : Site :=
  {| site_id := Some id; site_name := site_name x; site_createdOn := site_createdOn x;
     site_companyID := site_companyID x; site_issuer := site_issuer x;
     site_address := site_address x |}.

(** Modelled from the spec: [SiteStorage.saveSite] saves a site that has no id yet
    as a new site and returns its id. *)
Definition SiteStorage_saveSite (x : Site) : M (St W) string :=
  call (fun w => database w "saveSite") (Database "saveSite") ;;;
  id <- new_id ;;
  modify (fun s => set_sites s (sites s ++ [with_site_id x id])) ;;;
  ret id.

Definition option_string_eqb (a b : option string) : bool :=
  match a, b with
  | Some x, Some y => String.eqb x y
  | None, None => true
  | _, _ => false
  end.

Definition with_site (a : SiteArea) (x : option Site) : SiteArea :=
  {| siteArea_id := siteArea_id a; siteArea_name := siteArea_name a;
     siteArea_createdOn := siteArea_createdOn a; siteArea_siteID := siteArea_siteID a;
     siteArea_issuer := siteArea_issuer a; siteArea_address := siteArea_address a;
     siteArea_site := x |}.

Definition with_siteArea_id (a : SiteArea) (id : string) : SiteArea :=
  {| siteArea_id := Some id; siteArea_name := siteArea_name a;
     siteArea_createdOn := siteArea_createdOn a; siteArea_siteID := siteArea_siteID a;
     siteArea_issuer := siteArea_issuer a; siteArea_address := siteArea_address a;
     siteArea_site := siteArea_site a |}.

(** Modelled from the spec: [SiteAreaStorage.getSiteAreas(tenantID,
    { siteIDs: [siteID], name, issuer: false, withSite: true },
    Constants.DB_PARAMS_SINGLE_RECORD)] (storage/mongodb/SiteAreaStorage is not part
    of the sources at hand) fetches the first site area of that site with that name,
    together with its site. *)
Definition SiteAreaStorage_getSiteAreas (siteID : option string) (name : string)
  : M (St W) (list SiteArea) :=
  call (fun w => database w "getSiteAreas") (Database "getSiteAreas") ;;;
  gets (fun s =>
          map (fun a => with_site a
                          (find (fun x => option_string_eqb (site_id x) (siteArea_siteID a))
                                (sites s)))
              (firstn 1 (filter (fun a => option_string_eqb (siteArea_siteID a) siteID
                                          && String.eqb (siteArea_name a) name
                                          && negb (siteArea_issuer a))
                                (siteAreas s)))).

(** Modelled from the spec: [SiteAreaStorage.saveSiteArea] saves a site area that has
    no id yet as a new site area and returns its id. *)
Definition SiteAreaStorage_saveSiteArea (a : SiteArea) : M (St W) string :=
  call (fun w => database w "saveSiteArea") (Database "saveSiteArea") ;;;
  id <- new_id ;;
  modify (fun s => set_siteAreas s (siteAreas s ++ [with_siteArea_id a id])) ;;;
  ret id.

(** ** [processLocation]

    The third argument of the method, the array [existingSites], is the component
    [existingSites] of the state: the method pushes to the array of its caller. *)
Definition coordinates_of (location : OCPILocation) : list JsNumber :=
  match location_coordinates location with
  | Some c =>
      if truthy (Some (latitude c)) && truthy (Some (longitude c))
      then [convertToFloat (longitude c); convertToFloat (latitude c)]
      else []
  | None => []
  end.

Definition siteName_of (self : OCPIClient) (location : OCPILocation) : string :=
  match operator location with
  | Some o =>
      match operator_name o with
      | Some n => n
      | None => buildOperatorName (countryCode (ocpiEndpoint self)) (partyId (ocpiEndpoint self))
      end
  | None => buildOperatorName (countryCode (ocpiEndpoint self)) (partyId (ocpiEndpoint self))
  end.

Definition debug (self : OCPIClient) (message : string) : LogEntry :=
  {| log_tenantID := tenant_id (tenant self);
     log_action := OCPI_PULL_LOCATIONS;
     log_message := message;
     log_module := MODULE_NAME;
     log_method := "processLocation" |}.

(** One round of [for (const evse of location.evses)]. *)
Definition processEvse (self : OCPIClient) (location : OCPILocation) (siteArea : SiteArea)
           (evse : OCPIEvse) : M (St W) unit :=
  if negb (truthy (evse_uid evse)) then
    throw (BackendError MODULE_NAME "processLocation"
             ("Missing Charging Station EVSE UID in Location '" ++ location_name location
              ++ "' with ID '" ++ location_id location ++ "'"))
  else
    let evseUid := match evse_uid evse with Some u => u | None => "" end in
    if String.eqb (evse_status evse) OCPIEvseStatus_REMOVED then
      currentChargingStation <-
        call (fun w => getChargingStationByOcpiLocationUid
                         w (tenant_id (tenant self)) (location_id location) evseUid)
             (GetChargingStationByOcpiLocationUid (location_id location) evseUid) ;;
      match currentChargingStation with
      | Some currentChargingStation =>
          call (fun w => deleteChargingStation w (tenant_id (tenant self))
                           (chargingStation_id currentChargingStation))
               (DeleteChargingStation (chargingStation_id currentChargingStation)) ;;;
          Logging_logDebug
            (debug self ("Removed Charging Station EVSE UID '" ++ evseUid
                         ++ "' in Location '" ++ location_name location
                         ++ "' with ID '" ++ location_id location ++ "'"))
      | None => ret tt
      end
    else
      let converted := convertEvseToChargingStation evse location in
      let chargingStation :=
        {| chargingStation_id := chargingStation_id converted;
           chargingStation_companyID :=
             match siteArea_site siteArea with
             | Some x => Some (site_companyID x)
             | None => None
             end;
           chargingStation_siteID := siteArea_siteID siteArea;
           chargingStation_siteAreaID := siteArea_id siteArea;
           chargingStation_ocpiData := chargingStation_ocpiData converted |} in
      call (fun w => saveChargingStation w (tenant_id (tenant self)) chargingStation)
           (SaveChargingStation chargingStation) ;;;
      call (fun w => saveChargingStationOcpiData w (tenant_id (tenant self))
                       (chargingStation_id chargingStation)
                       (chargingStation_ocpiData chargingStation))
           (SaveChargingStationOcpiData (chargingStation_id chargingStation)
              (chargingStation_ocpiData chargingStation)) ;;;
      Logging_logDebug
        (debug self ("Updated Charging Station ID '" ++ evse_id evse
                     ++ "' in Location '" ++ location_name location ++ "'")).

(** The block [// Handle Site]: the site of the operator, found in [existingSites] by
    its name, or created, saved and pushed to [existingSites]. *)
Definition handleSite (self : OCPIClient) (location : OCPILocation) (company : Company)
  : M (St W) Site :=
  let siteName := siteName_of self location in
  found <- gets (fun s => find (fun existingSite => String.eqb (site_name existingSite) siteName)
                               (existingSites s)) ;;
  match found with
  | Some site => ret site
  | None =>
      createdOn <- gets (fun s => now (env s)) ;;
      let site :=
        {| site_id := None;
           site_name := siteName;
           site_createdOn := createdOn;
           site_companyID := company_id company;
           site_issuer := false;
           site_address :=
             {| address1 := location_address location;
                address2 := None;
                postalCode := location_postal_code location;
                city := location_city location;
                country := location_country location;
                coordinates := coordinates_of location |} |} in
      id <- SiteStorage_saveSite site ;;
      let site := with_site_id site id in
      modify (fun s => set_existingSites s (existingSites s ++ [site])) ;;;
      ret site
  end.

(** The block [// Handle Site Area]: the site area of the location, fetched by the
    id of the site and the name [locationName], or created and saved. *)
Definition handleSiteArea (location : OCPILocation) (site : Site) : M (St W) SiteArea :=
  let locationName := site_name site ++ OCPI_SEPARATOR ++ location_id location in
  siteAreas <- SiteAreaStorage_getSiteAreas (site_id site) locationName ;;
  match siteAreas with
  | siteArea :: _ => ret siteArea
  | [] =>
      createdOn <- gets (fun s => now (env s)) ;;
      let siteArea :=
        {| siteArea_id := None;
           siteArea_name := locationName;
           siteArea_createdOn := createdOn;
           siteArea_siteID := site_id site;
           siteArea_issuer := false;
           siteArea_address :=
             {| address1 := location_address location;
                address2 := Some (location_name location);
                postalCode := location_postal_code location;
                city := location_city location;
                country := location_country location;
                coordinates := coordinates_of location |};
           siteArea_site := None |} in
      id <- SiteAreaStorage_saveSiteArea siteArea ;;
      ret (with_siteArea_id siteArea id)
  end.

Definition processLocation (location : OCPILocation) (company : Company) : M (St W) unit :=
  self <- gets (@this W) ;;
  site <- handleSite self location company ;;
  siteArea <- handleSiteArea location site ;;
  if negb (isEmptyArray (evses location)) then
    for_of (evses location) (processEvse self location siteArea)
  else ret tt.

(** ** The pull flows *)
Record PullLocals : Type := {
  url : string;
  nextResult : bool;
  pull_result : OCPIResult
}.

(** The end of a round: follow the next link, or stop. *)
Definition follow (l : PullLocals) (result : OCPIResult) (link : option string) : PullLocals :=
  let nextUrl := getNextUrl link in
  match nextUrl with
  | Some next =>
      if negb (String.eqb next "") && negb (String.eqb next (url l))
      then {| url := next; nextResult := nextResult l; pull_result := result |}
      else {| url := url l; nextResult := false; pull_result := result |}
  | None => {| url := url l; nextResult := false; pull_result := result |}
  end.

Definition empty_result : OCPIResult :=
  {| success := 0; failure := 0; total := 0; logs := []; objectIDsInFailure := None |}.

Definition pullLocations_item (company : Company) (result : OCPIResult)
           (location : OCPILocation) : M (St W) OCPIResult :=
  try_catch
    (observed (ProcessLocation location) (processLocation location company) ;;;
     ret (inc_success result))
    (fun error =>
       ret (push_log (inc_failure result)
                     ("Failed to update Location '" ++ location_name location ++ "': "
                      ++ exn_message error))).

(** [for (const location of locations)], carrying the summary. *)
Fixpoint pullLocations_items (company : Company) (locations : list OCPILocation)
         (result : OCPIResult) : M (St W) OCPIResult :=
  match locations with
  | [] => ret result
  | location :: locations' =>
      result' <- pullLocations_item company result location ;;
      pullLocations_items company locations' result'
  end.

Definition pullLocations_round (company : Company) (l : PullLocals) : M (St W) PullLocals :=
  auth <- authorization ;;
  response <- call (fun w => axios_get_locations w (url l) auth) (GetLocations (url l) auth) ;;
  let locations := data response in
  result <- (if negb (isEmptyArray locations)
             then pullLocations_items company locations (pull_result l)
             else ret (pull_result l)) ;;
  ret (follow l result (link response)).

Definition pullLocations (partial : bool) (fuel : nat) : M (St W) OCPIResult :=
  startTime <- gets (fun s => now (env s)) ;;
  self <- gets (@this W) ;;
  locationsUrl <- lift (getEndpointUrl self "locations" OCPI_PULL_LOCATIONS) ;;
  locationsUrl <- (if partial
                   then from <- gets (fun s => momentFrom (env s) 1) ;;
                        ret (locationsUrl ++ "?date_from=" ++ from ++ "&limit=5")
                   else ret (locationsUrl ++ "?limit=5")) ;;
  company <- checkAndGetCompany ;;
  sites <- SiteStorage_getSites (company_id company) ;;
  modify (fun s => set_existingSites s sites) ;;;
  l <- do_while fuel (pullLocations_round company) nextResult
                {| url := locationsUrl; nextResult := true; pull_result := empty_result |} ;;
  let result := pull_result l in
  Logging_logOcpiResult OCPI_PULL_LOCATIONS "pullLocations" result startTime ;;;
  ret result.

Definition pullSessions_worker (session : OCPISession) (result : OCPIResult)
  : M (St W) OCPIResult :=
  self <- gets (@this W) ;;
  try_catch
    (call (fun w => updateTransaction w (tenant self) session) (UpdateTransaction session) ;;;
     ret (inc_success result))
    (fun error =>
       ret (push_log (inc_failure result)
                     ("Failed to update OCPI Session ID '" ++ session_id session ++ "': "
                      ++ exn_message error))).

Definition pullSessions_round (l : PullLocals) : M (St W) PullLocals :=
  auth <- authorization ;;
  response <- call (fun w => axios_get_sessions w (url l) auth) (GetSessions (url l) auth) ;;
  let sessions := data response in
  result <- (if negb (isEmptyArray sessions)
             then Promise_map sessions pullSessions_worker OCPI_MAX_PARALLEL_REQUESTS
                              (pull_result l)
             else ret (pull_result l)) ;;
  ret (follow l result (link response)).

Definition pullSessions (fuel : nat) : M (St W) OCPIResult :=
  startTime <- gets (fun s => now (env s)) ;;
  self <- gets (@this W) ;;
  sessionsUrl <- lift (getEndpointUrl self "sessions" OCPI_PULL_SESSIONS) ;;
  from <- gets (fun s => momentFrom (env s) 2) ;;
  let sessionsUrl := sessionsUrl ++ "?date_from=" ++ from ++ "&limit=10" in
  l <- do_while fuel pullSessions_round nextResult
                {| url := sessionsUrl; nextResult := true; pull_result := empty_result |} ;;
  let result := pull_result l in
  let result := set_total result (failure result + success result) in
  Logging_logOcpiResult OCPI_PULL_SESSIONS "pullSessions" result startTime ;;;
  ret result.

Definition pullCdrs_worker (c : OCPICdr) (result : OCPIResult) : M (St W) OCPIResult :=
  self <- gets (@this W) ;;
  try_catch
    (call (fun w => processCdr w (tenant self) c) (ProcessCdr c) ;;;
     ret (inc_success result))
    (fun error =>
       ret (push_log (inc_failure result)
                     ("Failed to update CDR ID '" ++ cdr_id c ++ "': " ++ exn_message error))).

Definition pullCdrs_round (l : PullLocals) : M (St W) PullLocals :=
  auth <- authorization ;;
  response <- call (fun w => axios_get_cdrs w (url l) auth) (GetCdrs (url l) auth) ;;
  let cdrs := data response in
  result <- (if negb (isEmptyArray cdrs)
             then Promise_map cdrs pullCdrs_worker OCPI_MAX_PARALLEL_REQUESTS
                              (pull_result l)
             else ret (pull_result l)) ;;
  ret (follow l result (link response)).

Definition pullCdrs (fuel : nat) : M (St W) OCPIResult :=
  startTime <- gets (fun s => now (env s)) ;;
  self <- gets (@this W) ;;
  cdrsUrl <- lift (getEndpointUrl self "cdrs" OCPI_PULL_CDRS) ;;
  from <- gets (fun s => momentFrom (env s) 2) ;;
  let cdrsUrl := cdrsUrl ++ "?date_from=" ++ from ++ "&limit=10" in
  l <- do_while fuel pullCdrs_round nextResult
                {| url := cdrsUrl; nextResult := true; pull_result := empty_result |} ;;
  let result := pull_result l in
  let result := set_total result (failure result + success result) in
  Logging_logOcpiResult OCPI_PULL_CDRS "pullCdrs" result startTime ;;;
  ret result.

End Client.

End EmspOCPIClient.


(* ================================================================== *)
(** * An in-memory environment for the task

    One process, a transaction store, and a lock table: the environment on which the
    task is run in the examples. *)
(* ================================================================== *)

Module TaskEnv.
Import OCPIPushCdrsTask.

Record World : Type := {
  transactions : list (Transaction * Field StopMDB);
  chargingStations : list ChargingStation;
  tags : list Tag;
  held : list Lock
}.

Definition lock_eqb (a b : Lock) : bool :=
  String.eqb (lock_tenantID a) (lock_tenantID b) && String.eqb (lock_key a) (lock_key b).

Definition to_field {A} (o : option A) : Field A :=
  match o with
  | Some a => Val a
  | None => Null
  end.

(** The stored document of a transaction, as [saveTransaction] lays it out. *)
Definition to_mdb (p : Transaction * Field StopMDB) : TransactionMDB :=
  {| _id := transaction_id (fst p);
     stop := snd p;
     mdb_ocpiData :=
       match ocpiData (fst p) with
       | Some d => Val {| mdb_session := to_field (session d); mdb_cdr := to_field (cdr d) |}
       | None => Missing
       end |}.

Definition acquire (w : World) (l : Lock) : World * Reply (option Lock) :=
  if existsb (lock_eqb l) (held w) then (w, Returned None)
  else ({| transactions := transactions w; chargingStations := chargingStations w;
           tags := tags w; held := l :: held w |}, Returned (Some l)).

Definition release (w : World) (l : Lock) : World * Reply bool :=
  ({| transactions := transactions w; chargingStations := chargingStations w;
      tags := tags w; held := filter (fun h => negb (lock_eqb l h)) (held w) |},
   Returned (existsb (lock_eqb l) (held w))).

Definition getTransactions (w : World) (ids : list Z) : World * Reply DataResult :=
  let found := filter (fun t => existsb (Z.eqb (transaction_id t)) ids)
                      (map fst (transactions w)) in
  (w, Returned {| count := Z.of_nat (List.length found); result := found |}).

Definition setCdr (t : Transaction) : Transaction :=
  {| transaction_id := transaction_id t;
     chargeBoxID := chargeBoxID t;
     tagID := tagID t;
     user := user t;
     ocpiData :=
       match ocpiData t with
       | Some d => Some {| session := session d;
                           cdr := Some {| cdr_id := show (transaction_id t) |};
                           sessionCheckedOn := sessionCheckedOn d;
                           cdrCheckedOn := cdrCheckedOn d |}
       | None => None
       end |}.

Definition findOneAndUpdate (w : World) (id : Z) (d : option TransactionOcpiData)
  : World * Reply unit :=
  ({| transactions :=
        map (fun p => if (transaction_id (fst p) =? id)%Z
                      then ({| transaction_id := transaction_id (fst p);
                               chargeBoxID := chargeBoxID (fst p);
                               tagID := tagID (fst p);
                               user := user (fst p);
                               ocpiData := d |}, snd p)
                      else p) (transactions w);
      chargingStations := chargingStations w; tags := tags w; held := held w |},
   Returned tt).

#[export] Instance collaborators : Collaborators World := {|
  isTenantComponentActive := fun _ _ => true;
  lockingHelper_acquireOCPIPushCpoCdrsLock :=
    fun w tenantID => acquire w {| lock_tenantID := tenantID; lock_key := "push-cdrs" |};
  lockingHelper_acquireOCPIPushCdrLock :=
    fun w tenantID id =>
      acquire w {| lock_tenantID := tenantID; lock_key := "push-cdr-" ++ show id |};
  lockingManager_release := release;
  database_transactions := fun w _ => (w, Returned (map to_mdb (transactions w)));
  transactionStorage_getTransactions := fun w _ ids => getTransactions w ids;
  chargingStationStorage_getChargingStation :=
    fun w _ id => (w, Returned (find (fun c => String.eqb (chargingStation_id c) id)
                                     (chargingStations w)));
  tagStorage_getTag :=
    fun w _ id => (w, Returned (find (fun t => String.eqb (tag_id t) id) (tags w)));
  ocppUtils_processTransactionRoaming := fun w _ t _ _ _ => (w, Returned (setCdr t));
  databaseUtils_checkTenant := fun w _ => (w, Returned tt);
  database_findOneAndUpdate_ocpiData := fun w _ id d => findOneAndUpdate w id d
|}.

Definition tenant1 : Tenant := {| tenant_id := "t1"; tenant_name := "Tenant 1" |}.

Definition someStop : Field StopMDB :=
  Val {| stop_timestamp := 1000; stop_tagID := "TAG1"; meterStop := 4200 |}.

Definition roaming (c : option OCPICdr) : option TransactionOcpiData :=
  Some {| session := Some {| session_id := "S" |}; cdr := c;
          sessionCheckedOn := None; cdrCheckedOn := None |}.

Definition tx (id : Z) (d : option TransactionOcpiData) : Transaction :=
  {| transaction_id := id; chargeBoxID := "CS1"; tagID := "TAG1"; user := None;
     ocpiData := d |}.

(** Transaction 1 is finished and waits for its CDR; 2 is finished and has its CDR;
    3 is still running; 4 is finished and is not a roaming transaction. *)
Definition world1 : World :=
  {| transactions := [ (tx 1 (roaming None), someStop);
                       (tx 2 (roaming (Some {| cdr_id := "2" |})), someStop);
                       (tx 3 (roaming None), Missing);
                       (tx 4 None, someStop) ];
     chargingStations := [ {| chargingStation_id := "CS1" |} ];
     tags := [ {| tag_id := "TAG1" |} ];
     held := [] |}.

Definition start (w : World) : St World := {| env := w; trace := [] |}.

(** The transactions of [world1] as [saveTransaction] is given them. *)
Definition saved1 : list TransactionToSave :=
  [ {| transaction := tx 1 (roaming None);
       transaction_stop :=
         Some {| stop_timestamp := 1000; stop_tagID := "TAG1"; meterStop := 4200 |} |};
    {| transaction := tx 2 (roaming (Some {| cdr_id := "2" |}));
       transaction_stop :=
         Some {| stop_timestamp := 1000; stop_tagID := "TAG1"; meterStop := 4200 |} |};
    {| transaction := tx 3 (roaming None); transaction_stop := None |};
    {| transaction := tx 4 None;
       transaction_stop :=
         Some {| stop_timestamp := 1000; stop_tagID := "TAG1"; meterStop := 4200 |} |} ].

(** The same store while another process holds the tenant-wide lock and the lock of
    transaction 1. *)
Definition world_busy : World :=
  {| transactions := transactions world1;
     chargingStations := chargingStations world1;
     tags := tags world1;
     held := [ {| lock_tenantID := "t1"; lock_key := "push-cdrs" |};
               {| lock_tenantID := "t1"; lock_key := "push-cdr-1" |} ] |}.

End TaskEnv.


(* ================================================================== *)
(** * An in-memory environment for the client

    A roaming partner that serves fixed pages and rejects chosen items; a token
    store, charging stations, and a counter for new ids.  At most two calls are in
    flight at a time, and they settle in the order in which they were started. *)
(* ================================================================== *)

Module ClientEnv.
Import EmspOCPIClient.

(** The roaming partner: the pages it serves at each address, and the ids of the
    items whose requests it answers with an error. *)
Record Partner : Type := {
  locationPages : list (string * Response OCPILocation);
  sessionPages : list (string * Response OCPISession);
  cdrPages : list (string * Response OCPICdr);
  rejected : list string
}.

Record World : Type := {
  clock : Z;
  localTokens : list OCPIToken;
  stations : list (string * string * ChargingStation);
  nextID : Z
}.

Definition tick (w : World) : World :=
  {| clock := clock w + 1; localTokens := localTokens w; stations := stations w;
     nextID := nextID w |}.

Definition set_stations (w : World) (l : list (string * string * ChargingStation)) : World :=
  {| clock := clock w; localTokens := localTokens w; stations := l; nextID := nextID w |}.

Definition fresh (w : World) : World * string :=
  ({| clock := clock w; localTokens := localTokens w; stations := stations w;
      nextID := nextID w + 1 |}, "id" ++ show (nextID w)).

Definition serve {X} (pages : list (string * Response X)) (w : World) (url : string)
  : World * Reply (Response X) :=
  match find (fun p => String.eqb (fst p) url) pages with
  | Some p => (tick w, Returned (snd p))
  | None => (tick w, Raised (Error "Request failed with status code 404"))
  end.

Definition accept (partner : Partner) (w : World) (id : string) : World * Reply unit :=
  if existsb (String.eqb id) (rejected partner)
  then (tick w, Raised (Error "Request failed with status code 500"))
  else (tick w, Returned tt).

Definition collaborators (partner : Partner) : Collaborators World := {|
  DB_RECORD_COUNT_DEFAULT := 2;
  OCPI_MAX_PARALLEL_REQUESTS := 2;
  OCPI_SEPARATOR := "-";
  ocpiClient_constructor :=
    fun t s e r => Returned {| tenant := t; settings := s; ocpiEndpoint := e; client_role := r |};
  getEndpointUrl := fun self service _ => Returned (baseUrl (ocpiEndpoint self) ++ "/" ++ service);
  getLocalCountryCode := fun self _ => Returned (setting_countryCode (settings self));
  getLocalPartyID := fun self _ => Returned (setting_partyID (settings self));
  getNextUrl := fun link => link;
  buildOperatorName := fun cc pid => cc ++ "*" ++ pid;
  convertEvseToChargingStation :=
    fun evse location =>
      {| chargingStation_id := evse_id evse;
         chargingStation_companyID := None;
         chargingStation_siteID := None;
         chargingStation_siteAreaID := None;
         chargingStation_ocpiData := [evse] |};
  getTokens :=
    fun w _ limit skip =>
      let page := firstn (Z.to_nat limit) (skipn (Z.to_nat skip) (localTokens w)) in
      (tick w, Returned {| tokens_count := Z.of_nat (List.length page); tokens_result := page |});
  updateTransaction := fun w _ session => accept partner w (session_id session);
  processCdr := fun w _ c => accept partner w (cdr_id c);
  now := clock;
  momentFrom := fun w days => "day" ++ show (clock w / 86400000 - days);
  axios_get_locations := fun w url _ => serve (locationPages partner) w url;
  axios_get_sessions := fun w url _ => serve (sessionPages partner) w url;
  axios_get_cdrs := fun w url _ => serve (cdrPages partner) w url;
  axios_put := fun w url t _ => accept partner w (uid t);
  getCompany := fun w _ id => (w, Returned None);
  saveCompany := fun w _ c => (w, Returned tt);
  saveOcpiEndpoint := fun w _ e => (w, Returned tt);
  getChargingStationByOcpiLocationUid :=
    fun w _ locationID evseUid =>
      (w, Returned (option_map snd
                      (find (fun p => String.eqb (fst (fst p)) locationID
                                      && String.eqb (snd (fst p)) evseUid)
                            (stations w))));
  deleteChargingStation :=
    fun w _ id =>
      (set_stations w (filter (fun p => negb (String.eqb (chargingStation_id (snd p)) id))
                              (stations w)),
       Returned tt);
  saveChargingStation :=
    fun w _ c =>
      match chargingStation_ocpiData c with
      | evse :: _ =>
          (set_stations w ((match chargingStation_siteAreaID c with Some a => a | None => "" end,
                            match evse_uid evse with Some u => u | None => "" end, c)
                           :: stations w),
           Returned tt)
      | [] => (w, Returned tt)
      end;
  saveChargingStationOcpiData := fun w _ id d => accept partner w id;
  database := fun w _ => (w, Returned tt);
  newObjectID := fresh;
  settlesFirst := fun w _ => (w, 0)
|}.

(** The same environment with a token store that holds the tokens [all] whatever
    happens around it. *)
Definition collaborators_with_tokens (all : list OCPIToken) (partner : Partner)
  : Collaborators World :=
  let c := collaborators partner in
  {|
    DB_RECORD_COUNT_DEFAULT := @DB_RECORD_COUNT_DEFAULT World c;
    OCPI_MAX_PARALLEL_REQUESTS := @OCPI_MAX_PARALLEL_REQUESTS World c;
    OCPI_SEPARATOR := @OCPI_SEPARATOR World c;
    ocpiClient_constructor := @ocpiClient_constructor World c;
    getEndpointUrl := @getEndpointUrl World c;
    getLocalCountryCode := @getLocalCountryCode World c;
    getLocalPartyID := @getLocalPartyID World c;
    getNextUrl := @getNextUrl World c;
    buildOperatorName := @buildOperatorName World c;
    convertEvseToChargingStation := @convertEvseToChargingStation World c;
    getTokens :=
      fun w _ limit skip =>
        let page := firstn (Z.to_nat limit) (skipn (Z.to_nat skip) all) in
        (tick w,
         Returned {| tokens_count := Z.of_nat (List.length page); tokens_result := page |});
    updateTransaction := @updateTransaction World c;
    processCdr := @processCdr World c;
    now := @now World c;
    momentFrom := @momentFrom World c;
    axios_get_locations := @axios_get_locations World c;
    axios_get_sessions := @axios_get_sessions World c;
    axios_get_cdrs := @axios_get_cdrs World c;
    axios_put := @axios_put World c;
    getCompany := @getCompany World c;
    saveCompany := @saveCompany World c;
    saveOcpiEndpoint := @saveOcpiEndpoint World c;
    getChargingStationByOcpiLocationUid := @getChargingStationByOcpiLocationUid World c;
    deleteChargingStation := @deleteChargingStation World c;
    saveChargingStation := @saveChargingStation World c;
    saveChargingStationOcpiData := @saveChargingStationOcpiData World c;
    database := @database World c;
    newObjectID := @newObjectID World c;
    settlesFirst := @settlesFirst World c
  |}.

Definition endpoint (r : string) : OCPIEndpoint :=
  {| endpoint_id := "ep1"; endpoint_name := "Partner"; role := r;
     baseUrl := "https://partner/ocpi/2.1.1"; token := "secret";
     countryCode := "FR"; partyId := "SLF";
     lastPatchJobOn := None; lastPatchJobResult := None |}.

Definition tenant1 : Tenant := {| tenant_id := "t1"; tenant_name := "Tenant 1" |}.
Definition settings1 : OcpiSetting := {| setting_countryCode := "FR"; setting_partyID := "SLF" |}.

Definition client : OCPIClient :=
  {| tenant := tenant1; settings := settings1; ocpiEndpoint := endpoint OCPIRole_EMSP;
     client_role := OCPIRole_EMSP |}.

Definition tok (u : string) : OCPIToken :=
  {| uid := u; token_type := "RFID"; auth_id := "user1"; visual_number := u;
     token_issuer := "Tenant 1"; valid := true; whitelist := "ALLOWED_OFFLINE";
     last_updated := 0 |}.

Definition world0 : World := {| clock := 0; localTokens := []; stations := []; nextID := 1 |}.

(** Three local tokens. *)
Definition world_tokens : World :=
  {| clock := 0; localTokens := [tok "T1"; tok "T2"; tok "T3"]; stations := []; nextID := 1 |}.

(** A token that the store hands out on two pages. *)
Definition world_token_twice : World :=
  {| clock := 0; localTokens := [tok "T1"; tok "T2"; tok "T2"]; stations := []; nextID := 1 |}.

Definition start (w : World) : St World :=
  {| env := w; sites := []; siteAreas := []; this := client; existingSites := [];
     trace := [] |}.

Definition session (id : string) : OCPISession := {| session_id := id |}.

Definition sessionsUrl0 : string := "https://partner/ocpi/2.1.1/sessions?date_from=day-2&limit=10".

Definition P1 : Response OCPISession :=
  {| data := [session "a"; session "b"]; link := Some "page2" |}.
Definition P2 : Response OCPISession := {| data := [session "c"]; link := Some "page3" |}.
Definition P3 : Response OCPISession := {| data := [session "d"]; link := None |}.

(** Three pages of sessions P1 -> P2 -> P3, the last one without a next link; the
    storage of session "c" fails.  Tokens: the partner answers 500 to "T2". *)
Definition partner_three_pages : Partner :=
  {| locationPages := [];
     sessionPages := [ (sessionsUrl0, P1); ("page2", P2); ("page3", P3) ];
     cdrPages := [];
     rejected := ["c"; "T2"] |}.

(** One page whose next link is its own address. *)
Definition Pself : Response OCPISession :=
  {| data := [session "a"]; link := Some sessionsUrl0 |}.

Definition partner_self_link : Partner :=
  {| locationPages := []; sessionPages := [ (sessionsUrl0, Pself) ]; cdrPages := [];
     rejected := [] |}.

(** One page of five sessions; the storage of "c" and of "e" fails. *)
Definition partner_five_sessions : Partner :=
  {| locationPages := [];
     sessionPages :=
       [ (sessionsUrl0,
          {| data := [session "a"; session "b"; session "c"; session "d"; session "e"];
             link := None |}) ];
     cdrPages := [];
     rejected := ["c"; "e"] |}.

(** Two pages whose next links lead to each other. *)
Definition partner_cycle : Partner :=
  {| locationPages := [];
     sessionPages :=
       [ (sessionsUrl0, {| data := [session "a"]; link := Some "page2" |});
         ("page2", {| data := [session "b"]; link := Some sessionsUrl0 |}) ];
     cdrPages := [];
     rejected := [] |}.

Definition cdrsUrl0 : string := "https://partner/ocpi/2.1.1/cdrs?date_from=day-2&limit=10".

(** A first page of CDRs whose next link leads to an address that fails. *)
Definition partner_broken_second_page : Partner :=
  {| locationPages := []; sessionPages := [];
     cdrPages := [ (cdrsUrl0, {| data := [ {| cdr_id := "c1" |}; {| cdr_id := "c2" |} ];
                                 link := Some "page2" |}) ];
     rejected := [] |}.

Definition evse (u : option string) (id : string) : OCPIEvse :=
  {| evse_uid := u; evse_id := id; evse_status := "AVAILABLE" |}.

Definition location (id : string) (l : list OCPIEvse) : OCPILocation :=
  {| location_id := id; location_name := "Loc " ++ id;
     operator := Some {| operator_name := Some "Operator" |};
     location_address := "1 rue"; location_postal_code := "06000";
     location_city := "Nice"; location_country := "FRA";
     location_coordinates := Some {| latitude := "43.7"; longitude := "7.2" |};
     evses := l |}.

Definition company1 : Company :=
  {| company_id := "ep1"; company_name := "Partner"; company_issuer := false;
     company_createdOn := 0 |}.

Definition locationsUrl0 : string := "https://partner/ocpi/2.1.1/locations?date_from=day-1&limit=5".

(** A location whose first EVSE has no uid and whose second EVSE is well formed; the
    same location with the second EVSE only; and another location. *)
Definition evse_without_uid : OCPIEvse := evse None "E1".
Definition evse_well_formed : OCPIEvse := evse (Some "U2") "E2".
Definition L1 : OCPILocation := location "L1" [evse_without_uid; evse_well_formed].
Definition L2 : OCPILocation := location "L2" [evse (Some "U3") "E3"].

Definition partner_locations : Partner :=
  {| locationPages := [ (locationsUrl0, {| data := [L1; L2]; link := None |}) ];
     sessionPages := []; cdrPages := []; rejected := [] |}.

End ClientEnv.


(* ================================================================== *)
(** * The eMSP client: remote commands *)
(* ================================================================== *)

Module RemoteCommands.
Import EmspOCPIClient.

(** The server actions of the two commands. *)
Inductive CommandAction : Type := OCPI_START_SESSION | OCPI_STOP_SESSION.

Record User : Type := { user_id : string; user_issuer : bool }.

Record Tag : Type := {
  tag_id : string;
  tag_issuer : bool;
  tag_active : bool;
  tag_visualID : string;
  tag_user : option User
}.

(** A charging station, with the site area a start command reads. *)
Record ChargingStation : Type := {
  station_id : string;
  station_siteArea : option SiteArea
}.

Record Transaction : Type := {
  transaction_id : Z;
  transaction_issuer : bool;
  connectorId : Z;
  chargeBoxID : string;
  ocpiData : option OCPIPushCdrsTask.TransactionOcpiData
}.

Record OCPIStartSession : Type := {
  start_response_url : string;
  start_token : OCPIToken;
  evse_uid : string;
  location_id : string;
  authorization_id : string
}.

Record OCPIStopSession : Type := {
  stop_response_url : string;
  stop_session_id : string
}.

(** What the partner answers to a command: [response.status] and
    [response.data.data]. *)
Record OCPICommandResponse : Type := { result : string }.
Record CommandReply : Type := { status : Z; reply_data : OCPICommandResponse }.

Inductive Details : Type :=
| DetailsStart (remoteStart : OCPIStartSession) (response : OCPICommandResponse)
| DetailsStop (response : OCPICommandResponse).

Record LogEntry : Type := {
  log_tenantID : string;
  log_action : CommandAction;
  log_source : string;
  log_message : string;
  log_module : string;
  log_method : string;
  log_detailedMessages : Details
}.

Inductive Event : Type :=
| GetTag (tenantID tagID : string) (r : Reply (option Tag))
| GetTransaction (tenantID : string) (transactionID : Z) (r : Reply (option Transaction))
| GenerateUUID (uuid : string)
| PostStart (url : string) (body : OCPIStartSession) (authorization : string)
    (r : Reply CommandReply)
| PostStop (url : string) (body : OCPIStopSession) (authorization : string)
    (r : Reply CommandReply)
| LogDebug (entry : LogEntry).

Class Collaborators (W : Type) : Type := {
  (** [OCPICommandType] and [OCPITokenWhitelist]: string enumerations *)
  OCPICommandType_START_SESSION : string;
  OCPICommandType_STOP_SESSION : string;
  OCPITokenWhitelist_ALLOWED_OFFLINE : string;
  (** the base class [OCPIClient] *)
  getEndpointUrl : OCPIClient -> string -> CommandAction -> Reply string;
  getLocalEndpointUrl : OCPIClient -> string -> Reply string;
  (** [Utils] and [OCPIUtils] *)
  buildConnectorInfo : Z -> option Z -> string;
  getOCPITokenTypeFromID : string -> string;
  getOCPIEmspLocationIDFromSiteAreaName : string -> string;
  generateUUID : W -> W * string;
  now : W -> Z;
  (** storage *)
  tagStorage_getTag : W -> string -> string -> W * Reply (option Tag);
  transactionStorage_getTransaction : W -> string -> Z -> W * Reply (option Transaction);
  (** [this.axiosInstance.post] *)
  axios_post_start : W -> string -> OCPIStartSession -> string -> W * Reply CommandReply;
  axios_post_stop : W -> string -> OCPIStopSession -> string -> W * Reply CommandReply
}.

(** The state: the environment, the client [this], and the trace. *)
Record St (W : Type) : Type := { env : W; this : OCPIClient; trace : list Event }.

Definition MODULE_NAME : string := EmspOCPIClient.MODULE_NAME.

Section Commands.
Context {W : Type} {C : Collaborators W}.

Definition emit (e : Event) : M (St W) unit :=
  modify (fun s => {| env := env s; this := this s; trace := (trace s ++ [e])%list |}).

Definition call {A} (f : W -> W * Reply A) (ev : Reply A -> Event) : M (St W) A :=
  fun s =>
    let (w', r) := f (env s) in
    ({| env := w'; this := this s; trace := (trace s ++ [ev r])%list |},
     match r with
     | Returned a => Ok a
     | Raised e => Throw e
     end).

Definition lift {A} (r : Reply A) : M (St W) A :=
  match r with
  | Returned a => ret a
  | Raised e => throw e
  end.

Definition gets {A} (f : St W -> A) : M (St W) A := fun s => (s, Ok (f s)).

(** Modelled from the spec: the [Logging] collaborator (utils/Logging is not part of
    the sources at hand) records the entry and returns. *)
Definition Logging_logDebug (e : LogEntry) : M (St W) unit := emit (LogDebug e).

Definition authorization : M (St W) string :=
  gets (fun s => "Token " ++ token (ocpiEndpoint (this s))).

(** ** [remoteStartSession] *)
Definition remoteStartSession (chargingStation : ChargingStation) (connectorID : Z)
           (tagID : string) : M (St W) OCPICommandResponse :=
  self <- gets (@this W) ;;
  commandUrl <- lift (getEndpointUrl self "commands" OCPI_START_SESSION) ;;
  let commandUrl := commandUrl ++ "/" ++ OCPICommandType_START_SESSION in
  callbackUrl <- lift (getLocalEndpointUrl self "commands") ;;
  let callbackUrl := callbackUrl ++ "/" ++ OCPICommandType_START_SESSION in
  tag <- call (fun w => tagStorage_getTag w (tenant_id (tenant self)) tagID)
              (GetTag (tenant_id (tenant self)) tagID) ;;
  match tag with
  | None =>
      throw (BackendError MODULE_NAME "remoteStartSession"
               (buildConnectorInfo connectorID None
                ++ " OCPI Remote Start Session is not available for Tag ID '"
                ++ tagID ++ "'"))
  | Some tag =>
      if negb (tag_issuer tag) || negb (tag_active tag) then
        throw (BackendError MODULE_NAME "remoteStartSession"
                 (buildConnectorInfo connectorID None
                  ++ " OCPI Remote Start Session is not available for Tag ID '"
                  ++ tagID ++ "'"))
      else
        match tag_user tag with
        | None =>
            throw (BackendError MODULE_NAME "remoteStartSession"
                     (buildConnectorInfo connectorID None
                      ++ " OCPI Remote Start Session is not available for user with Tag ID '"
                      ++ tagID ++ "'"))
        | Some user =>
            if negb (user_issuer user) then
              throw (BackendError MODULE_NAME "remoteStartSession"
                       (buildConnectorInfo connectorID None
                        ++ " OCPI Remote Start Session is not available for user with Tag ID '"
                        ++ tagID ++ "'"))
            else
              last_updated <- gets (fun s => now (env s)) ;;
              let token :=
                {| uid := tag_id tag;
                   token_type := getOCPITokenTypeFromID (tag_id tag);
                   auth_id := user_id user;
                   visual_number := tag_visualID tag;
                   token_issuer := tenant_name (tenant self);
                   valid := true;
                   whitelist := OCPITokenWhitelist_ALLOWED_OFFLINE;
                   last_updated := last_updated |} in
              authorizationId <-
                (fun s =>
                   let (w', uuid) := generateUUID (env s) in
                   ({| env := w'; this := this s;
                       trace := (trace s ++ [GenerateUUID uuid])%list |}, Ok uuid)) ;;
              match station_siteArea chargingStation with
              | None =>
                  throw (Error "Cannot read properties of undefined (reading 'name')")
              | Some area =>
                  let locationID :=
                    getOCPIEmspLocationIDFromSiteAreaName (siteArea_name area) in
                  let remoteStart :=
                    {| start_response_url := callbackUrl ++ "/" ++ authorizationId;
                       start_token := token;
                       evse_uid := station_id chargingStation;
                       location_id := locationID;
                       authorization_id := authorizationId |} in
                  auth <- authorization ;;
                  response <- call (fun w => axios_post_start w commandUrl remoteStart auth)
                                   (PostStart commandUrl remoteStart auth) ;;
                  Logging_logDebug
                    {| log_tenantID := tenant_id (tenant self);
                       log_action := OCPI_START_SESSION;
                       log_source := station_id chargingStation;
                       log_message :=
                         buildConnectorInfo connectorID None
                         ++ " OCPI Remote Start session response status '"
                         ++ show (status response) ++ "'";
                       log_module := MODULE_NAME;
                       log_method := "remoteStartSession";
                       log_detailedMessages :=
                         DetailsStart remoteStart (reply_data response) |} ;;;
                  ret (reply_data response)
              end
        end
  end.

(** ** [remoteStopSession] *)
Definition remoteStopSession (transactionId : Z) : M (St W) OCPICommandResponse :=
  self <- gets (@this W) ;;
  commandUrl <- lift (getEndpointUrl self "commands" OCPI_START_SESSION) ;;
  let commandUrl := commandUrl ++ "/" ++ OCPICommandType_STOP_SESSION in
  callbackUrl <- lift (getLocalEndpointUrl self "commands") ;;
  let callbackUrl := callbackUrl ++ "/" ++ OCPICommandType_STOP_SESSION in
  transaction <-
    call (fun w => transactionStorage_getTransaction w (tenant_id (tenant self)) transactionId)
         (GetTransaction (tenant_id (tenant self)) transactionId) ;;
  match transaction with
  | None =>
      throw (BackendError MODULE_NAME "remoteStopSession"
               ("Transaction ID '" ++ show transactionId ++ "' does not exist"))
  | Some transaction =>
      if negb (transaction_issuer transaction) then
        throw (BackendError MODULE_NAME "remoteStopSession"
                 (buildConnectorInfo (connectorId transaction)
                                     (Some (transaction_id transaction))
                  ++ " Transaction belongs to an external organization"))
      else
        match match ocpiData transaction with
              | Some d => OCPIPushCdrsTask.session d
              | None => None
              end with
        | None =>
            throw (BackendError MODULE_NAME "remoteStopSession"
                     (buildConnectorInfo (connectorId transaction)
                                         (Some (transaction_id transaction))
                      ++ " No OCPI Session data"))
        | Some session =>
            let payload :=
              {| stop_response_url := callbackUrl ++ "/" ++ session_id session;
                 stop_session_id := session_id session |} in
            auth <- authorization ;;
            response <- call (fun w => axios_post_stop w commandUrl payload auth)
                             (PostStop commandUrl payload auth) ;;
            Logging_logDebug
              {| log_tenantID := tenant_id (tenant self);
                 log_action := OCPI_STOP_SESSION;
                 log_source := chargeBoxID transaction;
                 log_message :=
                   buildConnectorInfo (connectorId transaction)
                                      (Some (transaction_id transaction))
                   ++ " OCPI Remote Stop response status '"
                   ++ show (status response) ++ "'";
                 log_module := MODULE_NAME;
                 log_method := "remoteStopSession";
                 log_detailedMessages := DetailsStop (reply_data response) |} ;;;
            ret (reply_data response)
        end
  end.

End Commands.

End RemoteCommands.


(* ================================================================== *)
(** * The migration of the user settings *)
(* ================================================================== *)

Module MigrateUserSettingsTask.

Record Tenant : Type := { tenant_id : string }.

(** [TechnicalSettingsType.USER] and [UserSettingsContentType.USER] *)
Inductive TechnicalSettingsType : Type := TechnicalSettingsType_USER.
Inductive UserSettingsContentType : Type := UserSettingsContentType_USER.

Record UserSettingsContent : Type := {
  content_type : UserSettingsContentType;
  user_autoAccountActivation : bool
}.

Record UserSetting : Type := {
  identifier : TechnicalSettingsType;
  content : UserSettingsContent;
  createdOn : Z
}.

Inductive Event : Type :=
| GetTenants (r : Reply (list Tenant))
| GetUserSettings (tenantID : string) (r : Reply (option UserSetting))
| SaveSettings (tenantID : string) (settingsToSave : UserSetting) (r : Reply unit).

Class Collaborators (W : Type) : Type := {
  (** [TenantStorage.getTenants({}, Constants.DB_PARAMS_MAX_LIMIT)], its [result] *)
  tenantStorage_getTenants : W -> W * Reply (list Tenant);
  settingStorage_getUserSettings : W -> string -> W * Reply (option UserSetting);
  settingStorage_saveSettings : W -> string -> UserSetting -> W * Reply unit;
  now : W -> Z
}.

Record St (W : Type) : Type := { env : W; trace : list Event }.

Section Migration.
Context {W : Type} {C : Collaborators W}.

Definition call {A} (f : W -> W * Reply A) (ev : Reply A -> Event) : M (St W) A :=
  fun s =>
    let (w', r) := f (env s) in
    ({| env := w'; trace := (trace s ++ [ev r])%list |},
     match r with
     | Returned a => Ok a
     | Raised e => Throw e
     end).

Definition gets {A} (f : St W -> A) : M (St W) A := fun s => (s, Ok (f s)).

Definition migrateTenant (tenant : Tenant) : M (St W) unit :=
  userSetting <- call (fun w => settingStorage_getUserSettings w (tenant_id tenant))
                      (GetUserSettings (tenant_id tenant)) ;;
  match userSetting with
  | None =>
      createdOn <- gets (fun s => now (env s)) ;;
      let settingsToSave :=
        {| identifier := TechnicalSettingsType_USER;
           content := {| content_type := UserSettingsContentType_USER;
                         user_autoAccountActivation := true |};
           createdOn := createdOn |} in
      call (fun w => settingStorage_saveSettings w (tenant_id tenant) settingsToSave)
           (SaveSettings (tenant_id tenant) settingsToSave)
  | Some _ => ret tt
  end.

Definition migrate : M (St W) unit :=
  tenants <- call tenantStorage_getTenants GetTenants ;;
  for_of tenants migrateTenant.

Definition getVersion : string := "1.0".

Definition getName : string := "MigrateUserSettings".

End Migration.

End MigrateUserSettingsTask.


(** ** A storage of settings in memory, on which the migration is run in the
    examples *)

Module MigrationEnv.
Import MigrateUserSettingsTask.

Record World : Type := {
  tenants : list Tenant;
  settings : list (string * UserSetting);
  clock : Z
}.

Definition getUserSettings (w : World) (tenantID : string)
  : World * Reply (option UserSetting) :=
  (w, Returned (option_map snd
                  (find (fun p => String.eqb (fst p) tenantID) (settings w)))).

Definition saveSettings (w : World) (tenantID : string) (u : UserSetting)
  : World * Reply unit :=
  ({| tenants := tenants w; settings := (tenantID, u) :: settings w; clock := clock w |},
   Returned tt).

#[global] Instance collaborators : Collaborators World := {|
  tenantStorage_getTenants := fun w => (w, Returned (tenants w));
  settingStorage_getUserSettings := getUserSettings;
  settingStorage_saveSettings := saveSettings;
  now := clock
|}.

Definition custom : UserSetting :=
  {| identifier := TechnicalSettingsType_USER;
     content := {| content_type := UserSettingsContentType_USER;
                   user_autoAccountActivation := false |};
     createdOn := 5 |}.

(** Three tenants, the second of which has user settings of its own. *)
Definition world0 : World :=
  {| tenants := [ {| tenant_id := "t1" |}; {| tenant_id := "t2" |};
                  {| tenant_id := "t3" |} ];
     settings := [ ("t2", custom) ];
     clock := 100 |}.

Definition start (w : World) : St World := {| env := w; trace := [] |}.

End MigrationEnv.


(* ================================================================== *)
(** * The storage of transactions *)
(* ================================================================== *)

Module TransactionStorage.
Import OCPIPushCdrsTask.

Definition MODULE_NAME : string := "TransactionStorage".

(** A document of the [transactions] collection, as far as the methods below look
    into it. *)
Record Document : Type := {
  doc_id : Z;
  doc_timestamp : Field Z;
  doc_userID : Field string;
  doc_tagID : Field string
}.

Record WarningEntry : Type := {
  warning_tenantID : string;
  warning_module : string;
  warning_method : string;
  warning_message : string
}.

Inductive Event : Type :=
| TraceStart (module_ method_ : string)
| TraceEnd (module_ method_ : string)
| CheckTenant (tenantID : string) (r : Reply unit)
| GetRandomIntSafe (id : Z)
| GetTransactions (tenantID : string) (transactionIDs : list Z) (r : Reply DataResult)
| LogWarning (entry : WarningEntry)
| GetCollection (tenantID collection : string) (r : Reply unit)
| Database (tenantID collection operation : string) (r : Reply unit).

Class Collaborators (W : Type) : Type := {
  databaseUtils_checkTenant : W -> string -> W * Reply unit;
  (** [DatabaseUtils.convertToObjectID]: the value stored for an id given as a
      string, [null] when there is none; it raises on a string that is no id *)
  convertToObjectID : string -> Reply (Field string);
  (** [Utils.getRandomIntSafe()] *)
  getRandomIntSafe : W -> W * Z;
  (** [TransactionStorage.getTransactions(tenantID, { transactionIDs }, ...)] *)
  transactionStorage_getTransactions : W -> string -> list Z -> W * Reply DataResult;
  (** [new Date(timestamp).getFullYear()], [None] for [NaN], and
      [new Date().getFullYear()] *)
  getFullYear : Field Z -> option Z;
  currentYear : W -> Z;
  (** [global.database.getCollection(tenantID, name)] *)
  getCollection : W -> string -> string -> W * Reply unit;
  (** the database serves an operation on a collection, or raises *)
  database : W -> string -> string -> string -> W * Reply unit
}.

(** The state: the environment, the documents of the [transactions] collection of
    the tenant, and the trace. *)
Record St (W : Type) : Type := {
  env : W;
  transactions : list Document;
  trace : list Event
}.

Section Storage.
Context {W : Type} {C : Collaborators W}.

Definition emit (e : Event) : M (St W) unit :=
  modify (fun s => {| env := env s; transactions := transactions s;
                      trace := (trace s ++ [e])%list |}).

Definition call {A} (f : W -> W * Reply A) (ev : Reply A -> Event) : M (St W) A :=
  fun s =>
    let (w', r) := f (env s) in
    ({| env := w'; transactions := transactions s; trace := (trace s ++ [ev r])%list |},
     match r with
     | Returned a => Ok a
     | Raised e => Throw e
     end).

Definition gets {A} (f : St W -> A) : M (St W) A := fun s => (s, Ok (f s)).

(** The value of a call that returns or raises. *)
Definition lift {A} (r : Reply A) : M (St W) A :=
  match r with
  | Returned a => ret a
  | Raised e => throw e
  end.

(** Modelled from the spec: the [Logging] collaborator (utils/Logging is not part of
    the sources at hand) records the entry and returns. *)
Definition Logging_traceStart (module_ method_ : string) : M (St W) unit :=
  emit (TraceStart module_ method_).
Definition Logging_traceEnd (module_ method_ : string) : M (St W) unit :=
  emit (TraceEnd module_ method_).
Definition Logging_logWarning (e : WarningEntry) : M (St W) unit := emit (LogWarning e).

(** [TransactionStorage.getTransaction(tenantID, id)] *)
Definition getTransaction (tenantID : string) (id : Z) : M (St W) (option Transaction) :=
  transactionsMDB <- call (fun w => transactionStorage_getTransactions w tenantID [id])
                          (GetTransactions tenantID [id]) ;;
  ret (if (count transactionsMDB =? 1)%Z then nth_error (result transactionsMDB) 0
       else None).

(** ** [findAvailableID]

    The locals of the loop: [existingTransaction], and the value of the [return]
    statement inside the loop once it was reached. *)
Record FindLocals : Type := {
  existingTransaction : option Transaction;
  returned : option Z
}.

Definition findAvailableID_round (tenantID : string) (l : FindLocals)
  : M (St W) FindLocals :=
  id <- (fun s =>
           let (w', id) := getRandomIntSafe (env s) in
           ({| env := w'; transactions := transactions s;
               trace := (trace s ++ [GetRandomIntSafe id])%list |}, Ok id)) ;;
  existingTransaction <- getTransaction tenantID id ;;
  match existingTransaction with
  | Some t =>
      Logging_logWarning
        {| warning_tenantID := tenantID;
           warning_module := MODULE_NAME;
           warning_method := "_findAvailableID";
           warning_message :=
             "Transaction ID '" ++ show id ++ "' already exists, generating a new one..." |} ;;;
      ret {| existingTransaction := Some t; returned := None |}
  | None => ret {| existingTransaction := None; returned := Some id |}
  end.

(** The result is the id of the [return] inside the loop, or, after the loop,
    [undefined]. *)
Definition findAvailableID (tenantID : string) (fuel : nat) : M (St W) (option Z) :=
  Logging_traceStart MODULE_NAME "_findAvailableID" ;;;
  call (fun w => databaseUtils_checkTenant w tenantID) (CheckTenant tenantID) ;;;
  l <- do_while fuel (findAvailableID_round tenantID)
                (fun l => match existingTransaction l with
                          | Some _ => true
                          | None => false
                          end)
                {| existingTransaction := None; returned := None |} ;;
  match returned l with
  | Some id => ret (Some id)
  | None =>
      Logging_traceEnd MODULE_NAME "_findAvailableID" ;;;
      ret None
  end.

(** ** [getTransactionYears] *)

(** The order of [sort({ timestamp: 1 })]: a timestamp that is missing or [null]
    comes before every timestamp that is there. *)
Definition timestamp_lt (a b : Field Z) : bool :=
  match a, b with
  | Val x, Val y => (x <? y)%Z
  | Val _, _ => false
  | _, Val _ => true
  | _, _ => false
  end.

(** [find({}).sort({ timestamp: 1 })]: the documents by ascending timestamp, those
    with the same timestamp in the order of the collection. *)
Fixpoint insert_by_timestamp (d : Document) (l : list Document) : list Document :=
  match l with
  | [] => [d]
  | x :: l' =>
      if timestamp_lt (doc_timestamp d) (doc_timestamp x) then d :: x :: l'
      else x :: insert_by_timestamp d l'
  end.

Definition sort_by_timestamp (l : list Document) : list Document :=
  fold_right insert_by_timestamp [] l.

(** [for (let i = first; i <= last; i++) transactionYears.push(i)], in at most
    [rounds] rounds. *)
Fixpoint push_years (rounds : nat) (i last : Z) (transactionYears : list Z) : list Z :=
  match rounds with
  | O => transactionYears
  | Datatypes.S rounds' =>
      if (i <=? last)%Z
      then push_years rounds' (i + 1) last (transactionYears ++ [i])%list
      else transactionYears
  end.

Definition getTransactionYears (tenantID : string) : M (St W) (option (list Z)) :=
  Logging_traceStart MODULE_NAME "getTransactionYears" ;;;
  call (fun w => databaseUtils_checkTenant w tenantID) (CheckTenant tenantID) ;;;
  call (fun w => getCollection w tenantID "transactions")
       (GetCollection tenantID "transactions") ;;;
  call (fun w => database w tenantID "transactions" "find")
       (Database tenantID "transactions" "find") ;;;
  firstTransactionsMDB <- gets (fun s => firstn 1 (sort_by_timestamp (transactions s))) ;;
  match firstTransactionsMDB with
  | [] => ret None
  | first :: _ =>
      last <- gets (fun s => currentYear (env s)) ;;
      let transactionYears :=
        match getFullYear (doc_timestamp first) with
        | Some i => push_years (Z.to_nat (last - i + 1)) i last []
        | None => []
        end in
      Logging_traceEnd MODULE_NAME "getTransactionYears" ;;;
      ret (Some transactionYears)
  end.

(** ** [assignTransactionsToUser] and [getUnassignedTransactionsCount] *)

(** [{ field: value }] for a string. *)
Definition op_is (value : string) (f : Field string) : bool :=
  match f with
  | Val x => String.eqb x value
  | _ => false
  end.

(** [{ $and: [ { 'userID': null }, { 'tagID': tagID } ] }] *)
Definition unassigned (tagID : string) (d : Document) : bool :=
  op_is_null (doc_userID d) && op_is tagID (doc_tagID d).

(** [{ $set: { userID } }] *)
Definition set_userID (userID : Field string) (d : Document) : Document :=
  {| doc_id := doc_id d; doc_timestamp := doc_timestamp d; doc_userID := userID;
     doc_tagID := doc_tagID d |}.

Definition assignTransactionsToUser (tenantID userID tagID : string) : M (St W) unit :=
  Logging_traceStart MODULE_NAME "assignTransactionsToUser" ;;;
  call (fun w => getCollection w tenantID "transactions")
       (GetCollection tenantID "transactions") ;;;
  userID' <- lift (convertToObjectID userID) ;;
  call (fun w => database w tenantID "transactions" "updateMany")
       (Database tenantID "transactions" "updateMany") ;;;
  modify (fun s =>
            {| env := env s;
               transactions :=
                 map (fun d => if unassigned tagID d then set_userID userID' d else d)
                     (transactions s);
               trace := trace s |}) ;;;
  Logging_traceEnd MODULE_NAME "assignTransactionsToUser".

Definition getUnassignedTransactionsCount (tenantID tagID : string) : M (St W) Z :=
  Logging_traceStart MODULE_NAME "getUnassignedTransactionsCount" ;;;
  call (fun w => getCollection w tenantID "transactions")
       (GetCollection tenantID "transactions") ;;;
  call (fun w => database w tenantID "transactions" "count")
       (Database tenantID "transactions" "count") ;;;
  unassignedCount <-
    gets (fun s => Z.of_nat (List.length (filter (unassigned tagID) (transactions s)))) ;;
  Logging_traceEnd MODULE_NAME "getUnassignedTransactionsCount" ;;;
  ret unassignedCount.

End Storage.

End TransactionStorage.


(** ** A collection of transactions in memory, with a fixed sequence of random
    draws *)

Module StorageEnv.
Import OCPIPushCdrsTask TransactionStorage.

Record World : Type := {
  store : TaskEnv.World;
  draws : list Z;
  year : Z
}.

Definition nextDraw (w : World) : World * Z :=
  match draws w with
  | [] => (w, 0%Z)
  | d :: ds => ({| store := store w; draws := ds; year := year w |}, d)
  end.

(** Timestamps in seconds since 1970, years of 365 days. *)
Definition yearOf (timestamp : Field Z) : option Z :=
  match timestamp with
  | Val t => Some (1970 + t / 31536000)%Z
  | Null => Some 1970%Z
  | Missing => None
  end.

#[global] Instance collaborators : Collaborators World := {|
  databaseUtils_checkTenant := fun w _ => (w, Returned tt);
  convertToObjectID := fun id => Returned (if String.eqb id "" then Null else Val id);
  getRandomIntSafe := nextDraw;
  transactionStorage_getTransactions :=
    fun w _ ids => (w, snd (TaskEnv.getTransactions (store w) ids));
  getFullYear := yearOf;
  currentYear := year;
  getCollection := fun w _ _ => (w, Returned tt);
  database := fun w _ _ _ => (w, Returned tt)
|}.

(** The transactions 1 to 4 are there; the draws hit 2 and 4 before 7. *)
Definition world0 : World :=
  {| store := TaskEnv.world1; draws := [2; 4; 7; 1]%Z; year := 2021 |}.

Definition doc (id : Z) (timestamp : Field Z) (userID : Field string) (tagID : string)
  : Document :=
  {| doc_id := id; doc_timestamp := timestamp; doc_userID := userID;
     doc_tagID := Val tagID |}.

Definition documents : list Document :=
  [ doc 1 (Val 1580000000) Null "TAG1";
    doc 2 (Val 1550000000) (Val "U9") "TAG1";
    doc 3 (Val 1600000000) Missing "TAG2";
    doc 4 (Val 1560000000) Missing "TAG1" ]%Z.

Definition start (w : World) : St World :=
  {| env := w; transactions := documents; trace := [] |}.

End StorageEnv.


(* ================================================================== *)
(** * Vocabulary of the properties *)
(* ================================================================== *)

Unset Implicit Arguments.
Open Scope list_scope.

(** A state that carries a trace of events. *)
Class Traced (S Ev : Type) : Type := trace_of : S -> list Ev.

Section Computations.
Context {S : Type}.

(** A computation that cannot be cut short by the iteration budget. *)
Definition halts {A} (m : M S A) : Prop := forall s, snd (m s) <> OutOfFuel.

(** [m] only appends to the trace, and each event it appends satisfies [p]. *)
Definition only {Ev} {T : Traced S Ev} (p : Ev -> Prop) {A} (m : M S A) : Prop :=
  forall s, exists evs, trace_of (fst (m s)) = trace_of s ++ evs /\ Forall p evs.

(** A computation that always completes: it neither throws nor runs out of budget. *)
Definition returns {A} (m : M S A) : Prop := forall s, exists a, snd (m s) = Ok a.

(** [m] only appends to the trace, and the events it appends, taken together,
    satisfy [P]. *)
Definition appends {Ev} {T : Traced S Ev} (P : list Ev -> Prop) {A} (m : M S A) : Prop :=
  forall s, exists evs, trace_of (fst (m s)) = trace_of s ++ evs /\ P evs.

End Computations.


(** ** The CDR-push scheduled task *)

Section TaskVocabulary.
Import OCPIPushCdrsTask.
Context {W : Type} {C : Collaborators W}.

#[global] Instance task_traced : Traced (St W) Event := @trace W.

Inductive LockEvent : Type :=
| Acquired (l : Lock)
| Released (l : Lock).

Definition lock_event (e : Event) : list LockEvent :=
  match e with
  | AcquireOCPIPushCpoCdrsLock _ (Returned (Some l)) => [Acquired l]
  | AcquireOCPIPushCdrLock _ _ (Returned (Some l)) => [Acquired l]
  | Release l _ => [Released l]
  | _ => []
  end.

(** The lock events of a trace: locks obtained and releases requested. *)
Definition lock_events (evs : list Event) : list LockEvent := flat_map lock_event evs.

(** A sequence of locks each released right after it was taken. *)
Inductive Brackets : list LockEvent -> Prop :=
| Brackets_nil : Brackets []
| Brackets_cons (l : Lock) (rest : list LockEvent) :
    Brackets rest -> Brackets (Acquired l :: Released l :: rest).

(** The lock events of a run: none, or the tenant-wide lock, the per-transaction
    brackets, and the release of the tenant-wide lock at the end. *)
Definition RunShape (le : list LockEvent) : Prop :=
  le = [] \/ exists (L : Lock) (inner : list LockEvent),
               Brackets inner /\ le = Acquired L :: inner ++ [Released L].

Definition Lock_eq_dec (a b : Lock) : {a = b} + {a <> b}.
Proof. decide equality; apply string_dec. Defined.

Definition acquisitions (l : Lock) (le : list LockEvent) : nat :=
  List.length (filter (fun e => match e with
                                | Acquired l' => if Lock_eq_dec l l' then true else false
                                | Released _ => false
                                end) le).

Definition releases (l : Lock) (le : list LockEvent) : nat :=
  List.length (filter (fun e => match e with
                                | Released l' => if Lock_eq_dec l l' then true else false
                                | Acquired _ => false
                                end) le).

(** An event that takes or releases no lock. *)
Definition no_lock (e : Event) : Prop := lock_event e = [].

(** An event other than a call of the finalize operation on a transaction that has a
    CDR. *)
Definition finalizes_without_cdr (e : Event) : Prop :=
  match e with
  | ProcessTransactionRoaming t _ _ => has_cdr t = false
  | _ => True
  end.

(** The transactions for which a per-transaction lock is requested. *)
Definition candidate_of (e : Event) : list Z :=
  match e with
  | AcquireOCPIPushCdrLock _ id _ => [id]
  | _ => []
  end.

(** The candidates of a run, in the order of their rounds. *)
Definition candidates_of (evs : list Event) : list Z := flat_map candidate_of evs.

(** The three conditions on a stored document: it has a field [stop], it has a field
    [ocpiData], and it has no CDR, the path [ocpiData.cdr] being missing or holding
    [null]. *)
Definition finished (d : TransactionMDB) : bool :=
  match stop d with
  | Missing => false
  | _ => true
  end.

Definition has_roaming_data (d : TransactionMDB) : bool :=
  match mdb_ocpiData d with
  | Missing => false
  | _ => true
  end.

Definition without_cdr (d : TransactionMDB) : bool :=
  match mdb_ocpiData d with
  | Val o => match mdb_cdr o with
             | Val _ => false
             | _ => true
             end
  | _ => true
  end.

(** The same conditions on a transaction as the program holds it: it was stopped,
    it has roaming data, and its roaming data have no CDR. *)
Definition awaits_cdr (t : TransactionToSave) : bool :=
  match transaction_stop t, ocpiData (transaction t) with
  | Some _, Some d => match cdr d with
                      | Some _ => false
                      | None => true
                      end
  | _, _ => false
  end.

(** An event that requests no lock for a transaction outside [ids]. *)
Definition within (ids : list Z) (e : Event) : Prop :=
  forall id, In id (candidate_of e) -> In id ids.

(** What a call of the protected work of a round raised, if it raised. *)
Definition failure_of (e : Event) : option Exn :=
  match e with
  | GetTransactions _ _ (Raised x) => Some x
  | GetChargingStation _ _ (Raised x) => Some x
  | GetTag _ _ (Raised x) => Some x
  | ProcessTransactionRoaming _ _ (Raised x) => Some x
  | CheckTenant _ (Raised x) => Some x
  | FindOneAndUpdate _ _ _ (Raised x) => Some x
  | _ => None
  end.

(** The error entry that the candidate loop writes when the work on transaction [id]
    threw [error]. *)
Definition failure_entry (tenant : Tenant) (id : Z) (error : Exn) : LogEntry :=
  {| log_tenantID := tenant_id tenant;
     log_action := OCPI_PUSH_CDRS;
     log_actionOnUser := None;
     log_module := MODULE_NAME;
     log_method := "processTenant";
     log_message := ("Failed to pushed the CDR of the Transaction ID '"
                     ++ show id ++ "' to OCPI")%string;
     log_detailedMessages := DetailsError error id |}.

(** In [evs], the event that follows a call that raised is the error entry of the
    transaction, with what the call raised. *)
Fixpoint failures_logged (tenant : Tenant) (id : Z) (evs : list Event) : Prop :=
  match evs with
  | [] => True
  | e :: rest =>
      match failure_of e with
      | Some error => exists rest', rest = Log LError (failure_entry tenant id error) :: rest'
      | None => True
      end /\ failures_logged tenant id rest
  end.

(** An event other than a write of the OCPI data of a transaction. *)
Definition no_write (e : Event) : Prop :=
  match e with
  | FindOneAndUpdate _ _ _ _ => False
  | _ => True
  end.

(** In [evs], each write of the OCPI data of a transaction comes right after the
    check of the tenant that follows a call of the finalize operation that returned,
    and writes under the id of the transaction this call returned the OCPI data it
    returned. *)
Definition writes_roaming_result (evs : list Event) : Prop :=
  forall before tenantID id d r after,
    evs = before ++ FindOneAndUpdate tenantID id d r :: after ->
    exists before' t t',
      before = before' ++ [ ProcessTransactionRoaming t END (Returned t');
                            TraceStart STORAGE_MODULE_NAME "saveTransactionOcpiData";
                            CheckTenant tenantID (Returned tt) ]
      /\ has_cdr t = false
      /\ id = transaction_id t'
      /\ d = ocpiData t'.

End TaskVocabulary.


(** ** The eMSP client *)

Section ClientVocabulary.
Import EmspOCPIClient.
Context {W : Type} {C : Collaborators W}.

#[global] Instance client_traced : Traced (St W) Event := @trace W.

Inductive PullFlow : Type :=
| Locations (company : Company)
| Sessions
| Cdrs.

Inductive Payload : Type :=
| LocationsData (l : list OCPILocation)
| SessionsData (l : list OCPISession)
| CdrsData (l : list OCPICdr).

(** A page that was fetched: its address, what it carried, and its link header. *)
Record Page : Type := { page_url : string; page_data : Payload; page_link : option string }.

Definition page_of (e : Event) : list Page :=
  match e with
  | GetLocations u _ (Returned r) =>
      [{| page_url := u; page_data := LocationsData (data r); page_link := link r |}]
  | GetSessions u _ (Returned r) =>
      [{| page_url := u; page_data := SessionsData (data r); page_link := link r |}]
  | GetCdrs u _ (Returned r) =>
      [{| page_url := u; page_data := CdrsData (data r); page_link := link r |}]
  | _ => []
  end.

Definition pages_of (evs : list Event) : list Page := flat_map page_of evs.

(** The round of the page loop of a flow. *)
Definition round (f : PullFlow) : PullLocals -> M (St W) PullLocals :=
  match f with
  | Locations company => pullLocations_round company
  | Sessions => pullSessions_round
  | Cdrs => pullCdrs_round
  end.

(** What the partner answers to the request of a flow, as a page. *)
Definition answer (f : PullFlow) (w : W) (u auth : string) : Reply Page :=
  match f with
  | Locations _ =>
      match snd (axios_get_locations w u auth) with
      | Returned r =>
          Returned {| page_url := u; page_data := LocationsData (data r); page_link := link r |}
      | Raised e => Raised e
      end
  | Sessions =>
      match snd (axios_get_sessions w u auth) with
      | Returned r =>
          Returned {| page_url := u; page_data := SessionsData (data r); page_link := link r |}
      | Raised e => Raised e
      end
  | Cdrs =>
      match snd (axios_get_cdrs w u auth) with
      | Returned r =>
          Returned {| page_url := u; page_data := CdrsData (data r); page_link := link r |}
      | Raised e => Raised e
      end
  end.

(** The partner serves page [p] at its address, whenever it is asked. *)
Definition serves (f : PullFlow) (p : Page) : Prop :=
  forall w auth, answer f w (page_url p) auth = Returned p.

(** The next link of a response fetched at [u] does not lead on: there is none, it
    is empty, or it is [u] itself. *)
Definition leads_nowhere (u : string) (next : option string) : Prop :=
  next = None \/ next = Some ""%string \/ next = Some u.

(** The pages the partner serves from an address on, each reached from the one before
    by its next link, up to a page whose next link does not lead on. *)
Inductive Chain (f : PullFlow) : string -> list Page -> Prop :=
| Chain_last (p : Page) :
    serves f p -> leads_nowhere (page_url p) (getNextUrl (page_link p)) ->
    Chain f (page_url p) [p]
| Chain_next (p : Page) (u' : string) (rest : list Page) :
    serves f p ->
    getNextUrl (page_link p) = Some u' -> u' <> ""%string -> u' <> page_url p ->
    Chain f u' rest ->
    Chain f (page_url p) (p :: rest).

(** An event that fetches no page. *)
Definition no_page (e : Event) : Prop := page_of e = [].



Inductive Flow : Type :=
| PullLocations (partial : bool)
| PullSessions
| PullCdrs
| PushTokens.

Definition run (f : Flow) (fuel : nat) : M (St W) OCPIResult :=
  match f with
  | PullLocations partial => pullLocations partial fuel
  | PullSessions => pullSessions fuel
  | PullCdrs => pullCdrs fuel
  | PushTokens => pushTokens fuel
  end.

(** The flow that runs the page loop [f]. *)
Definition flow_of (f : PullFlow) (partial : bool) : Flow :=
  match f with
  | Locations _ => PullLocations partial
  | Sessions => PullSessions
  | Cdrs => PullCdrs
  end.

(** The service of the partner that a flow pulls from, and the action under which it
    asks for the address of that service. *)
Definition service_of (f : PullFlow) : string :=
  match f with
  | Locations _ => "locations"
  | Sessions => "sessions"
  | Cdrs => "cdrs"
  end%string.

Definition action_of (f : PullFlow) : ServerAction :=
  match f with
  | Locations _ => OCPI_PULL_LOCATIONS
  | Sessions => OCPI_PULL_SESSIONS
  | Cdrs => OCPI_PULL_CDRS
  end.

(** The address of the first request of a flow, for the address [base] of the service
    and the clock of [w]. *)
Definition first_url (f : PullFlow) (partial : bool) (w : W) (base : string) : string :=
  match f with
  | Locations _ =>
      if partial then base ++ "?date_from=" ++ momentFrom w 1 ++ "&limit=5"
      else base ++ "?limit=5"
  | Sessions => base ++ "?date_from=" ++ momentFrom w 2 ++ "&limit=10"
  | Cdrs => base ++ "?date_from=" ++ momentFrom w 2 ++ "&limit=10"
  end%string.

(** What the flow needs from the storage before its first request: [pullLocations]
    fetches or creates the company of the endpoint and fetches its sites. *)
Definition storage_serves (f : PullFlow) : Prop :=
  match f with
  | Locations _ =>
      (forall w t id, exists w' c, getCompany w t id = (w', Returned c))
      /\ (forall w t c, exists w', saveCompany w t c = (w', Returned tt))
      /\ (forall w op, snd (database w op) = Returned tt)
  | Sessions | Cdrs => True
  end.

Definition returned {A} (r : Reply A) : bool :=
  match r with
  | Returned _ => true
  | Raised _ => false
  end.

(** The item an event completes in a flow: its id, and whether it succeeded. *)
Definition outcome_of (f : Flow) (e : Event) : list (string * bool) :=
  match f, e with
  | PullLocations _, ProcessLocation l r => [(location_id l, returned r)]
  | PullSessions, UpdateTransaction x r => [(session_id x, returned r)]
  | PullCdrs, ProcessCdr c r => [(cdr_id c, returned r)]
  | PushTokens, PushToken t r => [(uid t, returned r)]
  | _, _ => []
  end.

Definition outcomes (f : Flow) (evs : list Event) : list (string * bool) :=
  flat_map (outcome_of f) evs.

(** The ids of the items a page brings to a flow. *)
Definition delivered_by (f : Flow) (e : Event) : list string :=
  match f, e with
  | PullLocations _, GetLocations _ _ (Returned r) => map location_id (data r)
  | PullSessions, GetSessions _ _ (Returned r) => map session_id (data r)
  | PullCdrs, GetCdrs _ _ (Returned r) => map cdr_id (data r)
  | PushTokens, GetTokens _ _ (Returned page) => map uid (tokens_result page)
  | _, _ => []
  end.

Definition delivered (f : Flow) (evs : list Event) : list string :=
  flat_map (delivered_by f) evs.

Definition succeeded (o : list (string * bool)) : Z :=
  Z.of_nat (List.length (filter (fun x => snd x) o)).

Definition failed (o : list (string * bool)) : Z :=
  Z.of_nat (List.length (filter (fun x => negb (snd x)) o)).

Definition failed_ids (o : list (string * bool)) : list string :=
  map fst (filter (fun x => negb (snd x)) o).

(** The worker of [pushTokens] counts [total] and keeps the ids of the failures; the
    workers of the pull flows do neither. *)
Definition counts_total (f : Flow) : bool :=
  match f with
  | PushTokens => true
  | _ => false
  end.

(** [r'] is [r] after the items with outcomes [o]. *)
Record tally (f : Flow) (o : list (string * bool)) (r r' : OCPIResult) : Prop := {
  tally_success : success r' = (success r + succeeded o)%Z;
  tally_failure : failure r' = (failure r + failed o)%Z;
  tally_total : total r' = if counts_total f
                           then (total r + Z.of_nat (List.length o))%Z
                           else total r;
  tally_ids : objectIDsInFailure r' =
              if counts_total f
              then option_map (fun ids => ids ++ failed_ids o) (objectIDsInFailure r)
              else objectIDsInFailure r
}.

(** The events [evs] complete the items they bring, each once, and take [r] to
    [r']. *)
Definition accounts (f : Flow) (evs : list Event) (r r' : OCPIResult) : Prop :=
  Permutation (map fst (outcomes f evs)) (delivered f evs)
  /\ tally f (outcomes f evs) r r'.

(** An event that neither completes an item of the flow nor brings items to it. *)
Definition silent (f : Flow) (e : Event) : Prop :=
  outcome_of f e = [] /\ delivered_by f e = [].

(** [m], started on the summary [r], completes the items with ids [ids], each once,
    in some order. *)
Definition completes (f : Flow) (ids : list string) (r : OCPIResult)
           (m : M (St W) OCPIResult) : Prop :=
  forall s, exists s' r' evs,
      m s = (s', Ok r')
      /\ trace s' = trace s ++ evs
      /\ Permutation (map fst (outcomes f evs)) ids
      /\ delivered f evs = []
      /\ tally f (outcomes f evs) r r'.

(** What a call to one of the services a flow depends on raised, if it raised: the
    requests for a page to the partner and to the token store, the storage of the
    company and of the endpoint, and the database. *)
Definition service_failure (e : Event) : option Exn :=
  match e with
  | GetLocations _ _ (Raised x) => Some x
  | GetSessions _ _ (Raised x) => Some x
  | GetCdrs _ _ (Raised x) => Some x
  | GetTokens _ _ (Raised x) => Some x
  | GetCompany _ (Raised x) => Some x
  | SaveCompany _ (Raised x) => Some x
  | SaveOcpiEndpoint _ (Raised x) => Some x
  | Database _ (Raised x) => Some x
  | _ => None
  end.

(** An event other than the entry that reports the summary of a flow. *)
Definition no_summary (e : Event) : Prop :=
  match e with
  | LogOcpiResult _ _ _ _ _ => False
  | _ => True
  end.

(** [m] reports no summary, and when it throws, its last event is the call to a
    service that raised what [m] throws. *)
Definition fails_in_service {A} (m : M (St W) A) : Prop :=
  forall s, exists evs,
    trace (fst (m s)) = trace s ++ evs
    /\ Forall no_summary evs
    /\ forall e, snd (m s) = Throw e ->
         exists before ev, evs = before ++ [ev] /\ service_failure ev = Some e.

(** When [m] throws, it has reported no summary, and its last event is the call to a
    service that raised what [m] throws. *)
Definition throws_in_service {A} (m : M (St W) A) : Prop :=
  forall s, exists evs,
    trace (fst (m s)) = trace s ++ evs
    /\ forall e, snd (m s) = Throw e ->
         Forall no_summary evs
         /\ exists before ev, evs = before ++ [ev] /\ service_failure ev = Some e.

(** The charging stations a run saves, the ones it deletes, the ones it looks up by
    location and EVSE uid, and the ones these look-ups find. *)
Definition saves (evs : list Event) : list ChargingStation :=
  flat_map (fun e => match e with
                     | SaveChargingStation c _ => [c]
                     | _ => []
                     end) evs.

Definition deletions (evs : list Event) : list string :=
  flat_map (fun e => match e with
                     | DeleteChargingStation id _ => [id]
                     | _ => []
                     end) evs.

Definition lookups (evs : list Event) : list (string * string) :=
  flat_map (fun e => match e with
                     | GetChargingStationByOcpiLocationUid locationID evseUid _ =>
                         [(locationID, evseUid)]
                     | _ => []
                     end) evs.

Definition found (evs : list Event) : list string :=
  flat_map (fun e => match e with
                     | GetChargingStationByOcpiLocationUid _ _ (Returned (Some c)) =>
                         [chargingStation_id c]
                     | _ => []
                     end) evs.

(** An event other than the saving of a charging station. *)
Definition no_station_save (e : Event) : Prop :=
  match e with
  | SaveChargingStation _ _ => False
  | _ => True
  end.

Definition removed (evse : OCPIEvse) : bool :=
  String.eqb (evse_status evse) OCPIEvseStatus_REMOVED.

(** The charging station of an EVSE, attached to the site area of its location. *)
Definition station_of (location : OCPILocation) (siteArea : SiteArea) (evse : OCPIEvse)
  : ChargingStation :=
  {| chargingStation_id := chargingStation_id (convertEvseToChargingStation evse location);
     chargingStation_companyID := option_map site_companyID (siteArea_site siteArea);
     chargingStation_siteID := siteArea_siteID siteArea;
     chargingStation_siteAreaID := siteArea_id siteArea;
     chargingStation_ocpiData :=
       chargingStation_ocpiData (convertEvseToChargingStation evse location) |}.

(** What the round of an EVSE is to save, and what it is to look up. *)
Definition saved_as (location : OCPILocation) (siteArea : SiteArea) (evse : OCPIEvse)
  : list ChargingStation :=
  if truthy (evse_uid evse) && negb (removed evse)
  then [station_of location siteArea evse]
  else [].

Definition looked_up (location : OCPILocation) (evse : OCPIEvse) : list (string * string) :=
  match evse_uid evse with
  | Some u => if truthy (Some u) && removed evse then [(location_id location, u)] else []
  | None => []
  end.

(** The requests to the token store, each with the number of tokens it skips. *)
Definition token_request (e : Event) : list Z :=
  match e with
  | GetTokens _ skip _ => [skip]
  | _ => []
  end.

Definition token_requests (evs : list Event) : list Z := flat_map token_request evs.

(** An event other than a request to the token store. *)
Definition no_token_request (e : Event) : Prop := token_request e = [].

(** The page of [limit] tokens of [all] that comes after the first [skip]. *)
Definition slice (all : list OCPIToken) (skip limit : Z) : list OCPIToken :=
  firstn (Z.to_nat limit) (skipn (Z.to_nat skip) all).

(** The token store holds the tokens [all] and hands them out page by page, whenever
    it is asked. *)
Definition serves_tokens (all : list OCPIToken) : Prop :=
  forall w tenant skip, exists w' n,
    getTokens w tenant DB_RECORD_COUNT_DEFAULT skip =
    (w', Returned {| tokens_count := n;
                     tokens_result := slice all skip DB_RECORD_COUNT_DEFAULT |}).

(** The number of pages of [d] items that [n] items fill, the last one maybe in
    part. *)
Definition page_count (n d : nat) : nat :=
  match n with
  | O => O
  | Datatypes.S m => Datatypes.S (m / d)
  end.

Definition of_company (company : Company) (x : Site) : bool :=
  String.eqb (site_companyID x) (company_id company).

Definition named (name : string) (x : Site) : bool := String.eqb (site_name x) name.

(** The site areas of the site [siteID] with the name [name] that a query fetches. *)
Definition keyed (siteID : option string) (name : string) (a : SiteArea) : bool :=
  option_string_eqb (siteArea_siteID a) siteID && String.eqb (siteArea_name a) name
  && negb (siteArea_issuer a).

Definition locationName_of (site : Site) (location : OCPILocation) : string :=
  (site_name site ++ OCPI_SEPARATOR ++ location_id location)%string.

(** The state after the locations [l] were processed one after the other. *)
Fixpoint process_all (company : Company) (l : list OCPILocation) (s : St W) : St W :=
  match l with
  | [] => s
  | location :: l' => process_all company l' (fst (processLocation location company s))
  end.

(** The start of a run of [pullLocations]: the working set of sites is fetched. *)
Definition refresh (company : Company) : M (St W) unit :=
  sites <- SiteStorage_getSites (company_id company) ;;
  modify (fun s => set_existingSites s sites).

(** [m] leaves the client and the site collections as they are. *)
Definition keeps {A} (m : M (St W) A) : Prop :=
  forall s, this (fst (m s)) = this s
            /\ sites (fst (m s)) = sites s
            /\ siteAreas (fst (m s)) = siteAreas s
            /\ existingSites (fst (m s)) = existingSites s.

(** The site of the location is in the working set and its site area is stored. *)
Definition settled (location : OCPILocation) (s : St W) : Prop :=
  exists site,
    find (named (siteName_of (this s) location)) (existingSites s) = Some site
    /\ filter (keyed (site_id site) (locationName_of site location)) (siteAreas s) <> [].

End ClientVocabulary.


(** ** Runs on the in-memory environment of the client *)

Section ExampleVocabulary.
Import EmspOCPIClient ClientEnv.


(** The summary that C2 describes, for a run that completed the items [o]. *)
Definition described_summary (o : list (string * bool)) (r : OCPIResult) : Prop :=
  total r = (success r + failure r)%Z
  /\ total r = Z.of_nat (List.length o)
  /\ exists ids, objectIDsInFailure r = Some ids
                 /\ NoDup ids
                 /\ forall x, In x ids <-> In x (failed_ids o).

Definition page (u : string) (r : Response OCPISession) : Page :=
  {| page_url := u; page_data := SessionsData (data r); page_link := link r |}.

Definition tokens_summary : OCPIResult :=
  {| success := 2; failure := 1; total := 3;
     logs := ["Failed to update Token ID 'T2': Request failed with status code 500"];
     objectIDsInFailure := Some ["T2"] |}.

End ExampleVocabulary.


(** ** The remote commands of the eMSP client *)

Section CommandVocabulary.
Import EmspOCPIClient RemoteCommands.
Context {W : Type} {C : RemoteCommands.Collaborators W}.

#[global] Instance command_traced : Traced (RemoteCommands.St W) RemoteCommands.Event :=
  @RemoteCommands.trace W.

(** A tag a start command can be sent for: issued by this organisation, active, and
    of a user of this organisation. *)
Definition usable (tag : Tag) : bool :=
  tag_issuer tag && tag_active tag
  && match tag_user tag with
     | Some user => user_issuer user
     | None => false
     end.

(** The OCPI session of a transaction. *)
Definition session_of (transaction : RemoteCommands.Transaction) : option OCPISession :=
  match RemoteCommands.ocpiData transaction with
  | Some d => OCPIPushCdrsTask.session d
  | None => None
  end.

(** A transaction a stop command can be sent for: of this organisation, with an OCPI
    session. *)
Definition stoppable (transaction : RemoteCommands.Transaction) : bool :=
  transaction_issuer transaction
  && match session_of transaction with
     | Some _ => true
     | None => false
     end.

(** The commands a run sent to the partner. *)
Definition commands_sent (evs : list RemoteCommands.Event) : list RemoteCommands.Event :=
  filter (fun e => match e with
                   | PostStart _ _ _ _ => true
                   | PostStop _ _ _ _ => true
                   | _ => false
                   end) evs.

End CommandVocabulary.


(** ** The migration of the user settings *)

Section MigrationVocabulary.
Import MigrateUserSettingsTask.
Context {W : Type} {C : MigrateUserSettingsTask.Collaborators W}.

#[global] Instance migration_traced
  : Traced (MigrateUserSettingsTask.St W) MigrateUserSettingsTask.Event :=
  @MigrateUserSettingsTask.trace W.

(** The tenants whose user settings a run asks for, those it finds without user
    settings, and those it saves user settings for. *)
Definition asked (evs : list MigrateUserSettingsTask.Event) : list string :=
  flat_map (fun e => match e with
                     | GetUserSettings t _ => [t]
                     | _ => []
                     end) evs.

Definition found_without (evs : list MigrateUserSettingsTask.Event) : list string :=
  flat_map (fun e => match e with
                     | GetUserSettings t (Returned None) => [t]
                     | _ => []
                     end) evs.

Definition saved_for (evs : list MigrateUserSettingsTask.Event) : list string :=
  flat_map (fun e => match e with
                     | SaveSettings t _ _ => [t]
                     | _ => []
                     end) evs.

(** An event that saves no settings other than the initial user settings: automatic
    activation of accounts. *)
Definition saves_initial_settings (e : MigrateUserSettingsTask.Event) : Prop :=
  match e with
  | SaveSettings _ u _ =>
      identifier u = TechnicalSettingsType_USER
      /\ content_type (content u) = UserSettingsContentType_USER
      /\ user_autoAccountActivation (content u) = true
  | _ => True
  end.

(** An event other than the listing of the tenants. *)
Definition no_listing (e : MigrateUserSettingsTask.Event) : Prop :=
  match e with
  | GetTenants _ => False
  | _ => True
  end.

(** The tenant has user settings: the storage answers with them. *)
Definition has_user_settings (w : W) (tenantID : string) : Prop :=
  exists w' u, settingStorage_getUserSettings w tenantID = (w', Returned (Some u)).

(** The storage of settings keeps what it has: a tenant that has user settings has
    them after any call, and has them after a call that saved them. *)
Record keeps_settings : Prop := {
  kept_by_list : forall w w' r,
      tenantStorage_getTenants w = (w', r) ->
      forall t', has_user_settings w t' -> has_user_settings w' t';
  kept_by_get : forall w t w' r,
      settingStorage_getUserSettings w t = (w', r) ->
      forall t', has_user_settings w t' -> has_user_settings w' t';
  kept_by_save : forall w t u w' r,
      settingStorage_saveSettings w t u = (w', r) ->
      forall t', has_user_settings w t' -> has_user_settings w' t';
  set_by_save : forall w t u w',
      settingStorage_saveSettings w t u = (w', Returned tt) ->
      has_user_settings w' t
}.

End MigrationVocabulary.


(** ** The storage of transactions *)

Section StorageVocabulary.
Import OCPIPushCdrsTask TransactionStorage.
Context {W : Type} {C : TransactionStorage.Collaborators W}.

#[global] Instance storage_traced
  : Traced (TransactionStorage.St W) TransactionStorage.Event :=
  @TransactionStorage.trace W.

(** The transaction that an answer of the storage holds: the first one, when the
    answer counts exactly one. *)
Definition held (answer : DataResult) : option Transaction :=
  if (count answer =? 1)%Z then nth_error (result answer) 0 else None.

(** The warning about a drawn id that is taken. *)
Definition collision_warning (tenantID : string) (id : Z) : WarningEntry :=
  {| warning_tenantID := tenantID;
     warning_module := TransactionStorage.MODULE_NAME;
     warning_method := "_findAvailableID";
     warning_message :=
       ("Transaction ID '" ++ show id ++ "' already exists, generating a new one...")%string |}.

(** The events of a round that draws an id, finds it taken, and warns. *)
Definition collision (tenantID : string) (c : Z * DataResult)
  : list TransactionStorage.Event :=
  [ GetRandomIntSafe (fst c);
    TransactionStorage.GetTransactions tenantID [fst c] (Returned (snd c));
    LogWarning (collision_warning tenantID (fst c)) ].

Definition warnings (evs : list TransactionStorage.Event) : list WarningEntry :=
  flat_map (fun e => match e with
                     | LogWarning w => [w]
                     | _ => []
                     end) evs.

Definition no_trace_end (e : TransactionStorage.Event) : Prop :=
  match e with
  | TransactionStorage.TraceEnd _ _ => False
  | _ => True
  end.

(** From the environment [w] on, the ids drawn are the ids [taken], each of which
    the storage finds, and then the id [free], which it does not find. *)
Inductive finds (tenantID : string) : W -> list Z -> Z -> Prop :=
| finds_free (w w1 w2 : W) (id : Z) (answer : DataResult) :
    getRandomIntSafe w = (w1, id) ->
    TransactionStorage.transactionStorage_getTransactions w1 tenantID [id]
    = (w2, Returned answer) ->
    held answer = None ->
    finds tenantID w [] id
| finds_taken (w w1 w2 : W) (id : Z) (answer : DataResult) (taken : list Z) (free : Z) :
    getRandomIntSafe w = (w1, id) ->
    TransactionStorage.transactionStorage_getTransactions w1 tenantID [id]
    = (w2, Returned answer) ->
    held answer <> None ->
    finds tenantID w2 taken free ->
    finds tenantID w (id :: taken) free.

(** [a] is not after [b] in the order of the sort by timestamp. *)
Definition not_after (a b : Document) : Prop :=
  timestamp_lt (doc_timestamp b) (doc_timestamp a) = false.



End StorageVocabulary.

(* ================================================================== *)
(** * Reasoning about runs *)
(* ================================================================== *)

Section MonadFacts.
Context {S : Type}.

Lemma halts_ret {A} (a : A) : halts (S := S) (ret a).
Proof. intros s; simpl; discriminate. Qed.

Lemma halts_throw {A} (e : Exn) : halts (S := S) (throw (A := A) e).
Proof. intros s; simpl; discriminate. Qed.

Lemma halts_modify (f : S -> S) : halts (modify f).
Proof. intros s; simpl; discriminate. Qed.

Lemma halts_bind {A B} (m : M S A) (k : A -> M S B) :
  halts m -> (forall a, halts (k a)) -> halts (bind m k).
Proof.
  intros Hm Hk s. unfold bind. specialize (Hm s).
  destruct (m s) as [s' [a | e | ]]; simpl in *.
  - apply Hk.
  - discriminate.
  - congruence.
Qed.

Lemma halts_try_catch {A} (m : M S A) (h : Exn -> M S A) :
  halts m -> (forall e, halts (h e)) -> halts (try_catch m h).
Proof.
  intros Hm Hh s. unfold try_catch. specialize (Hm s).
  destruct (m s) as [s' [a | e | ]]; simpl in *.
  - discriminate.
  - apply Hh.
  - congruence.
Qed.

Lemma halts_try_finally {A} (m : M S A) (f : M S unit) :
  halts m -> halts f -> halts (try_finally m f).
Proof.
  intros Hm Hf s. unfold try_finally. specialize (Hm s).
  destruct (m s) as [s' [a | e | ]]; simpl in *; try congruence;
    specialize (Hf s'); destruct (f s') as [s'' [[] | e' | ]]; simpl in *;
    congruence.
Qed.

Lemma halts_for_of {A} (l : list A) (body : A -> M S unit) :
  (forall x, halts (body x)) -> halts (for_of l body).
Proof.
  intros Hb. induction l as [| x l IH]; simpl.
  - apply halts_ret.
  - apply halts_bind; auto.
Qed.

Section Only.
Context {Ev : Type} {T : Traced S Ev} (p : Ev -> Prop).

Lemma only_ret {A} (a : A) : only p (ret a).
Proof. intros s. exists []. simpl. rewrite app_nil_r. auto. Qed.

Lemma only_throw {A} (e : Exn) : only p (throw (A := A) e).
Proof. intros s. exists []. simpl. rewrite app_nil_r. auto. Qed.

Lemma only_bind {A B} (m : M S A) (k : A -> M S B) :
  only p m -> (forall a, only p (k a)) -> only p (bind m k).
Proof.
  intros Hm Hk s. unfold bind. destruct (Hm s) as (e1 & T1 & F1).
  destruct (m s) as [s' [a | e | ]]; simpl in *.
  - destruct (Hk a s') as (e2 & T2 & F2). exists (e1 ++ e2).
    rewrite T2, T1, app_assoc. split; auto. apply Forall_app; auto.
  - exists e1; auto.
  - exists e1; auto.
Qed.

Lemma only_try_catch {A} (m : M S A) (h : Exn -> M S A) :
  only p m -> (forall e, only p (h e)) -> only p (try_catch m h).
Proof.
  intros Hm Hh s. unfold try_catch. destruct (Hm s) as (e1 & T1 & F1).
  destruct (m s) as [s' [a | e | ]]; simpl in *.
  - exists e1; auto.
  - destruct (Hh e s') as (e2 & T2 & F2). exists (e1 ++ e2).
    rewrite T2, T1, app_assoc. split; auto. apply Forall_app; auto.
  - exists e1; auto.
Qed.

Lemma only_try_finally {A} (m : M S A) (f : M S unit) :
  only p m -> only p f -> only p (try_finally m f).
Proof.
  intros Hm Hf s. unfold try_finally. destruct (Hm s) as (e1 & T1 & F1).
  destruct (m s) as [s' [a | e | ]]; simpl in *.
  3: exists e1; auto.
  all: destruct (Hf s') as (e2 & T2 & F2);
    destruct (f s') as [s'' [[] | e' | ]]; simpl in *;
    exists (e1 ++ e2); rewrite T2, T1, app_assoc; split; auto; apply Forall_app; auto.
Qed.

Lemma only_for_of_In {A} (l : list A) (body : A -> M S unit) :
  (forall x, In x l -> only p (body x)) -> only p (for_of l body).
Proof.
  induction l as [| x l IH]; intros Hb; simpl.
  - apply only_ret.
  - apply only_bind.
    + apply Hb. left; reflexivity.
    + intros _. apply IH. intros y Hy. apply Hb. right; assumption.
Qed.

Lemma only_for_of {A} (l : list A) (body : A -> M S unit) :
  (forall x, only p (body x)) -> only p (for_of l body).
Proof. intros Hb. apply only_for_of_In. intros x _. apply Hb. Qed.

Lemma only_weaken (q : Ev -> Prop) {A} (m : M S A) :
  (forall e, p e -> q e) -> only p m -> only q m.
Proof.
  intros Hpq Hm s. destruct (Hm s) as (evs & T1 & F1). exists evs. split; auto.
  eapply Forall_impl; eauto.
Qed.

End Only.

(** Properties of the appended events as a whole, for a property that holds of no
    event and of two sequences put end to end. *)
Section Appends.
Context {Ev : Type} {T : Traced S Ev} (P : list Ev -> Prop).
Hypothesis P_nil : P [].
Hypothesis P_app : forall a b, P a -> P b -> P (a ++ b).

Lemma appends_ret {A} (a : A) : appends P (ret a).
Proof. intros s. exists []. simpl. rewrite app_nil_r. auto. Qed.

Lemma appends_throw {A} (e : Exn) : appends P (throw (A := A) e).
Proof. intros s. exists []. simpl. rewrite app_nil_r. auto. Qed.

Lemma appends_bind {A B} (m : M S A) (k : A -> M S B) :
  appends P m -> (forall a, appends P (k a)) -> appends P (bind m k).
Proof.
  intros Hm Hk s. unfold bind. destruct (Hm s) as (e1 & T1 & F1).
  destruct (m s) as [s' [a | e | ]]; simpl in *.
  - destruct (Hk a s') as (e2 & T2 & F2). exists (e1 ++ e2).
    rewrite T2, T1, app_assoc. split; auto.
  - exists e1; auto.
  - exists e1; auto.
Qed.

Lemma appends_try_catch {A} (m : M S A) (h : Exn -> M S A) :
  appends P m -> (forall e, appends P (h e)) -> appends P (try_catch m h).
Proof.
  intros Hm Hh s. unfold try_catch. destruct (Hm s) as (e1 & T1 & F1).
  destruct (m s) as [s' [a | e | ]]; simpl in *.
  - exists e1; auto.
  - destruct (Hh e s') as (e2 & T2 & F2). exists (e1 ++ e2).
    rewrite T2, T1, app_assoc. split; auto.
  - exists e1; auto.
Qed.

Lemma appends_try_finally {A} (m : M S A) (f : M S unit) :
  appends P m -> appends P f -> appends P (try_finally m f).
Proof.
  intros Hm Hf s. unfold try_finally. destruct (Hm s) as (e1 & T1 & F1).
  destruct (m s) as [s' [a | e | ]]; simpl in *.
  3: exists e1; auto.
  all: destruct (Hf s') as (e2 & T2 & F2);
    destruct (f s') as [s'' [[] | e' | ]]; simpl in *;
    exists (e1 ++ e2); rewrite T2, T1, app_assoc; split; auto.
Qed.

Lemma appends_for_of {A} (l : list A) (body : A -> M S unit) :
  (forall x, appends P (body x)) -> appends P (for_of l body).
Proof.
  intros Hb. induction l as [| x l IH]; simpl.
  - apply appends_ret.
  - apply appends_bind; auto.
Qed.

End Appends.

End MonadFacts.

(* ================================================================== *)
(** * The CDR-push scheduled task: properties *)
(* ================================================================== *)

Section TaskFacts.
Import OCPIPushCdrsTask.
Context {W : Type} {C : Collaborators W}.

Lemma only_emit_task (p : Event -> Prop) (e : Event) : p e -> only p (emit (W := W) e).
Proof. intros H s. exists [e]. simpl. auto. Qed.

Lemma only_call_task (p : Event -> Prop) {A} (f : W -> W * Reply A) (ev : Reply A -> Event) :
  (forall r, p (ev r)) -> only p (call f ev).
Proof.
  intros H s. unfold call. destruct (f (env s)) as [w' r].
  exists [ev r]. simpl. auto.
Qed.

Lemma halts_emit (e : Event) : halts (emit (W := W) e).
Proof. apply halts_modify. Qed.

Lemma halts_call {A} (f : W -> W * Reply A) (ev : Reply A -> Event) : halts (call f ev).
Proof.
  intros s. unfold call. destruct (f (env s)) as [w' [a | e]]; simpl; discriminate.
Qed.

Lemma no_lock_events evs : Forall no_lock evs -> lock_events evs = [].
Proof.
  induction 1 as [| e evs He _ IH]; simpl; auto.
  unfold no_lock in He. rewrite He. exact IH.
Qed.

Lemma lock_events_app a b : lock_events (a ++ b) = lock_events a ++ lock_events b.
Proof. apply flat_map_app. Qed.

Lemma Brackets_app a b : Brackets a -> Brackets b -> Brackets (a ++ b).
Proof. induction 1; simpl; auto. constructor; auto. Qed.

Lemma acquisitions_app l a b : acquisitions l (a ++ b) = acquisitions l a + acquisitions l b.
Proof. unfold acquisitions. rewrite filter_app, length_app. reflexivity. Qed.

Lemma releases_app l a b : releases l (a ++ b) = releases l a + releases l b.
Proof. unfold releases. rewrite filter_app, length_app. reflexivity. Qed.

Lemma Brackets_balanced le : Brackets le -> forall l, acquisitions l le = releases l le.
Proof.
  induction 1 as [| l0 rest _ IH]; intros l; auto.
  change (Acquired l0 :: Released l0 :: rest) with ([Acquired l0; Released l0] ++ rest).
  rewrite acquisitions_app, releases_app, IH.
  unfold acquisitions, releases; simpl. destruct (Lock_eq_dec l l0); reflexivity.
Qed.

Lemma RunShape_balanced le : RunShape le -> forall l, acquisitions l le = releases l le.
Proof.
  intros [-> | (L & inner & HB & ->)] l; auto.
  change (Acquired L :: inner ++ [Released L]) with ([Acquired L] ++ inner ++ [Released L]).
  rewrite !acquisitions_app, !releases_app, (Brackets_balanced _ HB l).
  unfold acquisitions, releases; simpl. destruct (Lock_eq_dec l L); simpl; lia.
Qed.

(** ** What the pieces of the task append to the trace *)

Ltac step_only :=
  match goal with
  | |- only _ (bind _ _) => apply only_bind; [ | intros ? ]
  | |- only _ (ret _) => apply only_ret
  | |- only _ (throw _) => apply only_throw
  | |- only _ (call _ _) => apply only_call_task; intros ?
  | |- only _ (emit _) => apply only_emit_task
  | |- only _ (try_catch _ _) => apply only_try_catch; [ | intros ? ]
  | |- only _ (try_finally _ _) => apply only_try_finally
  | |- only _ (match ?x with _ => _ end) => destruct x eqn:?
  end.

Ltac step_halts :=
  match goal with
  | |- halts (bind _ _) => apply halts_bind; [ | intros ? ]
  | |- halts (ret _) => apply halts_ret
  | |- halts (throw _) => apply halts_throw
  | |- halts (call _ _) => apply halts_call
  | |- halts (emit _) => apply halts_emit
  | |- halts (try_catch _ _) => apply halts_try_catch; [ | intros ? ]
  | |- halts (try_finally _ _) => apply halts_try_finally
  | |- halts (for_of _ _) => apply halts_for_of; intros ?
  | |- halts (match ?x with _ => _ end) => destruct x
  end.

Lemma halts_pushCdr_try tenant id : halts (pushCdr_try (W := W) tenant id).
Proof.
  unfold pushCdr_try, getTransaction, saveTransactionOcpiData, Logging_logError,
    Logging_logInfo, Logging_traceStart, Logging_traceEnd.
  repeat step_halts.
Qed.

Lemma halts_pushCdr tenant id : halts (pushCdr (W := W) tenant id).
Proof.
  unfold pushCdr, Logging_logError. repeat step_halts. apply halts_pushCdr_try.
Qed.

Lemma halts_pushCdrs tenant : halts (pushCdrs (W := W) tenant).
Proof.
  unfold pushCdrs, Logging_logInfo. repeat step_halts. apply halts_pushCdr.
Qed.

Lemma halts_processTenant tenant config : halts (processTenant (W := W) tenant config).
Proof.
  unfold processTenant, Logging_logActionExceptionMessage.
  repeat step_halts; apply halts_pushCdrs.
Qed.

Lemma pushCdr_try_no_lock tenant id : only no_lock (pushCdr_try (W := W) tenant id).
Proof.
  unfold pushCdr_try, getTransaction, saveTransactionOcpiData, Logging_logError,
    Logging_logInfo, Logging_traceStart, Logging_traceEnd.
  repeat step_only; reflexivity.
Qed.

(** The [finally] block that releases a lock runs once, after the protected work. *)
Lemma try_finally_release {A} (m : M (St W) A) (l : Lock) (s : St W) :
  halts m ->
  exists r,
    trace (fst (try_finally m
                 (call (fun w => lockingManager_release w l) (Release l) ;;; ret tt) s))
    = trace (fst (m s)) ++ [Release l r].
Proof.
  intros Hm. specialize (Hm s). unfold try_finally, bind, call.
  destruct (m s) as [s' [a | e | ]]; simpl in *; try congruence;
    destruct (lockingManager_release (env s') l) as [w' [b | e']]; simpl;
    eexists; reflexivity.
Qed.

Lemma pushCdr_locks tenant id (s : St W) :
  exists evs,
    trace (fst (pushCdr tenant id s)) = trace s ++ evs
    /\ (lock_events evs = [] \/ exists l, lock_events evs = [Acquired l; Released l]).
Proof.
  unfold pushCdr. unfold bind at 1. unfold call at 1.
  destruct (lockingHelper_acquireOCPIPushCdrLock (env s) (tenant_id tenant) id)
    as [w1 [[l | ] | e]] eqn:Hacq; cbv beta iota.
  - match goal with
    | |- context [try_finally ?m ?f ?s1] =>
        assert (Hm : halts m)
          by (apply halts_try_catch; [ apply halts_pushCdr_try | intros; apply halts_emit ]);
        assert (Om : only no_lock m)
          by (apply only_try_catch;
              [ apply pushCdr_try_no_lock | intros; apply only_emit_task; reflexivity ]);
        destruct (try_finally_release m l s1 Hm) as (r & Hr);
        destruct (Om s1) as (e1 & T1 & F1)
    end.
    cbv [trace_of task_traced] in T1.
    rewrite Hr, T1. cbn [trace]. rewrite <- !app_assoc.
    eexists. split; [ reflexivity | ].
    right. exists l. cbn [app]. unfold lock_events. cbn [flat_map lock_event app].
    fold (lock_events (e1 ++ [Release l r])).
    rewrite lock_events_app, (no_lock_events _ F1). reflexivity.
  - eexists; split; [ reflexivity | left; reflexivity ].
  - eexists; split; [ reflexivity | left; reflexivity ].
Qed.

Lemma for_of_pushCdr_locks tenant ids (s : St W) :
  exists evs,
    trace (fst (for_of ids (pushCdr tenant) s)) = trace s ++ evs
    /\ Brackets (lock_events evs).
Proof.
  revert s. induction ids as [| id ids IH]; intros s; simpl.
  - exists []. rewrite app_nil_r. split; [ reflexivity | constructor ].
  - unfold bind. destruct (pushCdr_locks tenant id s) as (e1 & T1 & H1).
    assert (B1 : Brackets (lock_events e1)).
    { destruct H1 as [-> | (l & ->)]; repeat constructor. }
    destruct (pushCdr tenant id s) as [s' [[] | e | ]]; simpl in *.
    + destruct (IH s') as (e2 & T2 & B2). exists (e1 ++ e2).
      rewrite T2, T1, app_assoc. split; [ reflexivity | ].
      rewrite lock_events_app. apply Brackets_app; assumption.
    + exists e1; auto.
    + exists e1; auto.
Qed.

Lemma pushCdrs_locks tenant (s : St W) :
  exists evs,
    trace (fst (pushCdrs tenant s)) = trace s ++ evs /\ Brackets (lock_events evs).
Proof.
  unfold pushCdrs. unfold bind at 1. unfold call at 1.
  destruct (database_transactions (env s) (tenant_id tenant)) as [w1 [collection | e]]; simpl.
  - destruct (isEmptyArray (pipeline collection)); simpl.
    + eexists; split; [ reflexivity | constructor ].
    + unfold bind, Logging_logInfo, emit, modify; simpl.
      match goal with
      | |- context [for_of ?ids (pushCdr tenant) ?s1] =>
          destruct (for_of_pushCdr_locks tenant ids s1) as (e2 & T2 & B2)
      end.
      rewrite T2. simpl. rewrite <- !app_assoc. eexists; split; [ reflexivity | ].
      simpl. exact B2.
  - eexists; split; [ reflexivity | constructor ].
Qed.

(** C6. In every run of [processTenant], whatever the collaborators answer and
    wherever an exception is raised, the lock events of the run are: nothing (the
    tenant-wide lock was not obtained), or the tenant-wide lock, then for each
    per-transaction lock obtained its acquisition immediately followed by its
    release, then the release of the tenant-wide lock.  In particular every lock
    handle is released as many times as it was obtained. *)
Theorem processTenant_releases_every_lock_once tenant config (s : St W) :
  exists evs,
    trace (fst (processTenant tenant config s)) = trace s ++ evs
    /\ RunShape (lock_events evs)
    /\ forall l, acquisitions l (lock_events evs) = releases l (lock_events evs).
Proof.
  assert (H : exists evs,
             trace (fst (processTenant tenant config s)) = trace s ++ evs
             /\ RunShape (lock_events evs)).
  2: { destruct H as (evs & T & R). exists evs. repeat split; auto.
       apply RunShape_balanced; assumption. }
  unfold processTenant, try_catch.
  destruct (isTenantComponentActive tenant OCPI).
  2: { simpl. exists []. rewrite app_nil_r. split; [ reflexivity | left; reflexivity ]. }
  unfold bind at 1. unfold call at 1.
  destruct (lockingHelper_acquireOCPIPushCpoCdrsLock (env s) (tenant_id tenant))
    as [w1 [[L | ] | e]]; simpl.
  - match goal with
    | |- context [try_finally ?m ?f ?s1] =>
        destruct (try_finally_release m L s1 (halts_pushCdrs tenant)) as (r & Hr);
        destruct (pushCdrs_locks tenant s1) as (e1 & T1 & B1);
        pose proof (halts_try_finally m f (halts_pushCdrs tenant)
                      ltac:(repeat step_halts) s1) as Hh;
        destruct (try_finally m f s1) as [s2 [[] | e | ]] eqn:Htf
    end; simpl in *; try congruence.
    + rewrite Hr, T1. simpl. rewrite <- !app_assoc. eexists; split; [ reflexivity | ].
      right. exists L, (lock_events e1). split; [ assumption | ].
      simpl. rewrite lock_events_app. reflexivity.
    + unfold Logging_logActionExceptionMessage, emit, modify; simpl.
      rewrite Hr, T1. simpl. rewrite <- !app_assoc. eexists; split; [ reflexivity | ].
      right. exists L, (lock_events e1). split; [ assumption | ].
      simpl. rewrite !lock_events_app. simpl. reflexivity.
  - eexists; split; [ reflexivity | left; reflexivity ].
  - unfold Logging_logActionExceptionMessage, emit, modify; simpl.
    rewrite <- !app_assoc. eexists; split; [ reflexivity | left; reflexivity ].
Qed.


(** C1. One round of the candidate loop, on a transaction whose per-transaction lock
    was obtained and whose re-fetch shows a CDR: the task makes exactly four calls
    (the lock, the re-fetch, the information log entry, the release of the lock).
    It does not call the finalize operation [processTransactionRoaming] and it does
    not persist ([checkTenant], [findOneAndUpdate]); the environment is moved by
    the lock, the re-fetch and the release only. *)
Theorem pushCdr_skips_transaction_with_cdr tenant id (s : St W) l w1 w2 dr t
  (Hlock : lockingHelper_acquireOCPIPushCdrLock (env s) (tenant_id tenant) id
           = (w1, Returned (Some l)))
  (Hget : transactionStorage_getTransactions w1 (tenant_id tenant) [id]
          = (w2, Returned dr))
  (Hone : count dr = 1%Z)
  (Hfst : nth_error (result dr) 0 = Some t)
  (Hcdr : has_cdr t = true) :
  pushCdr tenant id s =
    ({| env := fst (lockingManager_release w2 l);
        trace := trace s ++
          [ AcquireOCPIPushCdrLock (tenant_id tenant) id (Returned (Some l));
            GetTransactions (tenant_id tenant) [id] (Returned dr);
            Log LInfo (entry tenant ("Transaction ID '" ++ show id
                                     ++ "' already has his CDR pushed")%string);
            Release l (snd (lockingManager_release w2 l)) ] |},
     match snd (lockingManager_release w2 l) with
     | Returned _ => Ok tt
     | Raised e => Throw e
     end).
Proof.
  unfold pushCdr, bind, call. rewrite Hlock. cbv beta iota.
  unfold try_finally, try_catch, pushCdr_try, getTransaction, bind, call.
  cbn [env trace]. rewrite Hget. cbv beta iota. unfold ret.
  rewrite Hone, Hfst. cbn [Z.eqb Pos.eqb]. cbv beta iota. rewrite Hcdr.
  unfold Logging_logInfo, emit, modify. cbn [env trace].
  destruct (lockingManager_release w2 l) as [w3 [b | e]]; cbn [fst snd];
    rewrite <- !app_assoc; reflexivity.
Qed.

Lemma processTenant_finalizes_without_cdr tenant config :
  only finalizes_without_cdr (processTenant (W := W) tenant config).
Proof.
  unfold processTenant, pushCdrs, Logging_logActionExceptionMessage, Logging_logInfo.
  repeat step_only; try exact I.
  apply only_for_of. intros id.
  unfold pushCdr, pushCdr_try, getTransaction, saveTransactionOcpiData, Logging_logError,
    Logging_logInfo, Logging_traceStart, Logging_traceEnd.
  repeat step_only; try exact I.
  simpl. assumption.
Qed.

(** C5. A lock that is not available is not an error.  When the tenant-wide lock is
    not available, the run consists of the attempt to take it and returns normally:
    no candidate is queried or processed and nothing is logged.  When the lock of a
    candidate is not available, the round of that candidate consists of the attempt
    and the loop goes on with the next candidates. *)
Theorem lock_unavailable_is_skipped tenant config (s s2 : St W) w1 w2 id rest
  (Hactive : isTenantComponentActive tenant OCPI = true)
  (Hrun : lockingHelper_acquireOCPIPushCpoCdrsLock (env s) (tenant_id tenant)
          = (w1, Returned None))
  (Htx : lockingHelper_acquireOCPIPushCdrLock (env s2) (tenant_id tenant) id
         = (w2, Returned None)) :
  processTenant tenant config s =
    ({| env := w1;
        trace := trace s ++ [AcquireOCPIPushCpoCdrsLock (tenant_id tenant) (Returned None)] |},
     Ok tt)
  /\ for_of (id :: rest) (pushCdr tenant) s2 =
     for_of rest (pushCdr tenant)
       {| env := w2;
          trace := trace s2 ++ [AcquireOCPIPushCdrLock (tenant_id tenant) id (Returned None)] |}.
Proof.
  split.
  - unfold processTenant, try_catch, bind, call. rewrite Hactive, Hrun. reflexivity.
  - cbn [for_of]. unfold bind at 1. unfold pushCdr, bind, call. rewrite Htx. reflexivity.
Qed.

(** ** The candidates *)

Lemma pipeline_spec collection id :
  In id (pipeline collection) <->
  exists d, In d collection /\ _id d = id
            /\ stop d <> Missing /\ mdb_ocpiData d <> Missing
            /\ (path_ocpiData_cdr d = Missing \/ path_ocpiData_cdr d = Null).
Proof.
  unfold pipeline. rewrite in_map_iff. split.
  - intros (d & Hid & Hin). apply filter_In in Hin. destruct Hin as (Hin & Hm).
    exists d. unfold stage_match in Hm.
    apply andb_true_iff in Hm. destruct Hm as (Hm & Hcdr).
    apply andb_true_iff in Hm. destruct Hm as (Hstop & Hocpi).
    repeat split; auto.
    + intros E. rewrite E in Hstop. discriminate.
    + intros E. rewrite E in Hocpi. discriminate.
    + destruct (path_ocpiData_cdr d); auto; discriminate.
  - intros (d & Hin & Hid & Hstop & Hocpi & Hcdr). exists d. split; auto.
    apply filter_In. split; auto. unfold stage_match.
    destruct (stop d); try congruence;
      destruct (mdb_ocpiData d) eqn:E; try congruence;
      destruct Hcdr as [-> | ->]; reflexivity.
Qed.

Lemma within_candidates ids evs :
  Forall (within ids) evs -> forall id, In id (candidates_of evs) -> In id ids.
Proof.
  induction 1 as [| e evs He _ IH]; simpl; intros id Hin.
  - contradiction.
  - apply in_app_or in Hin. destruct Hin; auto.
Qed.

Lemma pushCdr_within ids tenant id :
  In id ids -> only (within ids) (pushCdr (W := W) tenant id).
Proof.
  intros Hin.
  unfold pushCdr, pushCdr_try, getTransaction, saveTransactionOcpiData, Logging_logError,
    Logging_logInfo, Logging_traceStart, Logging_traceEnd.
  repeat step_only;
    (intros ? H; cbn [candidate_of In] in H;
     first [ contradiction | destruct H as [<- | []]; assumption ]).
Qed.

(** Whatever the collaborators answer, a run requests a per-transaction lock only
    for transactions that the query selected from the collection the database
    returned. *)
Lemma candidates_come_from_the_query tenant config (s : St W) :
  exists evs,
    trace (fst (processTenant tenant config s)) = trace s ++ evs
    /\ forall id, In id (candidates_of evs) ->
         exists collection,
           In (Aggregate (tenant_id tenant) (Returned collection)) evs
           /\ In id (pipeline collection).
Proof.
  assert (Hloop : forall s1 collection,
             exists evs,
               trace (fst (for_of (pipeline collection) (pushCdr tenant) s1)) = trace s1 ++ evs
               /\ forall id, In id (candidates_of evs) -> In id (pipeline collection)).
  { intros s1 collection.
    destruct (only_for_of_In (within (pipeline collection)) (pipeline collection)
                (pushCdr tenant)
                (fun x Hx => pushCdr_within (pipeline collection) tenant x Hx) s1)
      as (evs & T & F).
    cbv [trace_of task_traced] in T.
    exists evs. split; [ assumption | apply within_candidates; assumption ]. }
  unfold processTenant, try_catch.
  destruct (isTenantComponentActive tenant OCPI).
  2: { exists []. cbn. rewrite app_nil_r. split; [ reflexivity | intros ? [] ]. }
  unfold bind at 1. unfold call at 1.
  destruct (lockingHelper_acquireOCPIPushCpoCdrsLock (env s) (tenant_id tenant))
    as [w1 [[L | ] | e]]; cbv beta iota.
  2: { eexists. split; [ reflexivity | intros ? [] ]. }
  2: { unfold Logging_logActionExceptionMessage, emit, modify. cbn [fst trace].
       rewrite <- app_assoc. eexists. split; [ reflexivity | intros ? [] ]. }
  match goal with
  | |- context [try_finally ?m ?f ?s1] =>
      destruct (try_finally_release m L s1 (halts_pushCdrs tenant)) as (r & Hr);
      pose proof (halts_try_finally m f (halts_pushCdrs tenant)
                    ltac:(repeat step_halts) s1) as Hh;
      assert (Hm : exists evs,
                 trace (fst (m s1)) = trace s1 ++ evs
                 /\ forall id, In id (candidates_of evs) ->
                      exists collection,
                        In (Aggregate (tenant_id tenant) (Returned collection)) evs
                        /\ In id (pipeline collection))
  end.
  { unfold pushCdrs. unfold bind at 1. unfold call at 1. cbn [env trace].
    destruct (database_transactions w1 (tenant_id tenant)) as [w2 [collection | e]];
      cbv beta iota zeta.
    2: { eexists. split; [ reflexivity | intros ? [] ]. }
    destruct (isEmptyArray (pipeline collection)); cbn [negb].
    { eexists. split; [ reflexivity | intros ? [] ]. }
    unfold bind at 1. unfold Logging_logInfo, emit, modify.
    match goal with
    | |- context [for_of _ _ ?s2] => destruct (Hloop s2 collection) as (e2 & T2 & H2)
    end.
    rewrite T2. cbn [trace env].
    exists ([Aggregate (tenant_id tenant) (Returned collection)]
            ++ [Log LInfo (entry tenant
                  (show (Z.of_nat (Datatypes.length (pipeline collection)))
                   ++ " Transaction's CDRs are going to be pushed to OCPI")%string)]
            ++ e2).
    split; [ rewrite <- !app_assoc; reflexivity | ].
    intros id Hin. exists collection. split; [ left; reflexivity | ].
    apply H2. exact Hin. }
  destruct Hm as (e1 & T1 & H1).
  match goal with
  | |- context [try_finally ?m ?f ?s1] =>
      destruct (try_finally m f s1) as [s2 [[] | e | ]] eqn:Htf
  end; cbn [fst snd] in *; try congruence.
  - rewrite Hr, T1. cbn [trace]. rewrite <- !app_assoc. eexists. split; [ reflexivity | ].
    intros id Hin. unfold candidates_of in Hin. rewrite !flat_map_app in Hin.
    cbn in Hin. rewrite app_nil_r in Hin.
    destruct (H1 id Hin) as (collection & Ha & Hp). exists collection. split; auto.
    apply in_or_app; right; apply in_or_app; left; assumption.
  - unfold Logging_logActionExceptionMessage, emit, modify. cbn [fst trace].
    rewrite Hr, T1. cbn [trace]. rewrite <- !app_assoc. eexists. split; [ reflexivity | ].
    intros id Hin. unfold candidates_of in Hin. rewrite !flat_map_app in Hin.
    cbn in Hin. rewrite app_nil_r in Hin.
    destruct (H1 id Hin) as (collection & Ha & Hp). exists collection. split; auto.
    apply in_or_app; right; apply in_or_app; left; assumption.
Qed.

(** ** One round of the candidate loop, path by path *)

(** Splits a run of the task along the answers of the collaborators. *)
Ltac run_calls :=
  repeat first
    [ progress cbv beta iota zeta
    | progress cbn [fst snd env trace]
    | match goal with
      | |- context [let (_, _) := ?c in _] => destruct c as [? [? | ?]] eqn:?
      | |- context [match ?x with Some _ => _ | None => _ end] => destruct x eqn:?
      | |- context [if ?b then _ else _] => destruct b eqn:?
      end ].

Ltac unfold_round :=
  unfold pushCdr, pushCdr_try, getTransaction, saveTransactionOcpiData, Logging_logError,
    Logging_logInfo, Logging_traceStart, Logging_traceEnd, try_finally, try_catch, bind,
    call, emit, modify, ret, throw.

(** X1. A failure of the work on one candidate stays in its round.  Whichever call
    of the protected work raises (the re-fetch, the look-up of the charging station or
    of the tag, the finalize operation, the check of the tenant, the write), the next
    event is the error entry of that transaction with what was raised, and the round
    returns.  A round throws in two cases only: its lock could not be requested, or
    the release of its lock raised. *)
Theorem candidate_failure_stays_in_its_round tenant id (s : St W) :
  exists evs,
    trace (fst (pushCdr tenant id s)) = trace s ++ evs
    /\ failures_logged tenant id evs
    /\ (snd (pushCdr tenant id s) = Ok tt
        \/ exists e,
             snd (pushCdr tenant id s) = Throw e
             /\ (evs = [AcquireOCPIPushCdrLock (tenant_id tenant) id (Raised e)]
                 \/ exists l before, evs = before ++ [Release l (Raised e)])).
Proof.
  unfold_round. run_calls.
  all: rewrite <- ?app_assoc; cbn [app].
  all: eexists; split; [ reflexivity | ].
  all: split; [ cbn; repeat split; eauto | ].
  all: first [ left; reflexivity | right ].
  all: eexists; split; [ reflexivity | ].
  all: first [ left; reflexivity | right ].
  all: match goal with
       | |- exists l before, ?evs = _ =>
           eexists; exists (removelast evs); cbn [removelast]; reflexivity
       end.
Qed.

(** A round whose lock request returns and whose release returns: it returns, and it
    is the round of its transaction. *)
Lemma pushCdr_returns tenant id (s : St W) :
  (exists w r, lockingHelper_acquireOCPIPushCdrLock (env s) (tenant_id tenant) id
               = (w, Returned r)) ->
  (forall w l, exists w' b, lockingManager_release w l = (w', Returned b)) ->
  exists s' evs,
    pushCdr tenant id s = (s', Ok tt)
    /\ trace s' = trace s ++ evs
    /\ candidates_of evs = [id].
Proof.
  intros (w0 & r0 & Hacq) Hrel.
  unfold_round. rewrite Hacq. run_calls.
  all: try match goal with
           | H : lockingManager_release ?w ?l = (_, Raised _) |- _ =>
               destruct (Hrel w l) as (? & ? & Hr); rewrite Hr in H; discriminate H
           end.
  all: rewrite <- ?app_assoc; cbn [app].
  all: eexists; eexists; split; [ reflexivity | ]; split; reflexivity.
Qed.

Lemma for_of_pushCdr_returns tenant ids (s : St W) :
  (forall w id, exists w' r,
      lockingHelper_acquireOCPIPushCdrLock w (tenant_id tenant) id = (w', Returned r)) ->
  (forall w l, exists w' b, lockingManager_release w l = (w', Returned b)) ->
  exists s' evs,
    for_of ids (pushCdr tenant) s = (s', Ok tt)
    /\ trace s' = trace s ++ evs
    /\ candidates_of evs = ids.
Proof.
  intros Hacq Hrel. revert s. induction ids as [| id ids IH]; intros s; cbn [for_of].
  - exists s, []. rewrite app_nil_r. repeat split.
  - destruct (pushCdr_returns tenant id s (Hacq (env s) id) Hrel) as (s1 & e1 & R1 & T1 & C1).
    destruct (IH s1) as (s2 & e2 & R2 & T2 & C2).
    exists s2, (e1 ++ e2). unfold bind. rewrite R1, R2, T2, T1, app_assoc.
    repeat split. unfold candidates_of in *. rewrite flat_map_app, C1, C2. reflexivity.
Qed.

Lemma pushCdrs_returns tenant (s : St W) w2 collection :
  database_transactions (env s) (tenant_id tenant) = (w2, Returned collection) ->
  (forall w id, exists w' r,
      lockingHelper_acquireOCPIPushCdrLock w (tenant_id tenant) id = (w', Returned r)) ->
  (forall w l, exists w' b, lockingManager_release w l = (w', Returned b)) ->
  exists s' evs,
    pushCdrs tenant s = (s', Ok tt)
    /\ trace s' = trace s ++ Aggregate (tenant_id tenant) (Returned collection) :: evs
    /\ candidates_of evs = pipeline collection.
Proof.
  intros Hquery Hacq Hrel. unfold pushCdrs, bind, call. rewrite Hquery. cbv beta iota zeta.
  destruct (isEmptyArray (pipeline collection)) eqn:Hempty; cbn [negb].
  - exists {| env := w2;
              trace := trace s ++ [Aggregate (tenant_id tenant) (Returned collection)] |}, [].
    split; [ reflexivity | ]. split; [ reflexivity | ].
    destruct (pipeline collection); [ reflexivity | discriminate Hempty ].
  - unfold Logging_logInfo, emit, modify.
    match goal with
    | |- context [for_of ?ids (pushCdr tenant) ?s1] =>
        destruct (for_of_pushCdr_returns tenant ids s1 Hacq Hrel) as (s2 & e2 & R2 & T2 & C2)
    end.
    rewrite R2. exists s2. eexists. split; [ reflexivity | ].
    rewrite T2. cbn [trace]. rewrite <- !app_assoc. split; [ reflexivity | ].
    unfold candidates_of in *. cbn [app flat_map candidate_of]. exact C2.
Qed.

Lemma stage_match_conditions d :
  stage_match d = finished d && has_roaming_data d && without_cdr d.
Proof.
  unfold stage_match, finished, has_roaming_data, without_cdr, path_ocpiData_cdr.
  destruct (stop d), (mdb_ocpiData d) as [| | o]; try reflexivity;
    destruct (mdb_cdr o); reflexivity.
Qed.

Lemma saveTransaction_document_conditions t :
  let d := saveTransaction_document t in
  finished d && has_roaming_data d && without_cdr d = awaits_cdr t.
Proof.
  unfold saveTransaction_document, finished, has_roaming_data, without_cdr, awaits_cdr.
  cbn. destruct (transaction_stop t), (ocpiData (transaction t)) as [o | ];
    try reflexivity; destruct (cdr o); reflexivity.
Qed.

Lemma filter_map_commute {A B} (f : B -> bool) (g : A -> B) l :
  filter f (map g l) = map g (filter (fun x => f (g x)) l).
Proof.
  induction l as [| x l IH]; cbn; [ reflexivity | ].
  destruct (f (g x)); cbn; rewrite IH; reflexivity.
Qed.

(** C8. The candidates of a run are exactly the finished roaming transactions
    without CDR.  A run that obtains the tenant-wide lock sends the query, and, the
    lock service answering every request, requests the lock of each transaction of
    the collection whose document has a field [stop], has a field [ocpiData] and
    has no [ocpiData.cdr] (none, or [null]), once, in the order of the collection,
    and of no other transaction.  When the documents are those [saveTransaction]
    lays out, these are the transactions that were stopped, have roaming data, and
    have no CDR in their roaming data. *)
Theorem candidates_are_finished_roaming_without_cdr tenant config (s : St W)
    w1 L w2 collection
  (Hactive : isTenantComponentActive tenant OCPI = true)
  (Hlock : lockingHelper_acquireOCPIPushCpoCdrsLock (env s) (tenant_id tenant)
           = (w1, Returned (Some L)))
  (Hquery : database_transactions w1 (tenant_id tenant) = (w2, Returned collection))
  (Hacq : forall w id, exists w' r,
      lockingHelper_acquireOCPIPushCdrLock w (tenant_id tenant) id = (w', Returned r))
  (Hrel : forall w l, exists w' b, lockingManager_release w l = (w', Returned b)) :
  exists s' evs,
    processTenant tenant config s = (s', Ok tt)
    /\ trace s' = trace s ++ evs
    /\ In (Aggregate (tenant_id tenant) (Returned collection)) evs
    /\ candidates_of evs
       = map _id (filter (fun d => finished d && has_roaming_data d && without_cdr d)
                         collection)
    /\ forall transactions,
         collection = map saveTransaction_document transactions ->
         candidates_of evs
         = map (fun t => transaction_id (transaction t)) (filter awaits_cdr transactions).
Proof.
  assert (Hpipe : pipeline collection
                  = map _id (filter (fun d => finished d && has_roaming_data d
                                              && without_cdr d) collection)).
  { unfold pipeline, stage_project. f_equal. apply filter_ext.
    intros d. apply stage_match_conditions. }
  unfold processTenant. rewrite Hactive. unfold try_catch, try_finally, bind, call.
  rewrite Hlock. cbv beta iota.
  match goal with
  | |- context [pushCdrs tenant ?s1] =>
      destruct (pushCdrs_returns tenant s1 w2 collection Hquery Hacq Hrel)
        as (s2 & e2 & R2 & T2 & C2)
  end.
  rewrite R2. destruct (Hrel (env s2) L) as (w3 & b & Hr). rewrite Hr.
  eexists. eexists. split; [ reflexivity | ]. cbn [trace ret fst snd].
  rewrite T2. cbn [trace]. rewrite <- !app_assoc. split; [ reflexivity | ].
  split; [ right; left; reflexivity | ].
  assert (Hc : candidates_of
                 ([AcquireOCPIPushCpoCdrsLock (tenant_id tenant) (Returned (Some L))]
                  ++ (Aggregate (tenant_id tenant) (Returned collection) :: e2)
                  ++ [Release L (Returned b)])
               = pipeline collection).
  { unfold candidates_of in *. cbn [app flat_map candidate_of].
    rewrite flat_map_app, C2. cbn. apply app_nil_r. }
  split; [ rewrite Hc; exact Hpipe | ].
  intros transactions ->. rewrite Hc, Hpipe, filter_map_commute, map_map.
  f_equal. apply filter_ext. intros t. apply saveTransaction_document_conditions.
Qed.

(** ** What a run writes *)

Lemma writes_roaming_result_nil : writes_roaming_result [].
Proof. intros [| ? ?] ? ? ? ? ? H; discriminate H. Qed.

Lemma writes_roaming_result_app a b :
  writes_roaming_result a -> writes_roaming_result b -> writes_roaming_result (a ++ b).
Proof.
  intros Ha Hb before tenantID id d r after H.
  apply app_eq_app in H. destruct H as (l & [(-> & H) | (-> & H)]).
  - destruct l as [| x l].
    + cbn in H. subst b.
      destruct (Hb [] tenantID id d r after eq_refl) as (b' & t & t' & E & _).
      destruct b' as [| ? [| ? [| ? ?]]]; discriminate E.
    + cbn in H. injection H as <- ->.
      exact (Ha before tenantID id d r l eq_refl).
  - destruct (Hb l tenantID id d r after H) as (b' & t & t' & -> & Hc & Hid & Hd).
    exists (a ++ b'), t, t'. rewrite app_assoc. auto.
Qed.

Lemma writes_roaming_result_other e :
  no_write e -> writes_roaming_result [e].
Proof.
  intros He [| ? [| ? ?]] ? ? ? ? ? H; try discriminate H.
  injection H as -> _. contradiction He.
Qed.

Lemma writes_roaming_result_cons e evs :
  no_write e -> writes_roaming_result evs -> writes_roaming_result (e :: evs).
Proof.
  intros He Hevs. change (e :: evs) with ([e] ++ evs).
  apply writes_roaming_result_app; [ apply writes_roaming_result_other | ]; assumption.
Qed.

Lemma writes_roaming_result_write t t' tenantID d r evs :
  has_cdr t = false ->
  ocpiData t' = d ->
  writes_roaming_result evs ->
  writes_roaming_result
    (ProcessTransactionRoaming t END (Returned t')
     :: TraceStart STORAGE_MODULE_NAME "saveTransactionOcpiData"
     :: CheckTenant tenantID (Returned tt)
     :: FindOneAndUpdate tenantID (transaction_id t') d r :: evs).
Proof.
  intros Hc <- Hevs.
  match goal with
  | |- writes_roaming_result (?a :: ?b :: ?c :: ?d :: evs) =>
      change (writes_roaming_result ([a; b; c; d] ++ evs))
  end.
  apply writes_roaming_result_app; [ | assumption ].
  intros [| ? [| ? [| ? [| ? [| ? ?]]]]] ? ? ? ? ? H; try discriminate H.
  inversion H; subst. exists [], t, t'. auto.
Qed.

Lemma pushCdr_writes tenant id : appends writes_roaming_result (pushCdr (W := W) tenant id).
Proof.
  intros s. cbv [trace_of task_traced].
  unfold_round. run_calls.
  all: rewrite <- ?app_assoc; cbn [app].
  all: eexists; split; [ reflexivity | ].
  all: repeat first
         [ apply writes_roaming_result_nil
         | match goal with
           | u : unit |- _ => destruct u
           end
         | apply writes_roaming_result_write;
           [ assumption | first [ assumption | reflexivity ] | ]
         | apply writes_roaming_result_cons; [ exact I | ] ].
Qed.

(** X2. A run writes OCPI data only as the outcome of the finalize operation: each
    write comes right after the check of the tenant that follows a call of
    [processTransactionRoaming] that returned, on a transaction that had no CDR, and
    it stores, under the id of the transaction this call returned, the OCPI data this
    call returned. *)
Theorem run_writes_what_the_finalize_operation_returned tenant config (s : St W) :
  exists evs,
    trace (fst (processTenant tenant config s)) = trace s ++ evs
    /\ writes_roaming_result evs.
Proof.
  assert (H : appends writes_roaming_result (processTenant (W := W) tenant config)).
  { pose proof writes_roaming_result_nil as Hnil.
    pose proof writes_roaming_result_app as Happ.
    assert (Hcall : forall A (f : W -> W * Reply A) (ev : Reply A -> Event),
               (forall r, no_write (ev r)) -> appends writes_roaming_result (call f ev)).
    { intros A f ev Hev s0. unfold call. destruct (f (env s0)) as [w' r].
      exists [ev r]. split; [ reflexivity | ].
      apply writes_roaming_result_other. apply Hev. }
    assert (Hemit : forall e, no_write e -> appends writes_roaming_result (emit (W := W) e)).
    { intros e He s0. exists [e]. split; [ reflexivity | ].
      apply writes_roaming_result_other. exact He. }
    unfold processTenant, pushCdrs, Logging_logActionExceptionMessage, Logging_logInfo.
    apply appends_try_catch; auto; [ | intros e; apply Hemit; exact I ].
    destruct (isTenantComponentActive tenant OCPI); [ | apply appends_ret; auto ].
    apply appends_bind; auto; [ apply Hcall; intros r; exact I | intros [L | ] ].
    2: apply appends_ret; auto.
    apply appends_try_finally; auto.
    - apply appends_bind; auto; [ apply Hcall; intros r; exact I | intros collection ].
      destruct (negb (isEmptyArray (pipeline collection))); [ | apply appends_ret; auto ].
      apply appends_bind; auto; [ apply Hemit; exact I | intros _ ].
      apply appends_for_of; auto. intros id. apply pushCdr_writes.
    - apply appends_bind; auto; [ apply Hcall; intros r; exact I | intros _ ].
      apply appends_ret; auto. }
  exact (H s).
Qed.

End TaskFacts.

(* ================================================================== *)
(** * The eMSP client: properties *)
(* ================================================================== *)

Section ReturnsFacts.
Context {S : Type}.

Lemma returns_ret {A} (a : A) : returns (S := S) (ret a).
Proof. intros s; exists a; reflexivity. Qed.

Lemma returns_bind {A B} (m : M S A) (k : A -> M S B) :
  returns m -> (forall a, returns (k a)) -> returns (bind m k).
Proof.
  intros Hm Hk s. unfold bind. destruct (Hm s) as (a & Ha).
  destruct (m s) as [s' r]; simpl in Ha; subst r. apply Hk.
Qed.

Lemma returns_try_catch {A} (m : M S A) (h : Exn -> M S A) :
  halts m -> (forall e, returns (h e)) -> returns (try_catch m h).
Proof.
  intros Hm Hh s. unfold try_catch. specialize (Hm s).
  destruct (m s) as [s' [a | e | ]]; simpl in *.
  - exists a; reflexivity.
  - apply Hh.
  - congruence.
Qed.

Lemma returns_halts {A} (m : M S A) : returns m -> halts m.
Proof. intros Hm s. destruct (Hm s) as (a & ->). discriminate. Qed.

End ReturnsFacts.

Section ClientFacts.
Import EmspOCPIClient.
Context {W : Type} {C : Collaborators W}.

Lemma only_emit_client (p : Event -> Prop) (e : Event) : p e -> only p (emit (W := W) e).
Proof. intros H s. exists [e]. simpl. auto. Qed.

Lemma only_call_client (p : Event -> Prop) {A} (f : W -> W * Reply A) (ev : Reply A -> Event) :
  (forall r, p (ev r)) -> only p (call f ev).
Proof.
  intros H s. unfold call. destruct (f (env s)) as [w' r].
  exists [ev r]. simpl. auto.
Qed.

Lemma only_gets (p : Event -> Prop) {A} (f : St W -> A) : only p (gets f).
Proof. intros s. exists []. simpl. rewrite app_nil_r. auto. Qed.

Lemma only_lift (p : Event -> Prop) {A} (r : Reply A) : only p (lift (W := W) r).
Proof. destruct r; [ apply only_ret | apply only_throw ]. Qed.

Lemma only_quiet (p : Event -> Prop) (f : St W -> St W) :
  (forall s, trace (f s) = trace s) -> only p (modify f).
Proof. intros H s. exists []. simpl. rewrite app_nil_r. cbv [trace_of client_traced]. auto. Qed.

Lemma only_new_id (p : Event -> Prop) : (forall id, p (NewObjectID id)) -> only p (new_id (W := W)).
Proof.
  intros H s. unfold new_id. destruct (newObjectID (env s)) as [w' id].
  exists [NewObjectID id]. simpl. auto.
Qed.

Lemma only_observed (p : Event -> Prop) {A} (ev : Reply A -> Event) (m : M (St W) A) :
  (forall r, p (ev r)) -> only p m -> only p (observed ev m).
Proof.
  intros Hev Hm s. unfold observed. destruct (Hm s) as (e1 & T1 & F1).
  cbv [trace_of client_traced] in *.
  destruct (m s) as [s' [a | e | ]]; simpl in *.
  - exists (e1 ++ [ev (Returned a)]). rewrite T1, app_assoc. split; auto.
    apply Forall_app; auto.
  - exists (e1 ++ [ev (Raised e)]). rewrite T1, app_assoc. split; auto.
    apply Forall_app; auto.
  - exists e1; auto.
Qed.

Lemma halts_emit_client (e : Event) : halts (emit (W := W) e).
Proof. apply halts_modify. Qed.

Lemma halts_call_client {A} (f : W -> W * Reply A) (ev : Reply A -> Event) : halts (call f ev).
Proof.
  intros s. unfold call. destruct (f (env s)) as [w' [a | e]]; simpl; discriminate.
Qed.

Lemma halts_gets {A} (f : St W -> A) : halts (gets f).
Proof. intros s; simpl; discriminate. Qed.

Lemma halts_lift {A} (r : Reply A) : halts (lift (W := W) r).
Proof. destruct r; [ apply halts_ret | apply halts_throw ]. Qed.

Lemma halts_new_id : halts (new_id (W := W)).
Proof. intros s. unfold new_id. destruct (newObjectID (env s)). simpl. discriminate. Qed.

Lemma halts_observed {A} (ev : Reply A -> Event) (m : M (St W) A) :
  halts m -> halts (observed ev m).
Proof.
  intros Hm s. unfold observed. specialize (Hm s).
  destruct (m s) as [s' [a | e | ]]; simpl in *; congruence.
Qed.

Lemma returns_gets {A} (f : St W -> A) : returns (gets f).
Proof. intros s; eexists; reflexivity. Qed.

Lemma returns_emit (e : Event) : returns (emit (W := W) e).
Proof. intros s; eexists; reflexivity. Qed.

Ltac step_only_client :=
  match goal with
  | |- only _ (bind _ _) => apply only_bind; [ | intros ? ]
  | |- only _ (ret _) => apply only_ret
  | |- only _ (throw _) => apply only_throw
  | |- only _ (call _ _) => apply only_call_client; intros ?
  | |- only _ (emit _) => apply only_emit_client
  | |- only _ (gets _) => apply only_gets
  | |- only _ (lift _) => apply only_lift
  | |- only _ new_id => apply only_new_id; intros ?
  | |- only _ (modify _) => apply only_quiet; intros ?; reflexivity
  | |- only _ (observed _ _) => apply only_observed; [ intros ? | ]
  | |- only _ (try_catch _ _) => apply only_try_catch; [ | intros ? ]
  | |- only _ (for_of _ _) => apply only_for_of; intros ?
  | |- only _ (match ?x with _ => _ end) => destruct x eqn:?
  end.

Ltac step_halts_client :=
  match goal with
  | |- halts (bind _ _) => apply halts_bind; [ | intros ? ]
  | |- halts (ret _) => apply halts_ret
  | |- halts (throw _) => apply halts_throw
  | |- halts (call _ _) => apply halts_call_client
  | |- halts (emit _) => apply halts_emit_client
  | |- halts (gets _) => apply halts_gets
  | |- halts (lift _) => apply halts_lift
  | |- halts new_id => apply halts_new_id
  | |- halts (modify _) => apply halts_modify
  | |- halts (observed _ _) => apply halts_observed
  | |- halts (try_catch _ _) => apply halts_try_catch; [ | intros ? ]
  | |- halts (for_of _ _) => apply halts_for_of; intros ?
  | |- halts (match ?x with _ => _ end) => destruct x
  end.

Ltac unfold_client :=
  unfold processLocation, handleSite, handleSiteArea, processEvse, SiteStorage_saveSite,
    SiteStorage_getSites, SiteAreaStorage_getSiteAreas, SiteAreaStorage_saveSiteArea,
    Logging_logDebug, pushToken, authorization.

Lemma halts_processLocation location company :
  halts (processLocation (W := W) location company).
Proof. unfold_client. repeat step_halts_client. Qed.

Lemma halts_pushToken t : halts (pushToken (W := W) t).
Proof. unfold_client. repeat step_halts_client. Qed.

(** ** Pages *)

Lemma no_page_events evs : Forall no_page evs -> pages_of evs = [].
Proof.
  induction 1 as [| e evs He _ IH]; simpl; auto.
  unfold no_page in He. rewrite He. exact IH.
Qed.

Lemma follow_stops l result link :
  leads_nowhere (url l) (getNextUrl link) ->
  follow l result link = {| url := url l; nextResult := false; pull_result := result |}.
Proof.
  unfold leads_nowhere, follow. intros [-> | [-> | ->]]; [ reflexivity | reflexivity | ].
  rewrite String.eqb_refl. cbn [negb andb]. rewrite andb_false_r. reflexivity.
Qed.

Lemma follow_goes_on l result link next :
  getNextUrl link = Some next -> next <> ""%string -> next <> url l ->
  follow l result link = {| url := next; nextResult := nextResult l; pull_result := result |}.
Proof.
  unfold follow. intros -> H1 H2.
  apply String.eqb_neq in H1. apply String.eqb_neq in H2. rewrite H1, H2. reflexivity.
Qed.

(** The loop goes on after a page exactly when the next link leads on. *)
Lemma follow_stops_iff l result link :
  nextResult l = true ->
  (nextResult (follow l result link) = false <-> leads_nowhere (url l) (getNextUrl link)).
Proof.
  intros Hl. split.
  - unfold leads_nowhere, follow. destruct (getNextUrl link) as [next | ]; [ | auto ].
    destruct (String.eqb_spec next ""); [ subst; auto | ].
    destruct (String.eqb_spec next (url l)); [ subst; auto | ].
    cbn [negb andb nextResult]. congruence.
  - intros H. rewrite (follow_stops l result link H). reflexivity.
Qed.

(** ** The work done on the items of a page *)

Lemma returns_settles n : returns (settles (W := W) n).
Proof.
  intros s. unfold settles. destruct (settlesFirst (env s) n) as [w' i].
  exists i. reflexivity.
Qed.

Lemma only_settles (p : Event -> Prop) n : only p (settles (W := W) n).
Proof.
  intros s. unfold settles. destruct (settlesFirst (env s) n) as [w' i].
  exists []. cbn. rewrite app_nil_r. auto.
Qed.

Lemma returns_settle {A} (worker : A -> OCPIResult -> M (St W) OCPIResult) :
  (forall x r, returns (worker x r)) ->
  forall pending inFlight queue r, returns (settle pending inFlight queue worker r).
Proof.
  intros Hw. induction pending as [| pending IH]; intros inFlight queue r.
  - destruct inFlight; apply returns_ret.
  - destruct inFlight as [| x others]; [ apply returns_ret | ]. cbn [settle].
    apply returns_bind; [ apply returns_settles | intros i ].
    destruct (extract i x others) as [done others'].
    apply returns_bind; [ apply Hw | intros r' ].
    destruct queue; apply IH.
Qed.

Lemma only_settle p {A} (worker : A -> OCPIResult -> M (St W) OCPIResult) :
  (forall x r, only p (worker x r)) ->
  forall pending inFlight queue r, only p (settle pending inFlight queue worker r).
Proof.
  intros Hw. induction pending as [| pending IH]; intros inFlight queue r.
  - destruct inFlight; apply only_ret.
  - destruct inFlight as [| x others]; [ apply only_ret | ]. cbn [settle].
    apply only_bind; [ apply only_settles | intros i ].
    destruct (extract i x others) as [done others'].
    apply only_bind; [ apply Hw | intros r' ].
    destruct queue; apply IH.
Qed.

Lemma returns_Promise_map {A} (worker : A -> OCPIResult -> M (St W) OCPIResult) items c :
  (forall x r, returns (worker x r)) -> forall r, returns (Promise_map items worker c r).
Proof. intros Hw r. apply returns_settle. exact Hw. Qed.

Lemma only_Promise_map p {A} (worker : A -> OCPIResult -> M (St W) OCPIResult) items c :
  (forall x r, only p (worker x r)) -> forall r, only p (Promise_map items worker c r).
Proof. intros Hw r. apply only_settle. exact Hw. Qed.

Lemma returns_pullSessions_worker x r : returns (pullSessions_worker (W := W) x r).
Proof.
  unfold pullSessions_worker. apply returns_bind; [ apply returns_gets | intros self ].
  apply returns_try_catch; [ repeat step_halts_client | intros; apply returns_ret ].
Qed.

Lemma returns_pullCdrs_worker x r : returns (pullCdrs_worker (W := W) x r).
Proof.
  unfold pullCdrs_worker. apply returns_bind; [ apply returns_gets | intros self ].
  apply returns_try_catch; [ repeat step_halts_client | intros; apply returns_ret ].
Qed.

Lemma returns_pushTokens_worker x r : returns (pushTokens_worker (W := W) x r).
Proof.
  unfold pushTokens_worker.
  apply returns_try_catch; [ | intros; apply returns_ret ].
  repeat step_halts_client. apply halts_pushToken.
Qed.

Lemma returns_pullLocations_item company r x :
  returns (pullLocations_item (W := W) company r x).
Proof.
  unfold pullLocations_item.
  apply returns_try_catch; [ | intros; apply returns_ret ].
  repeat step_halts_client. apply halts_processLocation.
Qed.

Lemma returns_pullLocations_items company items :
  forall r, returns (pullLocations_items (W := W) company items r).
Proof.
  induction items as [| x items IH]; intros r; simpl.
  - apply returns_ret.
  - apply returns_bind; [ apply returns_pullLocations_item | auto ].
Qed.

Lemma only_pullLocations_items p company items :
  (forall r x, only p (pullLocations_item (W := W) company r x)) ->
  forall r, only p (pullLocations_items (W := W) company items r).
Proof.
  intros Hi. induction items as [| x items IH]; intros r; simpl.
  - apply only_ret.
  - apply only_bind; auto.
Qed.

Lemma processLocation_no_page location company :
  only no_page (processLocation (W := W) location company).
Proof. unfold_client. repeat step_only_client; reflexivity. Qed.

Lemma pullLocations_item_no_page company r x :
  only no_page (pullLocations_item (W := W) company r x).
Proof.
  unfold pullLocations_item. repeat step_only_client; try reflexivity.
  apply processLocation_no_page.
Qed.

Lemma pullSessions_worker_no_page x r : only no_page (pullSessions_worker (W := W) x r).
Proof. unfold pullSessions_worker. repeat step_only_client; reflexivity. Qed.

Lemma pullCdrs_worker_no_page x r : only no_page (pullCdrs_worker (W := W) x r).
Proof. unfold pullCdrs_worker. repeat step_only_client; reflexivity. Qed.

(** ** One round of a page loop *)

Lemma round_generic {X} (get : W -> string -> string -> W * Reply (Response X))
      (ev : string -> string -> Reply (Response X) -> Event)
      (proc : list X -> OCPIResult -> M (St W) OCPIResult) l (s : St W) w' r :
  get (env s) (url l) ("Token " ++ token (ocpiEndpoint (this s)))%string = (w', Returned r) ->
  (forall items res, returns (proc items res)) ->
  (forall items res, only no_page (proc items res)) ->
  exists s' result evs,
    (auth <- authorization ;;
     response <- call (fun w => get w (url l) auth) (ev (url l) auth) ;;
     result <- (if negb (isEmptyArray (data response))
                then proc (data response) (pull_result l)
                else ret (pull_result l)) ;;
     ret (follow l result (link response))) s
    = (s', Ok (follow l result (link r)))
    /\ trace s' = trace s
                  ++ [ev (url l) ("Token " ++ token (ocpiEndpoint (this s)))%string (Returned r)]
                  ++ evs
    /\ Forall no_page evs.
Proof.
  intros Hget Hret Honly.
  unfold bind at 1. unfold authorization, gets. cbv beta iota.
  unfold bind at 1. unfold call. rewrite Hget. cbv beta iota.
  set (s1 := add_event (set_env s w') _).
  set (work := if negb (isEmptyArray (data r)) then proc (data r) (pull_result l)
               else ret (pull_result l)).
  assert (Hw : returns work /\ only no_page work).
  { unfold work. destruct (negb (isEmptyArray (data r))).
    - split; auto.
    - split; [ apply returns_ret | apply only_ret ]. }
  destruct Hw as (Hw1 & Hw2).
  unfold bind. destruct (Hw1 s1) as (result & Hres). destruct (Hw2 s1) as (evs & T & F).
  cbv [trace_of client_traced] in T.
  destruct (work s1) as [s2 res]. cbn [fst snd] in *. subst res.
  unfold ret. exists s2, result, evs. split; [ reflexivity | ].
  split; [ | assumption ].
  rewrite T. unfold s1. cbn [trace add_event set_env]. rewrite <- app_assoc. reflexivity.
Qed.

Lemma round_fetches f l (s : St W) p :
  url l = page_url p -> serves f p ->
  exists s' result evs,
    round f l s = (s', Ok (follow l result (page_link p)))
    /\ trace s' = trace s ++ evs
    /\ pages_of evs = [p].
Proof.
  intros Hu Hp.
  specialize (Hp (env s) ("Token " ++ token (ocpiEndpoint (this s)))%string).
  rewrite <- Hu in Hp. destruct f as [company | | ]; unfold answer in Hp; cbn [round].
  - destruct (axios_get_locations (env s) (url l) _) as [w' [r | e]] eqn:Hget;
      cbn [snd] in Hp; [ | discriminate ].
    destruct (round_generic axios_get_locations GetLocations
                (pullLocations_items company) l s w' r Hget
                (fun items res => returns_pullLocations_items company items res)
                (fun items res => only_pullLocations_items no_page company items
                                    (fun r x => pullLocations_item_no_page company r x)
                                    res))
      as (s' & result & evs & Hrun & T & F).
    exists s', result. eexists. inversion Hp; subst p. cbn [page_link].
    split; [ exact Hrun | ]. split; [ exact T | ].
    unfold pages_of. rewrite flat_map_app. fold (pages_of evs).
    rewrite (no_page_events _ F). reflexivity.
  - destruct (axios_get_sessions (env s) (url l) _) as [w' [r | e]] eqn:Hget;
      cbn [snd] in Hp; [ | discriminate ].
    destruct (round_generic axios_get_sessions GetSessions
                (fun items res => Promise_map items pullSessions_worker
                                              OCPI_MAX_PARALLEL_REQUESTS res)
                l s w' r Hget
                (fun items res => returns_Promise_map pullSessions_worker items _
                                    returns_pullSessions_worker res)
                (fun items res => only_Promise_map no_page pullSessions_worker items _
                                    pullSessions_worker_no_page res))
      as (s' & result & evs & Hrun & T & F).
    exists s', result. eexists. inversion Hp; subst p. cbn [page_link].
    split; [ exact Hrun | ]. split; [ exact T | ].
    unfold pages_of. rewrite flat_map_app. fold (pages_of evs).
    rewrite (no_page_events _ F). reflexivity.
  - destruct (axios_get_cdrs (env s) (url l) _) as [w' [r | e]] eqn:Hget;
      cbn [snd] in Hp; [ | discriminate ].
    destruct (round_generic axios_get_cdrs GetCdrs
                (fun items res => Promise_map items pullCdrs_worker
                                              OCPI_MAX_PARALLEL_REQUESTS res)
                l s w' r Hget
                (fun items res => returns_Promise_map pullCdrs_worker items _
                                    returns_pullCdrs_worker res)
                (fun items res => only_Promise_map no_page pullCdrs_worker items _
                                    pullCdrs_worker_no_page res))
      as (s' & result & evs & Hrun & T & F).
    exists s', result. eexists. inversion Hp; subst p. cbn [page_link].
    split; [ exact Hrun | ]. split; [ exact T | ].
    unfold pages_of. rewrite flat_map_app. fold (pages_of evs).
    rewrite (no_page_events _ F). reflexivity.
Qed.

Lemma logOcpiResult_run a method_ r startTime (s : St W) :
  Logging_logOcpiResult a method_ r startTime s =
  (add_event s (LogOcpiResult a method_ r startTime (now (env s))), Ok tt).
Proof. reflexivity. Qed.

Lemma Chain_company company company' u pages :
  Chain (Locations company) u pages -> Chain (Locations company') u pages.
Proof.
  induction 1 as [p Hp Hlast | p u' rest Hp Hnext H1 H2 _ IH].
  - apply Chain_last; assumption.
  - eapply Chain_next; eauto.
Qed.

(** The page loop of a flow on a chain of pages. *)
Lemma page_loop_fetches_a_chain f u pages :
  Chain f u pages ->
  forall fuel l (s : St W),
    nextResult l = true -> url l = u -> List.length pages <= fuel ->
    exists s' l' evs,
      do_while fuel (round f) nextResult l s = (s', Ok l')
      /\ trace s' = trace s ++ evs
      /\ pages_of evs = pages.
Proof.
  induction 1 as [p Hp Hlast | p u' rest Hp Hnext Hne Hself Hrest IH];
    intros fuel l s Hgo Hu Hfuel.
  - destruct fuel as [| fuel]; [ simpl in Hfuel; lia | ].
    destruct (round_fetches f l s p Hu Hp) as (s' & result & evs & Hrun & T & Hpages).
    cbn [do_while]. unfold bind. rewrite Hrun.
    rewrite <- Hu in Hlast. rewrite (follow_stops l result (page_link p) Hlast).
    cbn [nextResult]. unfold ret.
    exists s'. eexists. exists evs. repeat split; auto.
  - destruct fuel as [| fuel]; [ simpl in Hfuel; lia | ].
    destruct (round_fetches f l s p Hu Hp) as (s' & result & evs & Hrun & T & Hpages).
    cbn [do_while]. unfold bind. rewrite Hrun.
    rewrite <- Hu in Hself.
    rewrite (follow_goes_on l result (page_link p) u' Hnext Hne Hself), Hgo.
    cbn [nextResult].
    destruct (IH fuel {| url := u'; nextResult := true; pull_result := result |} s'
                eq_refl eq_refl ltac:(simpl in Hfuel; lia))
      as (s'' & l'' & evs' & Hloop & T' & Hpages').
    exists s'', l'', (evs ++ evs'). rewrite Hloop. repeat split; auto.
    + rewrite T', T, app_assoc. reflexivity.
    + unfold pages_of in *. rewrite flat_map_app, Hpages, Hpages'. reflexivity.
Qed.

(** What [pullLocations] does before its first request, on a storage that serves. *)
Lemma company_and_sites company0 (s : St W) :
  storage_serves (Locations company0) ->
  exists s' company sites evs,
    (company <- checkAndGetCompany ;;
     sites <- SiteStorage_getSites (company_id company) ;;
     ret (company, sites)) s = (s', Ok (company, sites))
    /\ trace s' = trace s ++ evs
    /\ pages_of evs = [].
Proof.
  intros (Hget & Hsave & Hdb).
  unfold checkAndGetCompany, SiteStorage_getSites, bind, gets, call.
  destruct (Hget (env s) (tenant (this s)) (endpoint_id (ocpiEndpoint (this s))))
    as (w1 & c & E1).
  rewrite E1. destruct c as [company | ]; cbv beta iota; unfold ret.
  - cbn [env add_event set_env].
    pose proof (Hdb w1 "getSites"%string) as E2.
    destruct (database w1 "getSites") as [w2 r2]. cbn [snd] in E2. subst r2.
    do 4 eexists. split; [ reflexivity | ].
    cbn [trace add_event set_env]. rewrite <- !app_assoc.
    split; reflexivity.
  - cbn [env add_event set_env this].
    match goal with
    | |- context [saveCompany w1 ?t ?c] => destruct (Hsave w1 t c) as (w2 & E2); rewrite E2
    end.
    cbv beta iota. cbn [env add_event set_env].
    pose proof (Hdb w2 "getSites"%string) as E3.
    destruct (database w2 "getSites") as [w3 r3]. cbn [snd] in E3. subst r3.
    do 4 eexists. split; [ reflexivity | ].
    cbn [trace add_event set_env]. rewrite <- !app_assoc.
    split; reflexivity.
Qed.

(** C4. Each pull flow (locations, sessions, CDRs) fetches the chain of pages that
    the partner serves from the first address of the flow, and nothing else: when
    each page is reached by the next link of the one before, and the last one has no
    next link, an empty one, or one equal to its own address, the flow, given at
    least as many rounds as there are pages, returns having fetched exactly these
    pages, in order.  After a page the loop stops exactly when the next link does
    not lead on. *)
Theorem pull_flow_fetches_the_chain f partial pages fuel (s : St W) base
  (Hurl : getEndpointUrl (this s) (service_of f) (action_of f) = Returned base)
  (Hstorage : storage_serves f)
  (Hchain : Chain f (first_url f partial (env s) base) pages)
  (Hfuel : List.length pages <= fuel) :
  (exists s' r evs,
      run (flow_of f partial) fuel s = (s', Ok r)
      /\ trace s' = trace s ++ evs
      /\ pages_of evs = pages)
  /\ (forall l result link,
        nextResult l = true ->
        (nextResult (follow l result link) = false
         <-> leads_nowhere (url l) (getNextUrl link))).
Proof.
  split; [ | exact follow_stops_iff ].
  destruct f as [company0 | | ]; cbn [flow_of run service_of action_of first_url] in *.
  - (* pullLocations *)
    unfold pullLocations. unfold bind at 1. unfold gets at 1. cbv beta iota.
    unfold bind at 1. unfold gets at 1. cbv beta iota.
    unfold bind at 1. rewrite Hurl. cbn [lift ret]. cbv beta iota.
    set (u0 := if partial
               then (base ++ "?date_from=" ++ momentFrom (env s) 1 ++ "&limit=5")%string
               else (base ++ "?limit=5")%string) in *.
    assert (Hu : (if partial
                  then from <- gets (fun s => momentFrom (env s) 1) ;;
                       ret (base ++ "?date_from=" ++ from ++ "&limit=5")%string
                  else ret (base ++ "?limit=5")%string) s = (s, Ok u0)).
    { unfold u0. destruct partial; reflexivity. }
    unfold bind at 1. rewrite Hu. cbv beta iota.
    destruct (company_and_sites company0 s Hstorage)
      as (s1 & company & sites0 & e1 & R1 & T1 & P1).
    unfold bind at 1 in R1.
    unfold bind at 1.
    destruct (checkAndGetCompany s) as [s0 [c0 | e0 | ]]; try discriminate R1.
    unfold bind at 1 in R1. unfold bind at 1.
    destruct (SiteStorage_getSites (company_id c0) s0) as [s0' [l0 | e0 | ]];
      try discriminate R1.
    unfold ret in R1. injection R1 as -> -> ->.
    unfold bind at 1. unfold modify at 1. cbv beta iota.
    destruct (page_loop_fetches_a_chain (Locations company) u0 pages
                (Chain_company company0 company u0 pages Hchain) fuel
                {| url := u0; nextResult := true; pull_result := empty_result |}
                (set_existingSites s1 sites0) eq_refl eq_refl Hfuel)
      as (s2 & l2 & e2 & R2 & T2 & P2).
    cbn [round] in R2. unfold bind at 1. rewrite R2. cbv beta iota.
    unfold bind. rewrite logOcpiResult_run. unfold ret.
    do 3 eexists. split; [ reflexivity | ].
    cbn [trace add_event]. rewrite T2. cbn [trace set_existingSites]. rewrite T1.
    rewrite <- !app_assoc. split; [ reflexivity | ].
    unfold pages_of in *. rewrite !flat_map_app, P1, P2. cbn. apply app_nil_r.
  - (* pullSessions *)
    unfold pullSessions. unfold bind at 1. unfold gets at 1. cbv beta iota.
    unfold bind at 1. unfold gets at 1. cbv beta iota.
    unfold bind at 1. rewrite Hurl. cbn [lift ret]. cbv beta iota.
    unfold bind at 1. unfold gets at 1. cbv beta iota zeta.
    destruct (page_loop_fetches_a_chain Sessions _ pages Hchain fuel
                {| url := (base ++ "?date_from=" ++ momentFrom (env s) 2 ++ "&limit=10")%string;
                   nextResult := true; pull_result := empty_result |}
                s eq_refl eq_refl Hfuel)
      as (s2 & l2 & e2 & R2 & T2 & P2).
    cbn [round] in R2. unfold bind at 1. rewrite R2. cbv beta iota zeta.
    unfold bind. rewrite logOcpiResult_run. unfold ret.
    do 3 eexists. split; [ reflexivity | ].
    cbn [trace add_event]. rewrite T2. rewrite <- !app_assoc. split; [ reflexivity | ].
    unfold pages_of in *. rewrite !flat_map_app, P2. cbn. apply app_nil_r.
  - (* pullCdrs *)
    unfold pullCdrs. unfold bind at 1. unfold gets at 1. cbv beta iota.
    unfold bind at 1. unfold gets at 1. cbv beta iota.
    unfold bind at 1. rewrite Hurl. cbn [lift ret]. cbv beta iota.
    unfold bind at 1. unfold gets at 1. cbv beta iota zeta.
    destruct (page_loop_fetches_a_chain Cdrs _ pages Hchain fuel
                {| url := (base ++ "?date_from=" ++ momentFrom (env s) 2 ++ "&limit=10")%string;
                   nextResult := true; pull_result := empty_result |}
                s eq_refl eq_refl Hfuel)
      as (s2 & l2 & e2 & R2 & T2 & P2).
    cbn [round] in R2. unfold bind at 1. rewrite R2. cbv beta iota zeta.
    unfold bind. rewrite logOcpiResult_run. unfold ret.
    do 3 eexists. split; [ reflexivity | ].
    cbn [trace add_event]. rewrite T2. rewrite <- !app_assoc. split; [ reflexivity | ].
    unfold pages_of in *. rewrite !flat_map_app, P2. cbn. apply app_nil_r.
Qed.

(** ** The constructor *)

(** C10. Given that the constructor of the base class accepts the role EMSP it is
    called with, constructing the client on an endpoint whose role is not EMSP raises
    the structured [BackendError] of the constructor, and constructing it on an
    endpoint whose role is EMSP succeeds. *)
Theorem constructor_requires_emsp_role tenant settings ocpiEndpoint
  (Hbase : exists c,
      ocpiClient_constructor tenant settings ocpiEndpoint OCPIRole_EMSP = Returned c) :
  (role ocpiEndpoint <> OCPIRole_EMSP ->
   constructor tenant settings ocpiEndpoint =
   Raised (BackendError MODULE_NAME "constructor"
             ("EmspOCPIClient requires OCPI Endpoint with role " ++ OCPIRole_EMSP)%string))
  /\ (role ocpiEndpoint = OCPIRole_EMSP ->
      exists c, constructor tenant settings ocpiEndpoint = Returned c).
Proof.
  destruct Hbase as (c & Hc). unfold constructor. rewrite Hc. split; intros Hrole.
  - destruct (String.eqb_spec (role ocpiEndpoint) OCPIRole_EMSP); [ contradiction | ].
    reflexivity.
  - rewrite Hrole, String.eqb_refl. exists c. reflexivity.
Qed.

(** ** An EVSE without uid *)










(** ** Summaries *)

Lemma silent_events f evs : Forall (silent f) evs -> outcomes f evs = [] /\ delivered f evs = [].
Proof.
  induction 1 as [| e evs [He1 He2] _ [IH1 IH2]]; simpl; auto.
  unfold outcomes, delivered in *. simpl. rewrite He1, He2, IH1, IH2. auto.
Qed.

Lemma outcomes_app f a b : outcomes f (a ++ b) = outcomes f a ++ outcomes f b.
Proof. apply flat_map_app. Qed.

Lemma delivered_app f a b : delivered f (a ++ b) = delivered f a ++ delivered f b.
Proof. apply flat_map_app. Qed.

Lemma succeeded_app a b : succeeded (a ++ b) = (succeeded a + succeeded b)%Z.
Proof. unfold succeeded. rewrite filter_app, length_app. lia. Qed.

Lemma failed_app a b : failed (a ++ b) = (failed a + failed b)%Z.
Proof. unfold failed. rewrite filter_app, length_app. lia. Qed.

Lemma failed_ids_app a b : failed_ids (a ++ b) = failed_ids a ++ failed_ids b.
Proof. unfold failed_ids. rewrite filter_app, map_app. reflexivity. Qed.

Lemma tally_nil f r : tally f [] r r.
Proof.
  constructor; simpl; try (unfold succeeded, failed; simpl; lia).
  - destruct (counts_total f); lia.
  - destruct (counts_total f); auto.
    destruct (objectIDsInFailure r); simpl; auto. rewrite app_nil_r. reflexivity.
Qed.

Lemma tally_app f a b r r1 r2 : tally f a r r1 -> tally f b r1 r2 -> tally f (a ++ b) r r2.
Proof.
  intros [S1 F1 T1 I1] [S2 F2 T2 I2]. constructor.
  - rewrite S2, S1, succeeded_app. lia.
  - rewrite F2, F1, failed_app. lia.
  - rewrite T2. destruct (counts_total f); [ rewrite T1, length_app; lia | exact T1 ].
  - rewrite I2. destruct (counts_total f); [ | exact I1 ].
    rewrite I1. destruct (objectIDsInFailure r); simpl; auto.
    rewrite failed_ids_app, app_assoc. reflexivity.
Qed.

Lemma accounts_nil f r : accounts f [] r r.
Proof. split; [ apply Permutation_refl | apply tally_nil ]. Qed.

Lemma accounts_app f a b r r1 r2 :
  accounts f a r r1 -> accounts f b r1 r2 -> accounts f (a ++ b) r r2.
Proof.
  intros [D1 T1] [D2 T2]. split.
  - rewrite outcomes_app, delivered_app, map_app. apply Permutation_app; assumption.
  - rewrite outcomes_app. eapply tally_app; eauto.
Qed.

Lemma accounts_silent f evs r : Forall (silent f) evs -> accounts f evs r r.
Proof.
  intros H. destruct (silent_events f evs H) as [Ho Hd]. unfold accounts.
  rewrite Ho, Hd. split; [ apply Permutation_refl | apply tally_nil ].
Qed.

Lemma completes_ret f r : completes (W := W) f [] r (ret r).
Proof.
  intros s. exists s, r, []. rewrite app_nil_r.
  do 2 (split; [ reflexivity | ]). split; [ apply Permutation_refl | ].
  split; [ reflexivity | ]. apply tally_nil.
Qed.

Lemma completes_bind f ids1 ids2 r (m : M (St W) OCPIResult)
      (k : OCPIResult -> M (St W) OCPIResult) :
  completes f ids1 r m -> (forall r1, completes f ids2 r1 (k r1)) ->
  completes f (ids1 ++ ids2) r (bind m k).
Proof.
  intros Hm Hk s. destruct (Hm s) as (s1 & r1 & e1 & R1 & T1 & I1 & D1 & A1).
  destruct (Hk r1 s1) as (s2 & r2 & e2 & R2 & T2 & I2 & D2 & A2).
  exists s2, r2, (e1 ++ e2). unfold bind. rewrite R1, R2.
  split; [ reflexivity | ]. split; [ rewrite T2, T1, app_assoc; reflexivity | ].
  split; [ rewrite outcomes_app, map_app; apply Permutation_app; assumption | ].
  split; [ rewrite delivered_app, D1, D2; reflexivity | ].
  rewrite outcomes_app. eapply tally_app; eauto.
Qed.

Lemma completes_perm f ids ids' r (m : M (St W) OCPIResult) :
  Permutation ids ids' -> completes f ids r m -> completes f ids' r m.
Proof.
  intros Hp Hm s. destruct (Hm s) as (s' & r' & evs & R & T & I & D & A0).
  exists s', r', evs. split; [ exact R | ]. split; [ exact T | ].
  split; [ eapply Permutation_trans; eauto | ]. split; assumption.
Qed.

Lemma completes_settles f n r (k : nat -> M (St W) OCPIResult) ids :
  (forall i, completes f ids r (k i)) -> completes f ids r (bind (settles n) k).
Proof.
  intros Hk s. unfold bind, settles. destruct (settlesFirst (env s) n) as [w' i].
  destruct (Hk i (set_env s w')) as (s' & r' & evs & R & T & I & D & A0).
  exists s', r', evs. split; [ exact R | ]. split; [ exact T | ].
  split; [ exact I | ]. split; assumption.
Qed.

Lemma extract_perm {A} i (x : A) l :
  Permutation (fst (extract i x l) :: snd (extract i x l)) (x :: l).
Proof.
  revert x l. induction i as [| i IH]; intros x l; cbn [extract].
  - apply Permutation_refl.
  - destruct l as [| y l]; [ apply Permutation_refl | ].
    specialize (IH y l). destruct (extract i y l) as [z others]. cbn [fst snd] in *.
    eapply Permutation_trans; [ apply perm_swap | ]. apply perm_skip. exact IH.
Qed.

Lemma extract_length {A} i (x : A) l :
  List.length (snd (extract i x l)) = List.length l.
Proof.
  revert x l. induction i as [| i IH]; intros x l; cbn [extract]; [ reflexivity | ].
  destruct l as [| y l]; [ reflexivity | ].
  specialize (IH y l). destruct (extract i y l) as [z others]. cbn [fst snd] in *.
  cbn [List.length]. rewrite IH. reflexivity.
Qed.

(** Every item in flight or in the queue is completed, once. *)
Lemma completes_settle f {A} (id : A -> string)
      (worker : A -> OCPIResult -> M (St W) OCPIResult) :
  (forall x r, completes f [id x] r (worker x r)) ->
  forall pending inFlight queue r,
    pending = List.length inFlight + List.length queue ->
    (inFlight = [] -> queue = []) ->
    completes f (map id (inFlight ++ queue)) r (settle pending inFlight queue worker r).
Proof.
  intros Hw. induction pending as [| pending IH]; intros inFlight queue r Hn He.
  - destruct inFlight; [ | discriminate Hn ]. rewrite (He eq_refl). apply completes_ret.
  - destruct inFlight as [| x others].
    { rewrite (He eq_refl). apply completes_ret. }
    cbn [settle]. apply completes_settles. intros i.
    pose proof (extract_perm i x others) as Hp.
    pose proof (extract_length i x others) as Hl.
    destruct (extract i x others) as [done others']. cbn [fst snd] in Hp, Hl.
    apply (completes_perm f (map id ((done :: others') ++ queue))).
    { apply Permutation_map. apply Permutation_app_tail. exact Hp. }
    cbn [app map]. apply (completes_bind f [id done] (map id (others' ++ queue)));
      [ apply Hw | intros r1 ].
    cbn [List.length] in Hn.
    destruct queue as [| next queue'].
    + apply IH; [ cbn [List.length] in *; lia | reflexivity ].
    + apply (completes_perm f (map id ((others' ++ [next]) ++ queue'))).
      { rewrite <- app_assoc. apply Permutation_refl. }
      apply IH.
      * rewrite length_app. cbn [List.length] in *. lia.
      * intros E. destruct others'; discriminate E.
Qed.

Lemma limit_started {A} c (items : list A) : firstn (limit c items) items = [] -> items = [].
Proof.
  unfold limit. destruct (1 <=? c)%Z eqn:Hc.
  - apply Z.leb_le in Hc. destruct (Z.to_nat c) eqn:E; [ lia | ].
    destruct items; [ reflexivity | discriminate ].
  - rewrite firstn_all. auto.
Qed.

Lemma completes_Promise_map f {A} (id : A -> string)
      (worker : A -> OCPIResult -> M (St W) OCPIResult) items c :
  (forall x r, completes f [id x] r (worker x r)) ->
  forall r, completes f (map id items) r (Promise_map items worker c r).
Proof.
  intros Hw r. unfold Promise_map.
  apply (completes_perm f (map id (firstn (limit c items) items
                                   ++ rev (skipn (limit c items) items)))).
  { apply Permutation_map.
    eapply Permutation_trans;
      [ apply Permutation_app_head; apply Permutation_sym; apply Permutation_rev | ].
    rewrite firstn_skipn. apply Permutation_refl. }
  apply completes_settle; [ exact Hw | | ].
  - rewrite length_rev, <- length_app, firstn_skipn. reflexivity.
  - intros E. apply limit_started in E. subst items. rewrite skipn_nil. reflexivity.
Qed.

Lemma tally_one_ok f id r :
  counts_total f = false -> tally f [(id, true)] r (inc_success r).
Proof.
  intros Hf. constructor; simpl; try rewrite Hf; try reflexivity.
  unfold failed; simpl; lia.
Qed.

Lemma tally_one_ko f id r m :
  counts_total f = false -> tally f [(id, false)] r (push_log (inc_failure r) m).
Proof.
  intros Hf. constructor; simpl; try rewrite Hf; try reflexivity.
  unfold succeeded; simpl; lia.
Qed.

Lemma completes_pullSessions_worker x r :
  completes PullSessions [session_id x] r (pullSessions_worker x r).
Proof.
  intros s. unfold pullSessions_worker, bind, gets, try_catch, call.
  destruct (updateTransaction (env s) (tenant (this s)) x) as [w' [[] | e]];
    cbv beta iota; unfold ret; do 3 eexists;
    (split; [ reflexivity | ]); cbn [trace add_event set_env];
    (split; [ reflexivity | ]); (split; [ reflexivity | ]); (split; [ reflexivity | ]).
  - apply tally_one_ok; reflexivity.
  - apply tally_one_ko; reflexivity.
Qed.

Lemma completes_pullCdrs_worker x r :
  completes PullCdrs [cdr_id x] r (pullCdrs_worker x r).
Proof.
  intros s. unfold pullCdrs_worker, bind, gets, try_catch, call.
  destruct (processCdr (env s) (tenant (this s)) x) as [w' [[] | e]];
    cbv beta iota; unfold ret; do 3 eexists;
    (split; [ reflexivity | ]); cbn [trace add_event set_env];
    (split; [ reflexivity | ]); (split; [ reflexivity | ]); (split; [ reflexivity | ]).
  - apply tally_one_ok; reflexivity.
  - apply tally_one_ko; reflexivity.
Qed.

Lemma completes_observed f {A} (ev : Reply A -> Event) (m : M (St W) A) id r r_ok r_ko :
  halts m -> only (silent f) m ->
  (forall rep, outcome_of f (ev rep) = [(id, returned rep)] /\ delivered_by f (ev rep) = []) ->
  tally f [(id, true)] r r_ok ->
  (forall e, tally f [(id, false)] r (r_ko e)) ->
  completes f [id] r (try_catch (observed ev m ;;; ret r_ok) (fun e => ret (r_ko e))).
Proof.
  intros Hh Ho Hev Hok Hko s. unfold try_catch, bind, observed.
  specialize (Hh s). destruct (Ho s) as (e1 & T1 & F1).
  cbv [trace_of client_traced] in T1.
  destruct (silent_events f e1 F1) as [O1 D1].
  destruct (m s) as [s1 [a | e | ]]; cbn [fst snd] in *; try congruence.
  - exists (add_event s1 (ev (Returned a))), r_ok, (e1 ++ [ev (Returned a)]).
    destruct (Hev (Returned a)) as [E1 E2].
    split; [ reflexivity | ].
    split; [ cbn [trace add_event]; rewrite T1, app_assoc; reflexivity | ].
    assert (Eo : outcomes f (e1 ++ [ev (Returned a)]) = [(id, true)]).
    { rewrite outcomes_app, O1. unfold outcomes. simpl. rewrite E1. reflexivity. }
    rewrite Eo. split; [ reflexivity | ]. split; [ | assumption ].
    rewrite delivered_app, D1. unfold delivered. simpl. rewrite E2. reflexivity.
  - exists (add_event s1 (ev (Raised e))), (r_ko e), (e1 ++ [ev (Raised e)]).
    destruct (Hev (Raised e)) as [E1 E2].
    split; [ reflexivity | ].
    split; [ cbn [trace add_event]; rewrite T1, app_assoc; reflexivity | ].
    assert (Eo : outcomes f (e1 ++ [ev (Raised e)]) = [(id, false)]).
    { rewrite outcomes_app, O1. unfold outcomes. simpl. rewrite E1. reflexivity. }
    rewrite Eo. split; [ reflexivity | ]. split; [ | apply Hko ].
    rewrite delivered_app, D1. unfold delivered. simpl. rewrite E2. reflexivity.
Qed.

Lemma pushToken_silent t : only (silent PushTokens) (pushToken (W := W) t).
Proof. unfold_client. repeat step_only_client; split; reflexivity. Qed.

Lemma processLocation_silent partial location company :
  only (silent (PullLocations partial)) (processLocation (W := W) location company).
Proof. unfold_client. repeat step_only_client; split; reflexivity. Qed.

Lemma completes_pushTokens_worker t r :
  completes PushTokens [uid t] r (pushTokens_worker t r).
Proof.
  unfold pushTokens_worker.
  apply completes_observed.
  - apply halts_pushToken.
  - apply pushToken_silent.
  - intros rep; split; reflexivity.
  - constructor; simpl; try reflexivity;
      try (unfold succeeded, failed; simpl; lia);
      destruct (objectIDsInFailure r); simpl; rewrite ?app_nil_r; reflexivity.
  - intros e. constructor; simpl; try reflexivity;
      try (unfold succeeded, failed; simpl; lia);
      destruct (objectIDsInFailure r); simpl; rewrite ?app_nil_r; reflexivity.
Qed.

Lemma completes_pullLocations_item partial company r x :
  completes (PullLocations partial) [location_id x] r (pullLocations_item company r x).
Proof.
  unfold pullLocations_item.
  apply completes_observed.
  - apply halts_processLocation.
  - apply processLocation_silent.
  - intros rep; split; reflexivity.
  - apply tally_one_ok; reflexivity.
  - intros e. apply tally_one_ko; reflexivity.
Qed.

Lemma completes_pullLocations_items partial company items :
  forall r, completes (PullLocations partial) (map location_id items) r
                      (pullLocations_items company items r).
Proof.
  induction items as [| x items IH]; intros r; simpl.
  - apply completes_ret.
  - apply (completes_bind (PullLocations partial) [location_id x] (map location_id items));
      [ apply completes_pullLocations_item | auto ].
Qed.

(** A page and the work on its items. *)
Lemma page_accounts f (e_get : Event) {A} (id : A -> string) (items : list A) r
      (work : list A -> M (St W) OCPIResult) (s0 : St W) :
  outcome_of f e_get = [] ->
  delivered_by f e_get = map id items ->
  (forall items, completes f (map id items) r (work items)) ->
  exists s' r' evs,
    (if negb (isEmptyArray items) then work items else ret r) (add_event s0 e_get)
    = (s', Ok r')
    /\ trace s' = (trace s0 ++ [e_get]) ++ evs
    /\ accounts f ([e_get] ++ evs) r r'.
Proof.
  intros Ho Hd Hw.
  assert (Hc : completes f (map id items) r
                 (if negb (isEmptyArray items) then work items else ret r)).
  { destruct items as [| x items]; cbn [isEmptyArray negb]; [ apply completes_ret | apply Hw ]. }
  destruct (Hc (add_event s0 e_get)) as (s' & r' & evs & R & T & I & D & A0).
  exists s', r', evs. split; [ exact R | ]. split; [ exact T | ].
  split.
  - rewrite outcomes_app, delivered_app, map_app, D, app_nil_r.
    unfold outcomes at 1, delivered. simpl. rewrite Ho, Hd, !app_nil_r. simpl. exact I.
  - rewrite outcomes_app. unfold outcomes at 1. simpl. rewrite Ho. simpl. exact A0.
Qed.

Lemma bind_ok_inv {A B} (m : M (St W) A) (k : A -> M (St W) B) s s' b :
  bind m k s = (s', Ok b) -> exists s1 a, m s = (s1, Ok a) /\ k a s1 = (s', Ok b).
Proof.
  unfold bind. destruct (m s) as [s1 [a | e | ]]; intros H; try discriminate.
  exists s1, a. auto.
Qed.

Lemma call_ok_inv {A} (f : W -> W * Reply A) (ev : Reply A -> Event) s s' a :
  call f ev s = (s', Ok a) ->
  exists w', f (env s) = (w', Returned a) /\ s' = add_event (set_env s w') (ev (Returned a)).
Proof.
  unfold call. destruct (f (env s)) as [w' [a' | e]]; intros H; inversion H; subst.
  exists w'. auto.
Qed.

Lemma pullSessions_round_accounts l (s s' : St W) l' :
  pullSessions_round l s = (s', Ok l') ->
  exists evs, trace s' = trace s ++ evs
              /\ accounts PullSessions evs (pull_result l) (pull_result l').
Proof.
  unfold pullSessions_round. intros H.
  apply bind_ok_inv in H. destruct H as (s1 & auth & H1 & H).
  unfold authorization, gets in H1. inversion H1; subst s1 auth; clear H1.
  apply bind_ok_inv in H. destruct H as (s1 & response & H1 & H).
  apply call_ok_inv in H1. destruct H1 as (w' & Hget & ->).
  apply bind_ok_inv in H. destruct H as (s2 & result & H2 & H).
  unfold ret in H. inversion H; subst s2 l'; clear H.
  match type of H2 with
  | _ (add_event ?s0 ?e) = _ =>
      destruct (page_accounts PullSessions e session_id (data response) (pull_result l)
                  (fun items => Promise_map items pullSessions_worker OCPI_MAX_PARALLEL_REQUESTS
                                            (pull_result l)) s0
                  eq_refl eq_refl
                  (fun items => completes_Promise_map PullSessions session_id
                                  pullSessions_worker items _
                                  completes_pullSessions_worker (pull_result l)))
        as (s2 & r2 & evs & R & T & Acc)
  end.
  rewrite R in H2. inversion H2; subst s2 r2; clear H2.
  eexists. split.
  - rewrite T. cbn [trace set_env]. rewrite <- app_assoc. reflexivity.
  - unfold follow. destruct (getNextUrl (link response)) as [next | ]; [ | exact Acc ].
    destruct (negb (String.eqb next "") && negb (String.eqb next (url l))); exact Acc.
Qed.

Lemma pullCdrs_round_accounts l (s s' : St W) l' :
  pullCdrs_round l s = (s', Ok l') ->
  exists evs, trace s' = trace s ++ evs
              /\ accounts PullCdrs evs (pull_result l) (pull_result l').
Proof.
  unfold pullCdrs_round. intros H.
  apply bind_ok_inv in H. destruct H as (s1 & auth & H1 & H).
  unfold authorization, gets in H1. inversion H1; subst s1 auth; clear H1.
  apply bind_ok_inv in H. destruct H as (s1 & response & H1 & H).
  apply call_ok_inv in H1. destruct H1 as (w' & Hget & ->).
  apply bind_ok_inv in H. destruct H as (s2 & result & H2 & H).
  unfold ret in H. inversion H; subst s2 l'; clear H.
  match type of H2 with
  | _ (add_event ?s0 ?e) = _ =>
      destruct (page_accounts PullCdrs e cdr_id (data response) (pull_result l)
                  (fun items => Promise_map items pullCdrs_worker OCPI_MAX_PARALLEL_REQUESTS
                                            (pull_result l)) s0
                  eq_refl eq_refl
                  (fun items => completes_Promise_map PullCdrs cdr_id
                                  pullCdrs_worker items _
                                  completes_pullCdrs_worker (pull_result l)))
        as (s2 & r2 & evs & R & T & Acc)
  end.
  rewrite R in H2. inversion H2; subst s2 r2; clear H2.
  eexists. split.
  - rewrite T. cbn [trace set_env]. rewrite <- app_assoc. reflexivity.
  - unfold follow. destruct (getNextUrl (link response)) as [next | ]; [ | exact Acc ].
    destruct (negb (String.eqb next "") && negb (String.eqb next (url l))); exact Acc.
Qed.

Lemma pullLocations_round_accounts partial company l (s s' : St W) l' :
  pullLocations_round company l s = (s', Ok l') ->
  exists evs, trace s' = trace s ++ evs
              /\ accounts (PullLocations partial) evs (pull_result l) (pull_result l').
Proof.
  unfold pullLocations_round. intros H.
  apply bind_ok_inv in H. destruct H as (s1 & auth & H1 & H).
  unfold authorization, gets in H1. inversion H1; subst s1 auth; clear H1.
  apply bind_ok_inv in H. destruct H as (s1 & response & H1 & H).
  apply call_ok_inv in H1. destruct H1 as (w' & Hget & ->).
  apply bind_ok_inv in H. destruct H as (s2 & result & H2 & H).
  unfold ret in H. inversion H; subst s2 l'; clear H.
  match type of H2 with
  | _ (add_event ?s0 ?e) = _ =>
      destruct (page_accounts (PullLocations partial) e location_id (data response)
                  (pull_result l)
                  (fun items => pullLocations_items company items (pull_result l)) s0
                  eq_refl eq_refl
                  (fun items => completes_pullLocations_items partial company items
                                  (pull_result l)))
        as (s2 & r2 & evs & R & T & Acc)
  end.
  rewrite R in H2. inversion H2; subst s2 r2; clear H2.
  eexists. split.
  - rewrite T. cbn [trace set_env]. rewrite <- app_assoc. reflexivity.
  - unfold follow. destruct (getNextUrl (link response)) as [next | ]; [ | exact Acc ].
    destruct (negb (String.eqb next "") && negb (String.eqb next (url l))); exact Acc.
Qed.

Lemma pushTokens_round_accounts l (s s' : St W) l' :
  pushTokens_round l s = (s', Ok l') ->
  exists evs, trace s' = trace s ++ evs
              /\ accounts PushTokens evs (push_result l) (push_result l').
Proof.
  unfold pushTokens_round. intros H.
  apply bind_ok_inv in H. destruct H as (s1 & self & H1 & H).
  unfold gets in H1. inversion H1; subst s1 self; clear H1.
  apply bind_ok_inv in H. destruct H as (s1 & page & H1 & H).
  apply call_ok_inv in H1. destruct H1 as (w' & Hget & ->).
  apply bind_ok_inv in H. destruct H as (s2 & result & H2 & H).
  unfold ret in H. inversion H; subst s2 l'; clear H.
  match type of H2 with
  | _ (add_event ?s0 ?e) = _ =>
      destruct (page_accounts PushTokens e uid (tokens_result page) (push_result l)
                  (fun items => Promise_map items pushTokens_worker OCPI_MAX_PARALLEL_REQUESTS
                                            (push_result l)) s0
                  eq_refl eq_refl
                  (fun items => completes_Promise_map PushTokens uid
                                  pushTokens_worker items _
                                  completes_pushTokens_worker (push_result l)))
        as (s2 & r2 & evs & R & T & Acc)
  end.
  rewrite R in H2. inversion H2; subst s2 r2; clear H2.
  eexists. split.
  - rewrite T. cbn [trace set_env]. rewrite <- app_assoc. reflexivity.
  - exact Acc.
Qed.

Lemma do_while_accounts f {L} (res : L -> OCPIResult) (body : L -> M (St W) L)
      (cond : L -> bool) :
  (forall l s s' l', body l s = (s', Ok l') ->
     exists evs, trace s' = trace s ++ evs /\ accounts f evs (res l) (res l')) ->
  forall fuel l s s' l', do_while fuel body cond l s = (s', Ok l') ->
     exists evs, trace s' = trace s ++ evs /\ accounts f evs (res l) (res l').
Proof.
  intros Hbody. induction fuel as [| fuel IH]; intros l s s' l' H; simpl in H.
  - discriminate.
  - apply bind_ok_inv in H. destruct H as (s1 & l1 & H1 & H).
    destruct (Hbody _ _ _ _ H1) as (e1 & T1 & A1).
    destruct (cond l1).
    + destruct (IH _ _ _ _ H) as (e2 & T2 & A2).
      exists (e1 ++ e2). split; [ rewrite T2, T1, app_assoc; reflexivity | ].
      eapply accounts_app; eauto.
    + unfold ret in H. inversion H; subst. exists e1. auto.
Qed.

Lemma gets_ok_inv {A} (f : St W -> A) s s' a :
  gets f s = (s', Ok a) -> s' = s /\ a = f s.
Proof. unfold gets. intros H; inversion H; auto. Qed.

Lemma lift_ok_inv {A} (r : Reply A) (s s' : St W) a :
  lift r s = (s', Ok a) -> s' = s /\ r = Returned a.
Proof. destruct r; simpl; intros H; inversion H; auto. Qed.

Lemma succeeded_failed o : (succeeded o + failed o)%Z = Z.of_nat (List.length o).
Proof.
  unfold succeeded, failed. induction o as [| [id b] o IH]; [ reflexivity | ].
  destruct b; cbn [filter snd negb List.length]; rewrite !Nat2Z.inj_succ; lia.
Qed.

Lemma uniq_from_spec seen l :
  NoDup (uniq_from seen l)
  /\ forall x, In x (uniq_from seen l) <-> In x l /\ ~ In x seen.
Proof.
  revert seen. induction l as [| y l IH]; intros seen; simpl.
  - split; [ constructor | intros x; tauto ].
  - destruct (existsb (String.eqb y) seen) eqn:E.
    + destruct (IH seen) as (ND & Hin). split; [ exact ND | ].
      intros x. rewrite Hin. split; [ tauto | ].
      intros ([-> | Hx] & Hs); [ | tauto ].
      exfalso. apply Hs. apply existsb_exists in E. destruct E as (z & Hz & Ez).
      apply String.eqb_eq in Ez. subst; assumption.
    + destruct (IH (y :: seen)) as (ND & Hin). split.
      * constructor; [ | exact ND ]. rewrite Hin. simpl. tauto.
      * intros x. simpl. rewrite Hin. simpl.
        assert (Hy : ~ In y seen).
        { intros Hy. assert (existsb (String.eqb y) seen = true); [ | congruence ].
          apply existsb_exists. exists y. split; [ assumption | apply String.eqb_refl ]. }
        split.
        -- intros [<- | (Hx & Hs)]; [ tauto | tauto ].
        -- intros ([<- | Hx] & Hs); [ tauto | ].
           destruct (string_dec y x) as [-> | Hne]; [ tauto | ]. right. tauto.
Qed.

Lemma uniq_spec l : NoDup (uniq l) /\ forall x, In x (uniq l) <-> In x l.
Proof.
  unfold uniq. destruct (uniq_from_spec [] l) as (ND & Hin). split; [ exact ND | ].
  intros x. rewrite Hin. simpl. tauto.
Qed.

Tactic Notation "inv_bind" hyp(H) "as" ident(s1) ident(a) ident(H1) :=
  apply bind_ok_inv in H; destruct H as (s1 & a & H1 & H).

Tactic Notation "inv_gets" hyp(H) "as" ident(s1) ident(a) :=
  let H1 := fresh "H" in
  apply bind_ok_inv in H; destruct H as (s1 & a & H1 & H);
  apply gets_ok_inv in H1; destruct H1 as (-> & ->).

Lemma pull_summary f (r0 r : OCPIResult) evs :
  counts_total f = false ->
  accounts f evs empty_result r0 ->
  success r = success r0 -> failure r = failure r0 ->
  objectIDsInFailure r = objectIDsInFailure r0 ->
  Permutation (map fst (outcomes f evs)) (delivered f evs)
  /\ success r = succeeded (outcomes f evs)
  /\ failure r = failed (outcomes f evs)
  /\ (success r + failure r)%Z = Z.of_nat (List.length (outcomes f evs))
  /\ objectIDsInFailure r = None.
Proof.
  intros Hf [D [S F T I]] Hs Hfl Hi. rewrite Hf in *.
  cbn [success failure objectIDsInFailure empty_result] in *.
  rewrite Hs, Hfl, Hi, S, F, I, !Z.add_0_l.
  repeat split; auto. apply succeeded_failed.
Qed.

(** C2, as the code has it.  When a flow returns its summary [r], with [o] the items
    the run completed (each with its id and whether it succeeded): the items
    completed are exactly the items of the pages fetched, each completed once,
    whatever the order in which the calls of a page settle; [success] and [failure]
    are the numbers of items that succeeded and failed, so [success + failure] is the
    number of items.  [pullSessions], [pullCdrs] and [pushTokens] return
    [total = success + failure].  The pull flows return no collection of failed ids.
    [pushTokens] returns the uid of each failed token, one entry per failure, and
    saves on the endpoint the counters with these uids without duplicates. *)
Theorem summary_accounts_for_the_items f fuel (s s' : St W) r
  (Hrun : run f fuel s = (s', Ok r)) :
  exists evs,
    trace s' = trace s ++ evs
    /\ Permutation (map fst (outcomes f evs)) (delivered f evs)
    /\ success r = succeeded (outcomes f evs)
    /\ failure r = failed (outcomes f evs)
    /\ (success r + failure r)%Z = Z.of_nat (List.length (outcomes f evs))
    /\ match f with
       | PullLocations _ => objectIDsInFailure r = None
       | PullSessions | PullCdrs =>
           total r = (success r + failure r)%Z /\ objectIDsInFailure r = None
       | PushTokens =>
           total r = (success r + failure r)%Z
           /\ objectIDsInFailure r = Some (failed_ids (outcomes f evs))
           /\ lastPatchJobResult (ocpiEndpoint (this s')) =
              Some {| successNbr := success r;
                      failureNbr := failure r;
                      totalNbr := total r;
                      tokenIDsInFailure := uniq (failed_ids (outcomes f evs)) |}
           /\ In (SaveOcpiEndpoint (ocpiEndpoint (this s')) (Returned tt)) evs
           /\ NoDup (uniq (failed_ids (outcomes f evs)))
           /\ (forall x, In x (uniq (failed_ids (outcomes f evs)))
                         <-> In x (failed_ids (outcomes f evs)))
       end.
Proof.
  destruct f as [partial | | | ]; cbn [run] in Hrun.
  - (* pullLocations *)
    unfold pullLocations in Hrun.
    inv_gets Hrun as s1 startTime.
    inv_gets Hrun as s1 self.
    inv_bind Hrun as s1 base H. apply lift_ok_inv in H. destruct H as (-> & Hurl).
    inv_bind Hrun as s1 locationsUrl H.
    assert (Hs1 : s1 = s).
    { destruct partial.
      - inv_gets H as s2 from. unfold ret in H. inversion H; reflexivity.
      - unfold ret in H. inversion H; reflexivity. }
    subst s1. clear H.
    inv_bind Hrun as s1 company H.
    assert (Hc : exists e1, trace s1 = trace s ++ e1
                            /\ Forall (silent (PullLocations partial)) e1).
    { assert (Ho : only (T := client_traced) (silent (PullLocations partial))
                        (checkAndGetCompany (W := W))).
      { unfold checkAndGetCompany. repeat step_only_client; split; reflexivity. }
      destruct (Ho s) as (e1 & T1 & F1). rewrite H in T1. exists e1. auto. }
    destruct Hc as (e1 & T1 & F1). clear H.
    inv_bind Hrun as s2 sites0 H.
    assert (Hg : exists e2, trace s2 = trace s1 ++ e2
                            /\ Forall (silent (PullLocations partial)) e2).
    { assert (Ho : only (T := client_traced) (silent (PullLocations partial))
                        (SiteStorage_getSites (W := W) (company_id company))).
      { unfold SiteStorage_getSites. repeat step_only_client; split; reflexivity. }
      destruct (Ho s1) as (e2 & T2 & F2). rewrite H in T2. exists e2. auto. }
    destruct Hg as (e2 & T2 & F2). clear H.
    inv_bind Hrun as s3 u H. unfold modify in H. inversion H; subst s3 u; clear H.
    inv_bind Hrun as s3 l H.
    destruct (do_while_accounts (PullLocations partial) pull_result
                (pullLocations_round company) nextResult
                (pullLocations_round_accounts partial company) _ _ _ _ _ H)
      as (e3 & T3 & A3).
    cbn [pull_result trace set_existingSites] in *. clear H.
    inv_bind Hrun as s4 u H. rewrite logOcpiResult_run in H. inversion H; subst s4 u; clear H.
    unfold ret in Hrun. inversion Hrun; subst s' r; clear Hrun.
    exists (e1 ++ e2 ++ e3 ++ [LogOcpiResult OCPI_PULL_LOCATIONS "pullLocations"
                                 (pull_result l) (now (env s)) (now (env s3))]).
    split; [ cbn [trace add_event]; rewrite T3, T2, T1, <- !app_assoc; reflexivity | ].
    assert (Acc : accounts (PullLocations partial)
                    (e1 ++ e2 ++ e3 ++ [LogOcpiResult OCPI_PULL_LOCATIONS "pullLocations"
                                          (pull_result l) (now (env s)) (now (env s3))])
                    empty_result (pull_result l)).
    { eapply accounts_app; [ apply accounts_silent; exact F1 | ].
      eapply accounts_app; [ apply accounts_silent; exact F2 | ].
      eapply accounts_app; [ exact A3 | ].
      apply accounts_silent. repeat constructor. }
    apply (pull_summary (PullLocations partial) (pull_result l) (pull_result l) _
             eq_refl Acc); reflexivity.
  - (* pullSessions *)
    unfold pullSessions in Hrun.
    inv_gets Hrun as s1 startTime.
    inv_gets Hrun as s1 self.
    inv_bind Hrun as s1 base H. apply lift_ok_inv in H. destruct H as (-> & Hurl).
    inv_gets Hrun as s1 from.
    inv_bind Hrun as s1 l H.
    destruct (do_while_accounts PullSessions pull_result pullSessions_round nextResult
                pullSessions_round_accounts _ _ _ _ _ H) as (e3 & T3 & A3).
    cbn [pull_result] in *. clear H.
    inv_bind Hrun as s2 u H. rewrite logOcpiResult_run in H. inversion H; subst s2 u; clear H.
    unfold ret in Hrun. inversion Hrun; subst s' r; clear Hrun.
    eexists. split; [ cbn [trace add_event]; rewrite T3, <- ?app_assoc; reflexivity | ].
    match goal with
    | |- context [outcomes _ (e3 ++ ?evs)] =>
        assert (Acc : accounts PullSessions (e3 ++ evs) empty_result (pull_result l))
    end.
    { eapply accounts_app; [ exact A3 | ]. apply accounts_silent. repeat constructor. }
    destruct (pull_summary PullSessions (pull_result l)
                (set_total (pull_result l)
                   (failure (pull_result l) + success (pull_result l)))
                _ eq_refl Acc eq_refl eq_refl eq_refl) as (P1 & P2 & P3 & P4 & P5).
    repeat split; auto. cbn [total success failure set_total]. lia.
  - (* pullCdrs *)
    unfold pullCdrs in Hrun.
    inv_gets Hrun as s1 startTime.
    inv_gets Hrun as s1 self.
    inv_bind Hrun as s1 base H. apply lift_ok_inv in H. destruct H as (-> & Hurl).
    inv_gets Hrun as s1 from.
    inv_bind Hrun as s1 l H.
    destruct (do_while_accounts PullCdrs pull_result pullCdrs_round nextResult
                pullCdrs_round_accounts _ _ _ _ _ H) as (e3 & T3 & A3).
    cbn [pull_result] in *. clear H.
    inv_bind Hrun as s2 u H. rewrite logOcpiResult_run in H. inversion H; subst s2 u; clear H.
    unfold ret in Hrun. inversion Hrun; subst s' r; clear Hrun.
    eexists. split; [ cbn [trace add_event]; rewrite T3, <- ?app_assoc; reflexivity | ].
    match goal with
    | |- context [outcomes _ (e3 ++ ?evs)] =>
        assert (Acc : accounts PullCdrs (e3 ++ evs) empty_result (pull_result l))
    end.
    { eapply accounts_app; [ exact A3 | ]. apply accounts_silent. repeat constructor. }
    destruct (pull_summary PullCdrs (pull_result l)
                (set_total (pull_result l)
                   (failure (pull_result l) + success (pull_result l)))
                _ eq_refl Acc eq_refl eq_refl eq_refl) as (P1 & P2 & P3 & P4 & P5).
    repeat split; auto. cbn [total success failure set_total]. lia.
  - (* pushTokens *)
    unfold pushTokens in Hrun.
    inv_gets Hrun as s1 startTime.
    inv_gets Hrun as s1 lastPatchJobOn.
    inv_bind Hrun as s1 l H.
    destruct (do_while_accounts PushTokens push_result pushTokens_round
                (fun l => negb (isEmptyArray (tokens l)))
                pushTokens_round_accounts _ _ _ _ _ H) as (e3 & T3 & A3).
    cbn [push_result] in *. clear H.
    inv_bind Hrun as s2 u H. unfold modify in H. inversion H; subst s2 u; clear H.
    inv_gets Hrun as s2 self.
    inv_bind Hrun as s2 u H. apply call_ok_inv in H. destruct H as (w' & Hsave & ->).
    destruct u.
    inv_bind Hrun as s3 u H. rewrite logOcpiResult_run in H. inversion H; subst s3 u; clear H.
    unfold ret in Hrun. inversion Hrun; subst s' r; clear Hrun.
    eexists. split; [ cbn [trace add_event set_env set_this]; rewrite T3, <- !app_assoc;
                      reflexivity | ].
    match goal with
    | |- context [outcomes _ (e3 ++ ?evs)] =>
        assert (Eo : outcomes PushTokens (e3 ++ evs) = outcomes PushTokens e3)
          by (rewrite outcomes_app; apply app_nil_r);
        assert (Ed : delivered PushTokens (e3 ++ evs) = delivered PushTokens e3)
          by (rewrite delivered_app; apply app_nil_r);
        rewrite !Eo, !Ed; clear Eo Ed
    end.
    destruct A3 as [D [S F T I]].
    cbn [success failure total objectIDsInFailure counts_total option_map app] in S, F, T, I.
    rewrite Z.add_0_l in S, F, T.
    split; [ exact D | ]. split; [ exact S | ]. split; [ exact F | ].
    split; [ rewrite S, F; apply succeeded_failed | ].
    split; [ rewrite T, S, F; symmetry; apply succeeded_failed | ].
    split; [ exact I | ].
    split; [ cbn [this add_event set_env set_this ocpiEndpoint set_ocpiEndpoint
                  lastPatchJobResult set_lastPatchJob]; rewrite I; reflexivity | ].
    split; [ apply in_or_app; right; left; reflexivity | ].
    apply uniq_spec.
Qed.

(** ** What makes a flow throw *)

Lemma fails_in_service_returns {A} (m : M (St W) A) :
  returns m -> only no_summary m -> fails_in_service m.
Proof.
  intros Hr Ho s. destruct (Ho s) as (evs & T & F). cbv [trace_of client_traced] in T.
  exists evs. split; [ exact T | ]. split; [ exact F | ].
  intros e He. destruct (Hr s) as (a & Ha). congruence.
Qed.

Lemma fails_in_service_bind {A B} (m : M (St W) A) (k : A -> M (St W) B) :
  fails_in_service m -> (forall a, fails_in_service (k a)) -> fails_in_service (bind m k).
Proof.
  intros Hm Hk s. unfold bind. destruct (Hm s) as (e1 & T1 & F1 & X1).
  destruct (m s) as [s1 [a | e | ]]; cbn [fst snd] in *.
  - destruct (Hk a s1) as (e2 & T2 & F2 & X2).
    exists (e1 ++ e2). split; [ rewrite T2, T1, app_assoc; reflexivity | ].
    split; [ apply Forall_app; auto | ].
    intros e He. destruct (X2 e He) as (before & ev & -> & Hev).
    exists (e1 ++ before), ev. rewrite app_assoc. auto.
  - exists e1. split; [ exact T1 | ]. split; [ exact F1 | ].
    intros e' He. inversion He; subst e'. apply X1. reflexivity.
  - exists e1. split; [ exact T1 | ]. split; [ exact F1 | ]. discriminate.
Qed.

Lemma fails_in_service_call {A} (f : W -> W * Reply A) (ev : Reply A -> Event) :
  (forall r, no_summary (ev r)) ->
  (forall e, service_failure (ev (Raised e)) = Some e) ->
  fails_in_service (call f ev).
Proof.
  intros Hq Hf s. unfold call. destruct (f (env s)) as [w' [a | e]]; cbn [fst snd].
  - exists [ev (Returned a)]. split; [ reflexivity | ].
    split; [ constructor; auto | discriminate ].
  - exists [ev (Raised e)]. split; [ reflexivity | ]. split; [ constructor; auto | ].
    intros e' He. inversion He; subst e'. exists [], (ev (Raised e)). auto.
Qed.

Lemma fails_in_service_do_while {L} (body : L -> M (St W) L) (cond : L -> bool) :
  (forall l, fails_in_service (body l)) ->
  forall fuel l, fails_in_service (do_while fuel body cond l).
Proof.
  intros Hb. induction fuel as [| fuel IH]; intros l; cbn [do_while].
  - intros s. exists []. rewrite app_nil_r. split; [ reflexivity | ].
    split; [ constructor | discriminate ].
  - apply fails_in_service_bind; [ apply Hb | intros l' ].
    destruct (cond l'); [ apply IH | ].
    apply fails_in_service_returns; [ apply returns_ret | apply only_ret ].
Qed.

Ltac quiet_step :=
  first [ apply returns_gets | apply returns_ret | apply only_gets | apply only_ret
        | apply only_quiet; intros ?; reflexivity ].

Lemma fails_in_service_gets {A} (f : St W -> A) : fails_in_service (gets f).
Proof. apply fails_in_service_returns; quiet_step. Qed.

Lemma fails_in_service_ret {A} (a : A) : fails_in_service (ret (S := St W) a).
Proof. apply fails_in_service_returns; quiet_step. Qed.

Lemma pushToken_no_summary t : only no_summary (pushToken (W := W) t).
Proof. unfold_client. repeat step_only_client; exact I. Qed.

Lemma processLocation_no_summary location company :
  only no_summary (processLocation (W := W) location company).
Proof. unfold_client. repeat step_only_client; exact I. Qed.

Lemma fails_in_service_page {X} (get : W -> string -> string -> W * Reply (Response X))
      (ev : string -> string -> Reply (Response X) -> Event)
      (work : list X -> OCPIResult -> M (St W) OCPIResult) l :
  (forall u auth r, no_summary (ev u auth r)) ->
  (forall u auth e, service_failure (ev u auth (Raised e)) = Some e) ->
  (forall items r, returns (work items r)) ->
  (forall items r, only no_summary (work items r)) ->
  fails_in_service
    (auth <- authorization ;;
     response <- call (fun w => get w (url l) auth) (ev (url l) auth) ;;
     result <- (if negb (isEmptyArray (data response))
                then work (data response) (pull_result l)
                else ret (pull_result l)) ;;
     ret (follow l result (link response))).
Proof.
  intros Hq Hf Hr Ho.
  apply fails_in_service_bind; [ apply fails_in_service_gets | intros auth ].
  apply fails_in_service_bind; [ apply fails_in_service_call; auto | intros response ].
  apply fails_in_service_bind; [ | intros result; apply fails_in_service_ret ].
  destruct (negb (isEmptyArray (data response)));
    [ apply fails_in_service_returns; auto | apply fails_in_service_ret ].
Qed.

Lemma fails_in_service_round f l : fails_in_service (round (W := W) f l).
Proof.
  destruct f as [company | | ]; cbn [round].
  - apply (fails_in_service_page axios_get_locations GetLocations
             (fun items r => pullLocations_items company items r) l);
      try (intros; exact I); try reflexivity.
    + intros items r. apply returns_pullLocations_items.
    + intros items r. apply only_pullLocations_items. intros r0 x.
      unfold pullLocations_item. repeat step_only_client; try exact I.
      apply processLocation_no_summary.
  - apply (fails_in_service_page axios_get_sessions GetSessions
             (fun items r => Promise_map items pullSessions_worker
                                         OCPI_MAX_PARALLEL_REQUESTS r) l);
      try (intros; exact I); try reflexivity.
    + intros items r. apply returns_Promise_map. apply returns_pullSessions_worker.
    + intros items r. apply only_Promise_map. intros x r0.
      unfold pullSessions_worker. repeat step_only_client; exact I.
  - apply (fails_in_service_page axios_get_cdrs GetCdrs
             (fun items r => Promise_map items pullCdrs_worker
                                         OCPI_MAX_PARALLEL_REQUESTS r) l);
      try (intros; exact I); try reflexivity.
    + intros items r. apply returns_Promise_map. apply returns_pullCdrs_worker.
    + intros items r. apply only_Promise_map. intros x r0.
      unfold pullCdrs_worker. repeat step_only_client; exact I.
Qed.

Lemma fails_in_service_pushTokens_round l : fails_in_service (pushTokens_round (W := W) l).
Proof.
  unfold pushTokens_round.
  apply fails_in_service_bind; [ apply fails_in_service_gets | intros self ].
  apply fails_in_service_bind;
    [ apply fails_in_service_call; [ intros; exact I | reflexivity ] | intros page ].
  apply fails_in_service_bind; [ | intros result; apply fails_in_service_ret ].
  destruct (negb (isEmptyArray (tokens_result page))); [ | apply fails_in_service_ret ].
  apply fails_in_service_returns.
  - apply returns_Promise_map. apply returns_pushTokens_worker.
  - apply only_Promise_map. intros x r0.
    unfold pushTokens_worker. repeat step_only_client; try exact I.
    apply pushToken_no_summary.
Qed.

Lemma throws_in_service_bind {A B} (m : M (St W) A) (k : A -> M (St W) B) :
  fails_in_service m -> (forall a, throws_in_service (k a)) -> throws_in_service (bind m k).
Proof.
  intros Hm Hk s. unfold bind. destruct (Hm s) as (e1 & T1 & F1 & X1).
  destruct (m s) as [s1 [a | e | ]]; cbn [fst snd] in *.
  - destruct (Hk a s1) as (e2 & T2 & X2).
    exists (e1 ++ e2). split; [ rewrite T2, T1, app_assoc; reflexivity | ].
    intros e He. destruct (X2 e He) as (F2 & before & ev & -> & Hev).
    split; [ apply Forall_app; auto | ].
    exists (e1 ++ before), ev. rewrite app_assoc. auto.
  - exists e1. split; [ exact T1 | ]. intros e' He. split; [ exact F1 | ].
    inversion He; subst e'. apply X1. reflexivity.
  - exists e1. split; [ exact T1 | ]. discriminate.
Qed.

(** The end of a flow: the summary is reported and returned. *)
Lemma throws_in_service_report a method_ r startTime :
  throws_in_service (Logging_logOcpiResult (W := W) a method_ r startTime ;;; ret r).
Proof.
  intros s. unfold bind. rewrite logOcpiResult_run. unfold ret.
  cbn [fst snd trace add_event]. eexists. split; [ reflexivity | discriminate ].
Qed.

Ltac service_step :=
  first
    [ match goal with
      | |- fails_in_service (pullLocations_round ?c ?l) =>
          exact (fails_in_service_round (Locations c) l)
      | |- fails_in_service (pullSessions_round ?l) =>
          exact (fails_in_service_round Sessions l)
      | |- fails_in_service (pullCdrs_round ?l) =>
          exact (fails_in_service_round Cdrs l)
      | |- fails_in_service (pushTokens_round ?l) =>
          exact (fails_in_service_pushTokens_round l)
      end
    | apply throws_in_service_report
    | apply throws_in_service_bind; [ | intros ? ]
    | apply fails_in_service_gets
    | apply fails_in_service_ret
    | apply fails_in_service_call; [ intros; exact I | reflexivity ]
    | apply fails_in_service_bind; [ | intros ? ]
    | apply fails_in_service_do_while; intros ?
    | apply fails_in_service_returns;
      [ intros ?; eexists; reflexivity | apply only_quiet; intros ?; reflexivity ]
    | match goal with
      | |- fails_in_service (match ?x with _ => _ end) => destruct x
      end ].

(** X3. A flow throws only when a service it depends on fails, never because an item
    fails.  If [pullLocations], [pullSessions], [pullCdrs] or [pushTokens] throws,
    then either the address of the partner's endpoint could not be resolved, before
    any call, or the last call of the run is a request for a page (to the partner or
    to the token store), or a call to the storage of the company, of the sites or of
    the endpoint, which raised what the flow throws.  In both cases the flow has
    reported no summary. *)
Theorem flow_throws_only_when_a_service_fails f fuel (s : St W) :
  exists evs,
    trace (fst (run f fuel s)) = trace s ++ evs
    /\ forall e,
         snd (run f fuel s) = Throw e ->
         Forall no_summary evs
         /\ ((evs = []
              /\ exists service action, getEndpointUrl (this s) service action = Raised e)
             \/ exists before ev, evs = before ++ [ev] /\ service_failure ev = Some e).
Proof.
  assert (Hurl : forall service action (k : string -> M (St W) OCPIResult),
             (forall u, throws_in_service (k u)) ->
             exists evs,
               trace (fst ((u <- lift (getEndpointUrl (this s) service action) ;; k u) s))
               = trace s ++ evs
               /\ forall e,
                    snd ((u <- lift (getEndpointUrl (this s) service action) ;; k u) s)
                    = Throw e ->
                    Forall no_summary evs
                    /\ ((evs = []
                         /\ exists service action,
                              getEndpointUrl (this s) service action = Raised e)
                        \/ exists before ev, evs = before ++ [ev]
                                             /\ service_failure ev = Some e)).
  { intros service action k Hk. unfold bind.
    destruct (getEndpointUrl (this s) service action) as [u | e0] eqn:Eu; cbn [lift].
    - unfold ret. destruct (Hk u s) as (evs & T & X). exists evs. split; [ exact T | ].
      intros e He. destruct (X e He) as (F & Hlast). split; [ exact F | right; exact Hlast ].
    - unfold throw. exists []. rewrite app_nil_r. split; [ reflexivity | ].
      intros e He. inversion He; subst e0. split; [ constructor | left ].
      split; [ reflexivity | eauto ]. }
  destruct f as [partial | | | ]; cbn [run].
  - unfold pullLocations. unfold bind at 1. unfold gets at 1. cbv beta iota.
    unfold bind at 1. unfold gets at 1. cbv beta iota.
    apply Hurl. intros u. unfold checkAndGetCompany, SiteStorage_getSites.
    repeat service_step.
  - unfold pullSessions. unfold bind at 1. unfold gets at 1. cbv beta iota.
    unfold bind at 1. unfold gets at 1. cbv beta iota.
    apply Hurl. intros u.
    repeat service_step.
  - unfold pullCdrs. unfold bind at 1. unfold gets at 1. cbv beta iota.
    unfold bind at 1. unfold gets at 1. cbv beta iota.
    apply Hurl. intros u.
    repeat service_step.
  - assert (H : throws_in_service (pushTokens (W := W) fuel)).
    { unfold pushTokens. repeat service_step. }
    destruct (H s) as (evs & T & X). exists evs. split; [ exact T | ].
    intros e He. destruct (X e He) as (F & Hlast). split; [ exact F | right; exact Hlast ].
Qed.

(** ** The loop over the EVSEs of a location *)

(** Splits a run of the client along the answers of the collaborators. *)
Ltac run_client_calls :=
  repeat first
    [ progress cbv beta iota zeta
    | progress cbn [fst snd env trace add_event set_env]
    | match goal with
      | |- context [let (_, _) := ?c in _] => destruct c as [? [? | ?]] eqn:?
      | |- context [match ?x with Some _ => _ | None => _ end] => destruct x eqn:?
      | |- context [if ?b then _ else _] => destruct b eqn:?
      end ].

Lemma processEvse_round self location siteArea evse (s : St W) :
  exists evs,
    trace (fst (processEvse self location siteArea evse s)) = trace s ++ evs
    /\ saves evs = saved_as location siteArea evse
    /\ lookups evs = looked_up location evse
    /\ deletions evs = found evs
    /\ (snd (processEvse self location siteArea evse s) = Ok tt
        \/ exists e, snd (processEvse self location siteArea evse s) = Throw e).
Proof.
  unfold processEvse, saved_as, looked_up, removed.
  destruct (evse_uid evse) as [u | ] eqn:Hu; cbn [truthy negb].
  2: { exists []. rewrite app_nil_r. cbn. repeat split; eauto. }
  destruct (String.eqb u "") eqn:Hempty; cbn [negb andb].
  { exists []. rewrite app_nil_r. cbn. repeat split; eauto. }
  destruct (String.eqb (evse_status evse) OCPIEvseStatus_REMOVED) eqn:Hremoved;
    cbn [negb andb].
  - unfold bind, call, Logging_logDebug, emit, modify, ret. run_client_calls.
    all: rewrite <- ?app_assoc; cbn [app].
    all: eexists; split; [ reflexivity | ].
    all: cbn; repeat split; eauto.
  - unfold station_of. destruct (siteArea_site siteArea) as [x | ]; cbn [option_map].
    all: unfold bind, call, Logging_logDebug, emit, modify, ret; run_client_calls.
    all: rewrite <- ?app_assoc; cbn [app].
    all: eexists; split; [ reflexivity | ].
    all: cbn; repeat split; eauto.
Qed.

Lemma saves_app a b : saves (a ++ b) = saves a ++ saves b.
Proof. apply flat_map_app. Qed.

Lemma lookups_app a b : lookups (a ++ b) = lookups a ++ lookups b.
Proof. apply flat_map_app. Qed.

Lemma deletions_app a b : deletions (a ++ b) = deletions a ++ deletions b.
Proof. apply flat_map_app. Qed.

Lemma found_app a b : found (a ++ b) = found a ++ found b.
Proof. apply flat_map_app. Qed.

Lemma evse_loop_run self location siteArea (s : St W) :
  exists evs n,
    trace (fst (for_of (evses location) (processEvse self location siteArea) s))
    = trace s ++ evs
    /\ saves evs = flat_map (saved_as location siteArea) (firstn n (evses location))
    /\ lookups evs = flat_map (looked_up location) (firstn n (evses location))
    /\ deletions evs = found evs
    /\ (snd (for_of (evses location) (processEvse self location siteArea) s) = Ok tt ->
        firstn n (evses location) = evses location).
Proof.
  generalize (evses location) as l. intros l. revert s.
  induction l as [| evse l IH]; intros s; cbn [for_of].
  - exists [], 0. rewrite app_nil_r. repeat split.
  - unfold bind.
    destruct (processEvse_round self location siteArea evse s)
      as (e1 & T1 & S1 & L1 & D1 & R1).
    destruct (processEvse self location siteArea evse s) as [s1 [[] | e | ]];
      cbn [fst snd] in *.
    + destruct (IH s1) as (e2 & n & T2 & S2 & L2 & D2 & R2).
      exists (e1 ++ e2), (Datatypes.S n). cbn [firstn flat_map].
      rewrite saves_app, lookups_app, deletions_app, found_app, S1, S2, L1, L2, D1, D2.
      split; [ rewrite T2, T1, app_assoc; reflexivity | ].
      repeat split. intros Hok. rewrite (R2 Hok). reflexivity.
    + exists e1, 1. cbn [firstn flat_map]. rewrite !app_nil_r.
      repeat split; try assumption. discriminate.
    + destruct R1 as [R1 | (e & R1)]; discriminate R1.
Qed.

(** X4. The loop of [processLocation] over the EVSEs of a location, whatever the
    storage answers.  It handles the EVSEs in order, up to the first one that makes
    it throw.  An EVSE whose status is REMOVED is looked up by the id of the location
    and its uid, and never saved; a charging station is deleted exactly when such a
    look-up found it.  Every other EVSE is saved as the charging station that
    [convertEvseToChargingStation] makes of it, attached to the site area of the
    location: with the id of the site area, the id of its site, and the company of
    the site when the site area carries its site.  When the loop returns, it has
    handled all the EVSEs of the location. *)
Theorem evse_loop_saves_and_removes self location siteArea (s : St W) :
  exists evs n,
    trace (fst (for_of (evses location) (processEvse self location siteArea) s))
    = trace s ++ evs
    /\ saves evs = flat_map (saved_as location siteArea) (firstn n (evses location))
    /\ lookups evs = flat_map (looked_up location) (firstn n (evses location))
    /\ deletions evs = found evs
    /\ (snd (for_of (evses location) (processEvse self location siteArea) s) = Ok tt ->
        firstn n (evses location) = evses location).
Proof. apply evse_loop_run. Qed.

(** ** The pages of the token store *)

Lemma pushTokens_worker_no_request t r :
  only no_token_request (pushTokens_worker (W := W) t r).
Proof. unfold pushTokens_worker. unfold_client. repeat step_only_client; reflexivity. Qed.

Lemma no_token_requests evs : Forall no_token_request evs -> token_requests evs = [].
Proof.
  induction 1 as [| e evs He _ IH]; simpl; auto.
  unfold no_token_request in He. rewrite He. exact IH.
Qed.

(** A round of [pushTokens] that is served the page [page]. *)
Lemma pushTokens_round_serves l (s : St W) w' n page :
  getTokens (env s) (tenant (this s)) DB_RECORD_COUNT_DEFAULT (currentSkip l)
  = (w', Returned {| tokens_count := n; tokens_result := page |}) ->
  exists s' result evs,
    pushTokens_round l s =
    (s', Ok {| push_result := result;
               currentSkip := (currentSkip l + DB_RECORD_COUNT_DEFAULT)%Z;
               tokens := page |})
    /\ trace s' = trace s ++ evs
    /\ Permutation (map fst (outcomes PushTokens evs)) (map uid page)
    /\ token_requests evs = [currentSkip l].
Proof.
  intros Hget. unfold pushTokens_round. unfold bind at 1. unfold gets at 1. cbv beta iota.
  unfold bind at 1. unfold call at 1. rewrite Hget. cbv beta iota. cbn [tokens_result].
  set (e_get := GetTokens DB_RECORD_COUNT_DEFAULT (currentSkip l)
                  (Returned {| tokens_count := n; tokens_result := page |})).
  set (s0 := add_event (set_env s w') e_get).
  pose (work := if negb (isEmptyArray page)
                then Promise_map page pushTokens_worker OCPI_MAX_PARALLEL_REQUESTS
                                 (push_result l)
                else ret (push_result l)).
  assert (Hc : completes PushTokens (map uid page) (push_result l) work).
  { unfold work. destruct page as [| x page]; cbn [isEmptyArray negb];
      [ apply completes_ret | ].
    apply completes_Promise_map. apply completes_pushTokens_worker. }
  assert (Ho : only no_token_request work).
  { unfold work. destruct page as [| x page]; cbn [isEmptyArray negb];
      [ apply only_ret | ].
    apply only_Promise_map. intros x0 r0. apply pushTokens_worker_no_request. }
  destruct (Hc s0) as (s1 & r1 & e1 & R1 & T1 & I1 & _ & _).
  destruct (Ho s0) as (e1' & T1' & F1). cbv [trace_of client_traced] in T1'.
  rewrite R1 in T1'. cbn [fst] in T1'. rewrite T1 in T1'. apply app_inv_head in T1'.
  subst e1'.
  fold work. unfold bind. rewrite R1. unfold ret.
  exists s1, r1, ([e_get] ++ e1). split; [ reflexivity | ].
  split; [ rewrite T1; unfold s0; cbn [trace add_event set_env];
           rewrite <- app_assoc; reflexivity | ].
  split.
  - rewrite outcomes_app. exact I1.
  - unfold token_requests. rewrite flat_map_app. fold (token_requests e1).
    rewrite (no_token_requests _ F1). reflexivity.
Qed.

Lemma page_count_next n d :
  0 < d -> page_count (Datatypes.S n - d) d = n / d.
Proof.
  intros Hd. destruct (Nat.le_gt_cases (Datatypes.S n) d) as [Hle | Hgt].
  - replace (Datatypes.S n - d) with 0 by lia. cbn [page_count].
    symmetry. apply Nat.div_small. lia.
  - destruct (Datatypes.S n - d) as [| m] eqn:E; [ lia | ]. cbn [page_count].
    replace n with (m + 1 * d) by lia. rewrite Nat.div_add by lia. lia.
Qed.

Lemma pushTokens_loop all :
  (0 < DB_RECORD_COUNT_DEFAULT)%Z ->
  serves_tokens all ->
  forall fuel k l (s : St W),
    currentSkip l = (Z.of_nat k * DB_RECORD_COUNT_DEFAULT)%Z ->
    page_count (List.length (skipn (k * Z.to_nat DB_RECORD_COUNT_DEFAULT) all))
               (Z.to_nat DB_RECORD_COUNT_DEFAULT) < fuel ->
    exists s' l' evs,
      do_while fuel pushTokens_round (fun l => negb (isEmptyArray (tokens l))) l s
      = (s', Ok l')
      /\ trace s' = trace s ++ evs
      /\ Permutation (map fst (outcomes PushTokens evs))
                     (map uid (skipn (k * Z.to_nat DB_RECORD_COUNT_DEFAULT) all))
      /\ token_requests evs
         = map (fun j => (Z.of_nat j * DB_RECORD_COUNT_DEFAULT)%Z)
               (seq k (Datatypes.S
                         (page_count
                            (List.length
                               (skipn (k * Z.to_nat DB_RECORD_COUNT_DEFAULT) all))
                            (Z.to_nat DB_RECORD_COUNT_DEFAULT)))).
Proof.
  intros Hsize Hserve.
  set (D := DB_RECORD_COUNT_DEFAULT) in *. set (d := Z.to_nat D).
  assert (Hd : 0 < d) by (unfold d; lia).
  induction fuel as [| fuel IH]; intros k l s Hskip Hfuel; [ lia | ].
  destruct (Hserve (env s) (tenant (this s)) (currentSkip l)) as (w' & n & Hget).
  destruct (pushTokens_round_serves l s w' n _ Hget) as (s1 & r1 & e1 & R1 & T1 & O1 & Q1).
  assert (Hslice : slice all (currentSkip l) D = firstn d (skipn (k * d) all)).
  { unfold slice. rewrite Hskip. fold d.
    replace (Z.to_nat (Z.of_nat k * D)) with (k * d)
      by (unfold d; rewrite Z2Nat.inj_mul, Nat2Z.id by lia; reflexivity).
    reflexivity. }
  fold D in R1, O1. rewrite Hslice in R1, O1.
  cbn [do_while]. unfold bind. rewrite R1. cbn [tokens].
  destruct (skipn (k * d) all) as [| x rest] eqn:Hrest.
  - rewrite firstn_nil. cbn [isEmptyArray negb]. unfold ret.
    exists s1. eexists. exists e1. split; [ reflexivity | ].
    split; [ exact T1 | ]. split; [ rewrite firstn_nil in O1; exact O1 | ].
    rewrite Q1, Hskip. reflexivity.
  - destruct d as [| d'] eqn:Ed; [ lia | ]. cbn [firstn isEmptyArray negb].
    rewrite <- Ed in *.
    match goal with
    | |- context [do_while fuel _ _ ?l1 s1] =>
        destruct (IH (Datatypes.S k) l1 s1) as (s2 & l2 & e2 & R2 & T2 & O2 & Q2)
    end.
    + cbn [currentSkip]. rewrite Hskip. lia.
    + replace (Datatypes.S k * d) with (d + k * d) by lia.
      rewrite <- skipn_skipn, Hrest, length_skipn. cbn [List.length].
      rewrite page_count_next by lia.
      cbn [List.length page_count] in Hfuel. lia.
    + exists s2, l2, (e1 ++ e2). split; [ exact R2 | ].
      split; [ rewrite T2, T1, app_assoc; reflexivity | ].
      replace (Datatypes.S k * d) with (d + k * d) in O2, Q2 by lia.
      rewrite <- skipn_skipn, Hrest in O2, Q2.
      split.
      * rewrite outcomes_app, map_app.
        rewrite <- (firstn_skipn d (x :: rest)), map_app.
        apply Permutation_app; assumption.
      * unfold token_requests in *. rewrite flat_map_app, Q1, Q2, Hskip.
        rewrite length_skipn. cbn [List.length]. rewrite page_count_next by lia.
        cbn [page_count seq map app]. reflexivity.
Qed.

(** X5. [pushTokens] goes through the whole token store.  When the store hands out
    its tokens page by page ([DB_RECORD_COUNT_DEFAULT] tokens a page, a positive
    number), the flow requests the pages at 0, 1, 2, ... times the page size, up to
    and including the first empty page; it pushes every token of the store once,
    whatever order the pushes of a page settle in and whether or not other pushes
    failed; and the loop ends within one round more than there are pages. *)
Theorem pushTokens_pushes_every_token all fuel (s : St W)
  (Hsize : (0 < DB_RECORD_COUNT_DEFAULT)%Z)
  (Hserve : serves_tokens all)
  (Hfuel : page_count (List.length all) (Z.to_nat DB_RECORD_COUNT_DEFAULT) < fuel) :
  exists evs,
    trace (fst (pushTokens fuel s)) = trace s ++ evs
    /\ snd (pushTokens fuel s) <> OutOfFuel
    /\ Permutation (map fst (outcomes PushTokens evs)) (map uid all)
    /\ token_requests evs
       = map (fun j => (Z.of_nat j * DB_RECORD_COUNT_DEFAULT)%Z)
             (seq 0 (Datatypes.S (page_count (List.length all)
                                             (Z.to_nat DB_RECORD_COUNT_DEFAULT)))).
Proof.
  destruct (pushTokens_loop all Hsize Hserve fuel 0
              {| push_result := {| success := 0; failure := 0; total := 0; logs := [];
                                   objectIDsInFailure := Some [] |};
                 currentSkip := 0; tokens := [] |} s eq_refl Hfuel)
    as (s1 & l1 & e1 & R1 & T1 & O1 & Q1).
  cbn [Nat.mul skipn] in O1, Q1.
  assert (E : exists tail,
             trace (fst (pushTokens fuel s)) = trace s1 ++ tail
             /\ snd (pushTokens fuel s) <> OutOfFuel
             /\ outcomes PushTokens tail = []
             /\ token_requests tail = []).
  { unfold pushTokens, bind, gets. rewrite R1. unfold modify, call.
    cbn [env this set_this].
    match goal with
    | |- context [saveOcpiEndpoint ?w ?t ?ep] =>
        destruct (saveOcpiEndpoint w t ep) as [w2 [[] | e]]
    end; cbv beta iota.
    - rewrite logOcpiResult_run. unfold ret.
      cbn [fst snd trace add_event set_env set_this]. rewrite <- app_assoc.
      eexists. split; [ reflexivity | ]. split; [ discriminate | ].
      split; reflexivity.
    - cbn [fst snd trace add_event set_env set_this].
      eexists. split; [ reflexivity | ]. split; [ discriminate | ].
      split; reflexivity. }
  destruct E as (tail & T2 & Hres & O2 & Q2).
  exists (e1 ++ tail). split; [ rewrite T2, T1, app_assoc; reflexivity | ].
  split; [ exact Hres | ].
  unfold token_requests in *. rewrite outcomes_app, flat_map_app, O2, Q1, Q2.
  rewrite !app_nil_r. split; [ exact O1 | reflexivity ].
Qed.

(** ** Sites and site areas *)

Lemma keeps_ret {A} (a : A) : keeps (W := W) (ret a).
Proof. intros s; simpl; auto. Qed.

Lemma keeps_throw {A} (e : Exn) : keeps (W := W) (throw (A := A) e).
Proof. intros s; simpl; auto. Qed.

Lemma keeps_gets {A} (f : St W -> A) : keeps (gets f).
Proof. intros s; simpl; auto. Qed.

Lemma keeps_emit (e : Event) : keeps (emit (W := W) e).
Proof. intros s; simpl; auto. Qed.

Lemma keeps_call {A} (f : W -> W * Reply A) (ev : Reply A -> Event) : keeps (call f ev).
Proof. intros s. unfold call. destruct (f (env s)) as [w' r]. simpl. auto. Qed.

Lemma keeps_bind {A B} (m : M (St W) A) (k : A -> M (St W) B) :
  keeps m -> (forall a, keeps (k a)) -> keeps (bind m k).
Proof.
  intros Hm Hk s. unfold bind. destruct (Hm s) as (T1 & S1 & A1 & E1).
  destruct (m s) as [s' [a | e | ]]; simpl in *; auto.
  destruct (Hk a s') as (T2 & S2 & A2 & E2).
  rewrite T2, S2, A2, E2. auto.
Qed.

Lemma keeps_for_of {A} (l : list A) (body : A -> M (St W) unit) :
  (forall x, keeps (body x)) -> keeps (for_of l body).
Proof.
  intros Hb. induction l as [| x l IH]; simpl.
  - apply keeps_ret.
  - apply keeps_bind; auto.
Qed.

Ltac step_keeps :=
  match goal with
  | |- keeps (bind _ _) => apply keeps_bind; [ | intros ? ]
  | |- keeps (ret _) => apply keeps_ret
  | |- keeps (throw _) => apply keeps_throw
  | |- keeps (call _ _) => apply keeps_call
  | |- keeps (emit _) => apply keeps_emit
  | |- keeps (gets _) => apply keeps_gets
  | |- keeps (for_of _ _) => apply keeps_for_of; intros ?
  | |- keeps (match ?x with _ => _ end) => destruct x
  end.

Lemma keeps_processEvse self location siteArea evse :
  keeps (processEvse self location siteArea evse).
Proof. unfold processEvse, Logging_logDebug. repeat step_keeps. Qed.

Lemma keeps_evses self location siteArea :
  keeps (if negb (isEmptyArray (evses location))
         then for_of (evses location) (processEvse self location siteArea)
         else ret tt).
Proof.
  destruct (negb (isEmptyArray (evses location))).
  - apply keeps_for_of. intros evse. apply keeps_processEvse.
  - apply keeps_ret.
Qed.

Section DatabaseServes.
Hypothesis Hdb : forall w op, snd (database w op) = Returned tt.

Lemma database_run op (s : St W) :
  call (fun w => database w op) (Database op) s =
  (add_event (set_env s (fst (database (env s) op))) (Database op (Returned tt)), Ok tt).
Proof.
  unfold call. specialize (Hdb (env s) op).
  destruct (database (env s) op) as [w' r]. cbn [fst snd] in *. subst r. reflexivity.
Qed.

Lemma handleSite_run self location company (s : St W) :
  exists s' site,
    handleSite self location company s = (s', Ok site)
    /\ this s' = this s
    /\ siteAreas s' = siteAreas s
    /\ match find (named (siteName_of self location)) (existingSites s) with
       | Some x => site = x /\ sites s' = sites s /\ existingSites s' = existingSites s
       | None =>
           site_name site = siteName_of self location
           /\ site_companyID site = company_id company
           /\ sites s' = sites s ++ [site]
           /\ existingSites s' = existingSites s ++ [site]
       end.
Proof.
  unfold handleSite. unfold bind at 1. unfold gets at 1. cbv beta iota.
  change (fun existingSite : Site => String.eqb (site_name existingSite)
                                       (siteName_of self location))
    with (named (siteName_of self location)).
  destruct (find (named (siteName_of self location)) (existingSites s)) as [x | ] eqn:Hfind.
  - exists s, x. unfold ret. repeat split; reflexivity.
  - unfold bind at 1. unfold gets at 1. cbv beta iota.
    unfold SiteStorage_saveSite. unfold bind. rewrite database_run.
    unfold new_id. cbn [env add_event set_env].
    destruct (newObjectID (fst (database (env s) "saveSite"))) as [w' id].
    unfold modify, ret. eexists. eexists. split; [ reflexivity | ].
    cbn. repeat split; reflexivity.
Qed.

Lemma handleSiteArea_run location site (s : St W) :
  exists s' a,
    handleSiteArea location site s = (s', Ok a)
    /\ this s' = this s
    /\ sites s' = sites s
    /\ existingSites s' = existingSites s
    /\ match filter (keyed (site_id site) (locationName_of site location)) (siteAreas s) with
       | _ :: _ => siteAreas s' = siteAreas s
       | [] =>
           exists a',
             siteAreas s' = siteAreas s ++ [a']
             /\ keyed (site_id site) (locationName_of site location) a' = true
       end.
Proof.
  unfold handleSiteArea. unfold bind at 1.
  unfold SiteAreaStorage_getSiteAreas. unfold bind at 1. rewrite database_run.
  unfold gets at 1. cbv beta iota. cbn [siteAreas sites add_event set_env].
  change (fun a : SiteArea =>
            option_string_eqb (siteArea_siteID a) (site_id site)
            && String.eqb (siteArea_name a)
                 (site_name site ++ OCPI_SEPARATOR ++ location_id location)%string
            && negb (siteArea_issuer a))
    with (keyed (site_id site) (locationName_of site location)).
  destruct (filter (keyed (site_id site) (locationName_of site location)) (siteAreas s))
    as [| a0 rest] eqn:Hf.
  - cbn [firstn map]. unfold bind at 1. unfold gets at 1. cbv beta iota.
    unfold SiteAreaStorage_saveSiteArea. unfold bind. rewrite database_run.
    unfold new_id. cbn [env add_event set_env].
    match goal with
    | |- context [newObjectID ?w] => destruct (newObjectID w) as [w' id]
    end.
    unfold modify, ret. eexists. eexists. split; [ reflexivity | ].
    cbn [this sites siteAreas existingSites add_event set_env set_siteAreas fst].
    repeat split; try reflexivity.
    eexists. split; [ reflexivity | ].
    unfold keyed, locationName_of.
    cbn [siteArea_siteID siteArea_name siteArea_issuer with_siteArea_id].
    rewrite String.eqb_refl. cbn [negb andb].
    destruct (site_id site); cbn [option_string_eqb]; [ rewrite String.eqb_refl | ];
      reflexivity.
  - cbn [firstn map]. unfold ret. eexists. eexists. split; [ reflexivity | ].
    cbn. repeat split; reflexivity.
Qed.

(** What a processing of a location does to the site collections. *)
Lemma processLocation_stores location company (s : St W) :
  let s1 := fst (processLocation location company s) in
  this s1 = this s
  /\ exists site,
       match find (named (siteName_of (this s) location)) (existingSites s) with
       | Some x => site = x /\ sites s1 = sites s /\ existingSites s1 = existingSites s
       | None =>
           site_name site = siteName_of (this s) location
           /\ site_companyID site = company_id company
           /\ sites s1 = sites s ++ [site]
           /\ existingSites s1 = existingSites s ++ [site]
       end
       /\ match filter (keyed (site_id site) (locationName_of site location)) (siteAreas s) with
          | _ :: _ => siteAreas s1 = siteAreas s
          | [] =>
              exists a',
                siteAreas s1 = siteAreas s ++ [a']
                /\ keyed (site_id site) (locationName_of site location) a' = true
          end.
Proof.
  intros s1.
  destruct (handleSite_run (this s) location company s)
    as (s' & site & Hrun1 & T1 & A1 & H1).
  destruct (handleSiteArea_run location site s') as (s'' & a & Hrun2 & T2 & S2 & E2 & H2).
  assert (Hrun : processLocation location company s =
                 (if negb (isEmptyArray (evses location))
                  then for_of (evses location) (processEvse (this s) location a)
                  else ret tt) s'').
  { unfold processLocation, bind, gets. rewrite Hrun1, Hrun2. reflexivity. }
  unfold s1. rewrite Hrun.
  destruct (keeps_evses (this s) location a s'') as (T3 & S3 & A3 & E3).
  rewrite T3, S3, A3, E3, T2. split; [ exact T1 | ].
  exists site. rewrite S2, E2. split; [ exact H1 | ].
  rewrite A1 in H2. exact H2.
Qed.

Lemma find_app_none {A} (p : A -> bool) l x :
  find p l = None -> p x = true -> find p (l ++ [x]) = Some x.
Proof.
  induction l as [| y l IH]; simpl; intros Hn Hx.
  - rewrite Hx. reflexivity.
  - destruct (p y); [ discriminate | auto ].
Qed.

Lemma find_app_some {A} (p : A -> bool) l l' x :
  find p l = Some x -> find p (l ++ l') = Some x.
Proof.
  induction l as [| y l IH]; simpl; intros H; [ discriminate | ].
  destruct (p y); auto.
Qed.

Lemma processLocation_settles location company (s : St W) :
  settled location (fst (processLocation location company s)).
Proof.
  destruct (processLocation_stores location company s) as (T1 & site & H1 & H2).
  cbv zeta in *. unfold settled. rewrite T1. exists site. split.
  - destruct (find (named (siteName_of (this s) location)) (existingSites s))
      as [x | ] eqn:Hfind.
    + destruct H1 as (-> & _ & ->). exact Hfind.
    + destruct H1 as (Hn & _ & _ & ->). apply find_app_none; [ exact Hfind | ].
      unfold named. rewrite Hn. apply String.eqb_refl.
  - destruct (filter (keyed (site_id site) (locationName_of site location)) (siteAreas s))
      as [| a0 rest] eqn:Hf.
    + destruct H2 as (a' & -> & Hk). rewrite filter_app, Hf. cbn [filter app].
      rewrite Hk. discriminate.
    + rewrite H2, Hf. discriminate.
Qed.

Lemma settled_replay location company (s : St W) :
  settled location s ->
  let s1 := fst (processLocation location company s) in
  sites s1 = sites s /\ siteAreas s1 = siteAreas s /\ existingSites s1 = existingSites s.
Proof.
  intros (site & Hfind & Hareas).
  destruct (processLocation_stores location company s) as (T1 & site' & H1 & H2).
  cbv zeta in *. rewrite Hfind in H1. destruct H1 as (-> & S1 & E1).
  destruct (filter (keyed (site_id site) (locationName_of site location)) (siteAreas s));
    [ contradiction | ].
  auto.
Qed.

Lemma refresh_run company (s : St W) :
  let s' := fst (refresh company s) in
  this s' = this s /\ sites s' = sites s /\ siteAreas s' = siteAreas s
  /\ existingSites s' = filter (of_company company) (sites s).
Proof.
  unfold refresh, SiteStorage_getSites, bind. rewrite database_run.
  unfold gets, modify. cbn. repeat split; reflexivity.
Qed.

Lemma processLocation_keeps_settled location other company (s : St W) :
  settled location s -> settled location (fst (processLocation other company s)).
Proof.
  intros (x & Hx & Ha).
  destruct (processLocation_stores other company s) as (T1 & site & H1 & H2).
  cbv zeta in *. unfold settled. rewrite T1. exists x. split.
  - destruct (find (named (siteName_of (this s) other)) (existingSites s)).
    + destruct H1 as (_ & _ & ->). exact Hx.
    + destruct H1 as (_ & _ & _ & ->). apply find_app_some. exact Hx.
  - destruct (filter (keyed (site_id site) (locationName_of site other)) (siteAreas s)).
    + destruct H2 as (a' & -> & _). rewrite filter_app.
      intros E. apply app_eq_nil in E. destruct E as (E & _). contradiction.
    + rewrite H2. exact Ha.
Qed.

Lemma processLocation_keeps_fresh other company (s : St W) :
  existingSites s = filter (of_company company) (sites s) ->
  existingSites (fst (processLocation other company s))
  = filter (of_company company) (sites (fst (processLocation other company s))).
Proof.
  intros Hfresh.
  destruct (processLocation_stores other company s) as (T1 & site & H1 & _).
  cbv zeta in *.
  destruct (find (named (siteName_of (this s) other)) (existingSites s)).
  - destruct H1 as (_ & -> & ->). exact Hfresh.
  - destruct H1 as (_ & Hc & -> & ->). rewrite filter_app, <- Hfresh. cbn [filter].
    unfold of_company. rewrite Hc, String.eqb_refl. reflexivity.
Qed.

Lemma process_all_keeps location company others (s : St W) :
  settled location s ->
  existingSites s = filter (of_company company) (sites s) ->
  settled location (process_all company others s)
  /\ existingSites (process_all company others s)
     = filter (of_company company) (sites (process_all company others s)).
Proof.
  revert s. induction others as [| other others IH]; intros s Hset Hfresh; simpl.
  - auto.
  - apply IH.
    + apply processLocation_keeps_settled. exact Hset.
    + apply processLocation_keeps_fresh. exact Hfresh.
Qed.

(** C9. With the database serving its calls, and the working set of sites of the run
    being the sites of the company as the run fetched them: processing a location
    creates at most one site and at most one site area, and leaves the site of the
    location (named after the operator, or the fallback name) in the store, with the
    site area of the location (named site name, separator, location id) stored under
    it.  Processing the same location again creates no site and no site area, neither
    later in the same run (after any other locations) nor in a later run that starts by
    fetching the working set again. *)
Theorem reconciliation_is_idempotent location company others (s : St W)
  (Hfresh : existingSites s = filter (of_company company) (sites s)) :
  let s1 := fst (processLocation location company s) in
  let later := process_all company others s1 in
  let s2 := fst (processLocation location company later) in
  let s3 := fst (processLocation location company (fst (refresh company later))) in
  (sites s2 = sites later /\ siteAreas s2 = siteAreas later)
  /\ (sites s3 = sites later /\ siteAreas s3 = siteAreas later)
  /\ List.length (sites s1) <= List.length (sites s) + 1
  /\ List.length (siteAreas s1) <= List.length (siteAreas s) + 1
  /\ exists site a,
       In site (sites s1)
       /\ site_name site = siteName_of (this s) location
       /\ of_company company site = true
       /\ In a (siteAreas s1)
       /\ keyed (site_id site) (locationName_of site location) a = true
       /\ (find (named (siteName_of (this s) location)) (existingSites s) = None ->
           sites s1 = sites s ++ [site])
       /\ (filter (keyed (site_id site) (locationName_of site location)) (siteAreas s) = [] ->
           siteAreas s1 = siteAreas s ++ [a]).
Proof.
  cbv zeta.
  pose proof (processLocation_settles location company s) as Hset.
  pose proof (processLocation_keeps_fresh location company s Hfresh) as Hfresh1.
  destruct (processLocation_stores location company s) as (T1 & site & H1 & H2).
  cbv zeta in *.
  set (s1 := fst (processLocation location company s)) in *.
  destruct (process_all_keeps location company others s1 Hset Hfresh1) as (Hset2 & Hfresh2).
  set (later := process_all company others s1) in *.
  split; [ | split; [ | split; [ | split ] ] ].
  - destruct (settled_replay location company later Hset2) as (S2 & A2 & _). auto.
  - destruct (refresh_run company later) as (T3 & S3 & A3 & E3). cbv zeta in *.
    assert (Hset' : settled location (fst (refresh company later))).
    { destruct Hset2 as (x & Hx & Ha). exists x. rewrite T3, E3, <- Hfresh2, A3. auto. }
    destruct (settled_replay location company _ Hset') as (S4 & A4 & _).
    cbv zeta in *. rewrite S4, A4, S3, A3. auto.
  - destruct (find (named (siteName_of (this s) location)) (existingSites s)).
    + destruct H1 as (_ & -> & _). lia.
    + destruct H1 as (_ & _ & -> & _). rewrite length_app. simpl. lia.
  - destruct (filter (keyed (site_id site) (locationName_of site location)) (siteAreas s)).
    + destruct H2 as (a' & -> & _). rewrite length_app. simpl. lia.
    + rewrite H2. lia.
  - assert (Hsite : In site (sites s1) /\ site_name site = siteName_of (this s) location
                    /\ of_company company site = true
                    /\ (find (named (siteName_of (this s) location)) (existingSites s) = None ->
                        sites s1 = sites s ++ [site])).
    { destruct (find (named (siteName_of (this s) location)) (existingSites s))
        as [x | ] eqn:Hfind.
      - destruct H1 as (-> & -> & _).
        pose proof (find_some _ _ Hfind) as (Hin & Hn).
        rewrite Hfresh in Hin. apply filter_In in Hin. destruct Hin as (Hin & Hc).
        repeat split; auto.
        + unfold named in Hn. apply String.eqb_eq in Hn. exact Hn.
        + discriminate.
      - destruct H1 as (Hn & Hc & -> & _). repeat split; auto.
        + apply in_or_app. right. left. reflexivity.
        + unfold of_company. rewrite Hc. apply String.eqb_refl. }
    destruct Hsite as (Hin & Hn & Hc & Hnew).
    destruct (filter (keyed (site_id site) (locationName_of site location)) (siteAreas s))
      as [| a0 rest] eqn:Hf.
    + destruct H2 as (a' & Ha & Hk). exists site, a'. repeat split; auto.
      rewrite Ha. apply in_or_app. right. left. reflexivity.
    + assert (Ha0 : In a0 (filter (keyed (site_id site) (locationName_of site location))
                                  (siteAreas s))) by (rewrite Hf; left; reflexivity).
      apply filter_In in Ha0. destruct Ha0 as (Ha0 & Hk).
      exists site, a0. rewrite H2. repeat split; auto.
      rewrite Hf. discriminate.
Qed.

Lemma no_station_saves evs : Forall no_station_save evs -> saves evs = [].
Proof.
  induction 1 as [| e evs He _ IH]; [ reflexivity | ].
  cbn [saves flat_map]. fold (saves evs). rewrite IH.
  destruct e; try reflexivity. contradiction He.
Qed.

Lemma handleSite_no_station_save self location company :
  only no_station_save (handleSite (W := W) self location company).
Proof. unfold_client. repeat step_only_client; exact I. Qed.

Lemma handleSiteArea_no_station_save location site :
  only no_station_save (handleSiteArea (W := W) location site).
Proof. unfold_client. repeat step_only_client; exact I. Qed.

(** The site area of a location is created when no site area has its key. *)
Lemma handleSiteArea_creates location site (s : St W) :
  filter (keyed (site_id site) (locationName_of site location)) (siteAreas s) = [] ->
  exists s' a,
    handleSiteArea location site s = (s', Ok a)
    /\ siteArea_site a = None
    /\ siteArea_id a <> None
    /\ siteArea_siteID a = site_id site
    /\ siteAreas s' = siteAreas s ++ [a].
Proof.
  intros Hf. unfold handleSiteArea. unfold bind at 1.
  unfold SiteAreaStorage_getSiteAreas. unfold bind at 1. rewrite database_run.
  unfold gets at 1. cbv beta iota. cbn [siteAreas sites add_event set_env].
  change (fun a : SiteArea =>
            option_string_eqb (siteArea_siteID a) (site_id site)
            && String.eqb (siteArea_name a)
                 (site_name site ++ OCPI_SEPARATOR ++ location_id location)%string
            && negb (siteArea_issuer a))
    with (keyed (site_id site) (locationName_of site location)).
  rewrite Hf. cbn [firstn map]. unfold bind at 1. unfold gets at 1. cbv beta iota.
  unfold SiteAreaStorage_saveSiteArea. unfold bind. rewrite database_run.
  unfold new_id. cbn [env add_event set_env].
  match goal with
  | |- context [newObjectID ?w] => destruct (newObjectID w) as [w' id]
  end.
  unfold modify, ret. eexists. eexists. split; [ reflexivity | ].
  cbn [siteArea_site siteArea_id siteArea_siteID with_siteArea_id siteAreas
       set_siteAreas add_event set_env].
  repeat split; try reflexivity. discriminate.
Qed.

(** X6. The charging stations of a location whose site area is created by the call
    carry no company.  With the database serving its calls, when no stored site area
    has the name of the location's site area (site name, separator, location id),
    [processLocation] creates the site area, and every charging station it saves in
    this call has the id of the new site area and the id of its site, and no company
    id: the company is read from the site that a fetched site area brings along,
    which a site area made in the call does not have. *)
Theorem stations_of_a_new_site_area_have_no_company location company (s : St W)
  (Hnew : forall a, In a (siteAreas s) ->
            siteArea_name a
            <> (siteName_of (this s) location ++ OCPI_SEPARATOR ++ location_id location)%string) :
  exists evs a,
    trace (fst (processLocation location company s)) = trace s ++ evs
    /\ siteAreas (fst (processLocation location company s)) = siteAreas s ++ [a]
    /\ siteArea_id a <> None
    /\ Forall (fun c => chargingStation_companyID c = None
                        /\ chargingStation_siteAreaID c = siteArea_id a
                        /\ chargingStation_siteID c = siteArea_siteID a) (saves evs).
Proof.
  destruct (handleSite_run (this s) location company s)
    as (s1 & site & Hrun1 & T1 & A1 & H1).
  destruct (handleSite_no_station_save (this s) location company s) as (e1 & E1 & F1).
  cbv [trace_of client_traced] in E1. rewrite Hrun1 in E1. cbn [fst] in E1.
  assert (Hname : site_name site = siteName_of (this s) location).
  { destruct (find (named (siteName_of (this s) location)) (existingSites s)) as [x | ] eqn:Hfind.
    - destruct H1 as (-> & _). apply find_some in Hfind. destruct Hfind as (_ & Hn).
      unfold named in Hn. apply String.eqb_eq in Hn. exact Hn.
    - destruct H1 as (Hn & _). exact Hn. }
  assert (Hf : filter (keyed (site_id site) (locationName_of site location)) (siteAreas s1)
               = []).
  { rewrite A1. revert Hnew. generalize (siteAreas s) as l.
    induction l as [| a l IHl]; intros Hnew; [ reflexivity | ].
    cbn [filter].
    assert (Hk : keyed (site_id site) (locationName_of site location) a = false).
    { unfold keyed, locationName_of. rewrite Hname.
      destruct (String.eqb (siteArea_name a)
                  (siteName_of (this s) location ++ OCPI_SEPARATOR ++ location_id location))
        eqn:E.
      - apply String.eqb_eq in E. exfalso. apply (Hnew a); [ left; reflexivity | exact E ].
      - rewrite andb_false_r. reflexivity. }
    rewrite Hk. apply IHl. intros a' Ha'. apply Hnew. right. exact Ha'. }
  destruct (handleSiteArea_creates location site s1 Hf)
    as (s2 & a & Hrun2 & Hsite & Hid & HsiteID & A2).
  destruct (handleSiteArea_no_station_save location site s1) as (e2 & E2 & F2).
  cbv [trace_of client_traced] in E2. rewrite Hrun2 in E2. cbn [fst] in E2.
  assert (Hrun : processLocation location company s =
                 (if negb (isEmptyArray (evses location))
                  then for_of (evses location) (processEvse (this s) location a)
                  else ret tt) s2).
  { unfold processLocation, bind, gets. rewrite Hrun1, Hrun2. reflexivity. }
  assert (Hloop : exists e3 n,
             trace (fst (processLocation location company s)) = trace s2 ++ e3
             /\ siteAreas (fst (processLocation location company s)) = siteAreas s2
             /\ saves e3 = flat_map (saved_as location a) (firstn n (evses location))).
  { rewrite Hrun.
    destruct (evse_loop_run (this s) location a s2) as (e3 & n & T3 & S3 & _).
    destruct (keeps_evses (this s) location a s2) as (_ & _ & A3 & _).
    destruct (evses location) as [| x l] eqn:El; cbn [isEmptyArray negb].
    - exists [], 0. rewrite app_nil_r. repeat split.
    - exists e3, n. repeat split; assumption. }
  destruct Hloop as (e3 & n & T3 & A3 & S3).
  exists (e1 ++ e2 ++ e3), a.
  split; [ rewrite T3, E2, E1, <- !app_assoc; reflexivity | ].
  split; [ rewrite A3, A2, A1; reflexivity | ].
  split; [ exact Hid | ].
  rewrite !saves_app, (no_station_saves _ F1), (no_station_saves _ F2), S3. cbn [app].
  apply Forall_forall. intros c Hc. apply in_flat_map in Hc.
  destruct Hc as (evse & _ & Hc). unfold saved_as in Hc.
  destruct (truthy (evse_uid evse) && negb (removed evse)); [ | contradiction ].
  destruct Hc as [<- | []]. unfold station_of.
  cbn [chargingStation_companyID chargingStation_siteAreaID chargingStation_siteID].
  rewrite Hsite. repeat split.
Qed.

End DatabaseServes.

End ClientFacts.

(* ================================================================== *)
(** * The properties on the in-memory environments *)
(* ================================================================== *)

Section TaskExamples.
Import OCPIPushCdrsTask TaskEnv.

(** A run on the store [world1]: transaction 1 is the only candidate (2 has its CDR,
    3 has no stop, 4 has no roaming data), its CDR is pushed and saved, and no lock is
    left held. *)
Example processTenant_on_world1 :
  snd (processTenant tenant1 Build_TaskConfig (start world1)) = Ok tt
  /\ candidates_of (trace (fst (processTenant tenant1 Build_TaskConfig (start world1))))
     = [1%Z]
  /\ map (fun p => has_cdr (fst p))
         (transactions (env (fst (processTenant tenant1 Build_TaskConfig (start world1)))))
     = [true; true; false; false]
  /\ held (env (fst (processTenant tenant1 Build_TaskConfig (start world1)))) = [].
Proof. vm_compute. repeat split; reflexivity. Qed.

(** A second run finds no candidate. *)
Example processTenant_twice_on_world1 :
  candidates_of
    (trace (fst (processTenant tenant1 Build_TaskConfig
                   (start (env (fst (processTenant tenant1 Build_TaskConfig
                                       (start world1)))))))) = [].
Proof. vm_compute. reflexivity. Qed.

(** C1 on [world1]: transaction 2 has its CDR; its round returns, leaves the stored
    transactions as they are and makes four calls. *)
Lemma pushCdr_skips_transaction_with_cdr_witness :
  has_cdr (tx 2 (roaming (Some {| cdr_id := "2" |}))) = true
  /\ snd (pushCdr tenant1 2 (start world1)) = Ok tt
  /\ transactions (env (fst (pushCdr tenant1 2 (start world1)))) = transactions world1
  /\ List.length (trace (fst (pushCdr tenant1 2 (start world1)))) = 4.
Proof.
  split; [ reflexivity | ].
  rewrite (pushCdr_skips_transaction_with_cdr (C := collaborators) tenant1 2 (start world1)
             {| lock_tenantID := "t1"; lock_key := "push-cdr-2" |}
             (fst (acquire world1 {| lock_tenantID := "t1"; lock_key := "push-cdr-2" |}))
             (fst (acquire world1 {| lock_tenantID := "t1"; lock_key := "push-cdr-2" |}))
             {| count := 1; result := [tx 2 (roaming (Some {| cdr_id := "2" |}))] |}
             (tx 2 (roaming (Some {| cdr_id := "2" |})))
             ltac:(vm_compute; reflexivity) ltac:(vm_compute; reflexivity)
             eq_refl eq_refl eq_refl).
  repeat split; vm_compute; reflexivity.
Defined.

(** The lock table answers every request. *)
Lemma lock_table_answers :
  (forall w id, exists w' r,
      lockingHelper_acquireOCPIPushCdrLock (Collaborators := collaborators) w
        (tenant_id tenant1) id = (w', Returned r))
  /\ (forall w l, exists w' b,
        lockingManager_release (Collaborators := collaborators) w l = (w', Returned b)).
Proof.
  split.
  - intros w id. cbn. unfold acquire. destruct (existsb _ _); eexists; eexists; reflexivity.
  - intros w l. eexists; eexists; reflexivity.
Defined.

(** C8 on [world1], whose documents are those of four transactions: 1 is stopped and
    waits for its CDR, 2 has its CDR, 3 is not stopped, 4 has no roaming data.  The
    run sends the query and its only candidate is transaction 1. *)
Lemma candidates_are_finished_roaming_without_cdr_witness :
  map to_mdb (transactions world1) = map saveTransaction_document saved1
  /\ exists s' evs,
       processTenant tenant1 Build_TaskConfig (start world1) = (s', Ok tt)
       /\ trace s' = trace (start world1) ++ evs
       /\ In (Aggregate "t1" (Returned (map to_mdb (transactions world1)))) evs
       /\ candidates_of evs = [1%Z].
Proof.
  split; [ reflexivity | ].
  destruct (candidates_are_finished_roaming_without_cdr (C := collaborators)
              tenant1 Build_TaskConfig (start world1)
              (fst (acquire world1 {| lock_tenantID := "t1"; lock_key := "push-cdrs" |}))
              {| lock_tenantID := "t1"; lock_key := "push-cdrs" |}
              (fst (acquire world1 {| lock_tenantID := "t1"; lock_key := "push-cdrs" |}))
              (map to_mdb (transactions world1))
              eq_refl ltac:(vm_compute; reflexivity) ltac:(vm_compute; reflexivity)
              (proj1 lock_table_answers) (proj2 lock_table_answers))
    as (s' & evs & Hrun & T & Hquery & _ & Hsaved).
  exists s', evs. split; [ exact Hrun | ]. split; [ exact T | ].
  split; [ exact Hquery | ]. rewrite (Hsaved saved1 eq_refl). reflexivity.
Defined.

(** C5 on [world_busy], where another process holds the tenant-wide lock and the lock
    of transaction 1. *)
Lemma lock_unavailable_is_skipped_witness :
  processTenant tenant1 Build_TaskConfig (start world_busy) =
    ({| env := world_busy;
        trace := [AcquireOCPIPushCpoCdrsLock "t1" (Returned None)] |}, Ok tt)
  /\ for_of [1%Z; 2%Z] (pushCdr tenant1) (start world_busy) =
     for_of [2%Z] (pushCdr tenant1)
       {| env := world_busy;
          trace := [AcquireOCPIPushCdrLock "t1" 1 (Returned None)] |}.
Proof.
  exact (lock_unavailable_is_skipped (C := collaborators) tenant1 Build_TaskConfig
           (start world_busy) (start world_busy) world_busy world_busy 1%Z [2%Z]
           eq_refl ltac:(vm_compute; reflexivity) ltac:(vm_compute; reflexivity)).
Defined.

End TaskExamples.

Section ClientExamples.
Import EmspOCPIClient ClientEnv.

(** Three pages of sessions, one session failing: the summary of [pullSessions] and
    the addresses it fetched. *)
Example pullSessions_three_pages :
  snd (pullSessions (C := collaborators partner_three_pages) 5 (start world0))
  = Ok {| success := 3; failure := 1; total := 4;
          logs := ["Failed to update OCPI Session ID 'c': Request failed with status code 500"];
          objectIDsInFailure := None |}
  /\ map page_url
         (pages_of (trace (fst (pullSessions (C := collaborators partner_three_pages) 5
                                  (start world0)))))
     = [sessionsUrl0; "page2"; "page3"].
Proof. vm_compute. split; reflexivity. Qed.

(** One page of five sessions with two calls in flight at a time: "a" and "b" are
    started, then the sessions from the end of the page as the calls settle. *)
Example pullSessions_five_sessions :
  outcomes PullSessions
    (trace (fst (pullSessions (C := collaborators partner_five_sessions) 5 (start world0))))
  = [("a", true); ("b", true); ("e", false); ("d", true); ("c", false)]
  /\ option_map (@logs)
       (match snd (pullSessions (C := collaborators partner_five_sessions) 5
                     (start world0)) with
        | Ok r => Some r
        | _ => None
        end)
     = Some ["Failed to update OCPI Session ID 'e': Request failed with status code 500";
             "Failed to update OCPI Session ID 'c': Request failed with status code 500"].
Proof. vm_compute. split; reflexivity. Qed.

(** Three tokens, the partner answering 500 to the second. *)
Example pushTokens_three_tokens :
  snd (pushTokens (C := collaborators partner_three_pages) 5 (start world_tokens))
  = Ok tokens_summary.
Proof. vm_compute. reflexivity. Qed.

(** The second page of CDRs cannot be fetched: [pullCdrs] throws, after the two CDRs
    of the first page were processed. *)
Example pullCdrs_broken_second_page :
  snd (pullCdrs (C := collaborators partner_broken_second_page) 5 (start world0))
  = Throw (Error "Request failed with status code 404")
  /\ outcomes PullCdrs
       (trace (fst (pullCdrs (C := collaborators partner_broken_second_page) 5
                      (start world0))))
     = [("c1", true); ("c2", true)].
Proof. vm_compute. split; reflexivity. Qed.

(** Two pages whose next links lead to each other: the loop is still fetching after
    fifty rounds. *)
Example pullSessions_cycle :
  snd (pullSessions (C := collaborators partner_cycle) 50 (start world0)) = OutOfFuel.
Proof. vm_compute. reflexivity. Qed.

Lemma chain_three_pages :
  Chain (C := collaborators partner_three_pages) Sessions sessionsUrl0
        [page sessionsUrl0 P1; page "page2" P2; page "page3" P3].
Proof.
  apply (Chain_next (C := collaborators partner_three_pages) Sessions
           (page sessionsUrl0 P1) "page2");
    [ intros w auth; reflexivity | reflexivity | discriminate | discriminate | ].
  apply (Chain_next (C := collaborators partner_three_pages) Sessions
           (page "page2" P2) "page3");
    [ intros w auth; reflexivity | reflexivity | discriminate | discriminate | ].
  apply (Chain_last (C := collaborators partner_three_pages) Sessions (page "page3" P3));
    [ intros w auth; reflexivity | left; reflexivity ].
Defined.

Lemma chain_self_link :
  Chain (C := collaborators partner_self_link) Sessions sessionsUrl0
        [page sessionsUrl0 Pself].
Proof.
  apply (Chain_last (C := collaborators partner_self_link) Sessions (page sessionsUrl0 Pself));
    [ intros w auth; reflexivity | right; right; reflexivity ].
Defined.

Lemma chain_locations :
  Chain (C := collaborators partner_locations) (Locations company1) locationsUrl0
        [ {| page_url := locationsUrl0; page_data := LocationsData [L1; L2];
             page_link := None |} ].
Proof.
  apply (Chain_last (C := collaborators partner_locations) (Locations company1)
           {| page_url := locationsUrl0; page_data := LocationsData [L1; L2];
              page_link := None |});
    [ intros w auth; reflexivity | left; reflexivity ].
Defined.

Lemma storage_serves_locations :
  storage_serves (C := collaborators partner_locations) (Locations company1).
Proof.
  split; [ | split ].
  - intros w t id. exists w, None. reflexivity.
  - intros w t c. exists w. reflexivity.
  - intros w op. reflexivity.
Defined.

(** C4 on the two partners of the specification: [pullSessions] fetches the pages
    P1 -> P2 -> P3 in this order and returns; it fetches the page whose next link is
    its own address once and returns.  And [pullLocations] on a partner that serves
    one page of locations. *)
Lemma pull_flow_fetches_the_chain_witness :
  (exists s' r,
      run (C := collaborators partner_three_pages) PullSessions 3 (start world0) = (s', Ok r)
      /\ pages_of (trace s') = [page sessionsUrl0 P1; page "page2" P2; page "page3" P3])
  /\ (exists s' r,
        run (C := collaborators partner_self_link) PullSessions 1 (start world0) = (s', Ok r)
        /\ pages_of (trace s') = [page sessionsUrl0 Pself])
  /\ (exists s' r,
        run (C := collaborators partner_locations) (PullLocations true) 1 (start world0)
        = (s', Ok r)
        /\ map page_url (pages_of (trace s')) = [locationsUrl0]).
Proof.
  split; [ | split ].
  3: { destruct (pull_flow_fetches_the_chain (C := collaborators partner_locations)
                   (Locations company1) true _ 1 (start world0)
                   "https://partner/ocpi/2.1.1/locations"
                   eq_refl storage_serves_locations chain_locations (le_n 1))
         as ((s' & r & evs & Hrun & T & Hpages) & _).
       exists s', r. split; [ exact Hrun | ]. rewrite T. cbn [trace start app].
       rewrite Hpages. reflexivity. }
  - destruct (pull_flow_fetches_the_chain (C := collaborators partner_three_pages)
                Sessions true _ 3 (start world0) "https://partner/ocpi/2.1.1/sessions"
                eq_refl I chain_three_pages (le_n 3))
      as ((s' & r & evs & Hrun & T & Hpages) & _).
    exists s', r. split; [ exact Hrun | ]. rewrite T. exact Hpages.
  - destruct (pull_flow_fetches_the_chain (C := collaborators partner_self_link)
                Sessions true _ 1 (start world0) "https://partner/ocpi/2.1.1/sessions"
                eq_refl I chain_self_link (le_n 1))
      as ((s' & r & evs & Hrun & T & Hpages) & _).
    exists s', r. split; [ exact Hrun | ]. rewrite T. exact Hpages.
Defined.

(** C10 on an endpoint of role CPO and on an endpoint of role EMSP. *)
Lemma constructor_requires_emsp_role_witness :
  constructor (C := collaborators partner_locations) tenant1 settings1 (endpoint OCPIRole_CPO)
  = Raised (BackendError MODULE_NAME "constructor"
              "EmspOCPIClient requires OCPI Endpoint with role EMSP")
  /\ exists c,
       constructor (C := collaborators partner_locations) tenant1 settings1
                   (endpoint OCPIRole_EMSP) = Returned c.
Proof.
  split.
  - apply (proj1 (constructor_requires_emsp_role (C := collaborators partner_locations)
                    tenant1 settings1 (endpoint OCPIRole_CPO)
                    (ex_intro _ _ eq_refl))).
    discriminate.
  - apply (proj2 (constructor_requires_emsp_role (C := collaborators partner_locations)
                    tenant1 settings1 (endpoint OCPIRole_EMSP)
                    (ex_intro _ _ eq_refl))).
    reflexivity.
Defined.


(** C2, as the code has it, on the push of three tokens of which the second fails. *)
Lemma summary_accounts_for_the_items_witness :
  run (C := collaborators partner_three_pages) PushTokens 5 (start world_tokens)
  = (fst (run (C := collaborators partner_three_pages) PushTokens 5 (start world_tokens)),
     Ok tokens_summary)
  /\ exists evs,
       outcomes PushTokens evs = [("T1", true); ("T2", false); ("T3", true)]
       /\ total tokens_summary = (success tokens_summary + failure tokens_summary)%Z
       /\ objectIDsInFailure tokens_summary = Some (failed_ids (outcomes PushTokens evs)).
Proof.
  assert (Hrun : run (C := collaborators partner_three_pages) PushTokens 5 (start world_tokens)
                 = (fst (run (C := collaborators partner_three_pages) PushTokens 5
                           (start world_tokens)), Ok tokens_summary))
    by (vm_compute; reflexivity).
  split; [ exact Hrun | ].
  destruct (summary_accounts_for_the_items (C := collaborators partner_three_pages)
              PushTokens 5 _ _ _ Hrun)
    as (evs & T & D & S & F & N & Htotal & Hids & _).
  exists evs. split; [ | split; [ exact Htotal | exact Hids ] ].
  cbn [trace start app] in T. rewrite <- T. vm_compute. reflexivity.
Defined.

(** C9 on the location [L2]: processed, then [L1], then [L2] again. *)
Lemma reconciliation_is_idempotent_witness :
  sites (fst (processLocation (C := collaborators partner_locations) L2 company1
                (process_all (C := collaborators partner_locations) company1 [L1]
                   (fst (processLocation (C := collaborators partner_locations) L2 company1
                           (start world0))))))
  = sites (process_all (C := collaborators partner_locations) company1 [L1]
             (fst (processLocation (C := collaborators partner_locations) L2 company1
                     (start world0))))
  /\ siteAreas (fst (processLocation (C := collaborators partner_locations) L2 company1
                       (process_all (C := collaborators partner_locations) company1 [L1]
                          (fst (processLocation (C := collaborators partner_locations) L2
                                  company1 (start world0))))))
     = siteAreas (process_all (C := collaborators partner_locations) company1 [L1]
                    (fst (processLocation (C := collaborators partner_locations) L2 company1
                            (start world0)))).
Proof.
  exact (proj1 (reconciliation_is_idempotent (C := collaborators partner_locations)
                  (fun w op => eq_refl) L2 company1 [L1] (start world0) eq_refl)).
Defined.

(** The same two locations processed twice over: one site, and one site area for each
    location. *)
Example two_locations_twice :
  map site_name
      (sites (process_all (C := collaborators partner_locations) company1
                [L2; L1; L2; L1] (start world0)))
  = ["Operator"]
  /\ map siteArea_name
         (siteAreas (process_all (C := collaborators partner_locations) company1
                       [L2; L1; L2; L1] (start world0)))
     = ["Operator-L2"; "Operator-L1"].
Proof. vm_compute. split; reflexivity. Qed.


(** X5 on a store of three tokens handed out two at a time: the pages at 0, 2 and 4
    are requested, and the three tokens are pushed. *)
Lemma pushTokens_pushes_every_token_witness :
  exists evs,
    trace (fst (pushTokens
                  (C := collaborators_with_tokens [tok "T1"; tok "T2"; tok "T3"]
                          partner_three_pages) 3 (start world0)))
    = trace (start world0) ++ evs
    /\ snd (pushTokens
              (C := collaborators_with_tokens [tok "T1"; tok "T2"; tok "T3"]
                      partner_three_pages) 3 (start world0)) <> OutOfFuel
    /\ Permutation (map fst (outcomes PushTokens evs)) ["T1"; "T2"; "T3"]%string
    /\ token_requests evs = [0; 2; 4]%Z.
Proof.
  apply (pushTokens_pushes_every_token
           (C := collaborators_with_tokens [tok "T1"; tok "T2"; tok "T3"] partner_three_pages)
           [tok "T1"; tok "T2"; tok "T3"] 3 (start world0)).
  - reflexivity.
  - intros w tenant skip. eexists. eexists. reflexivity.
  - vm_compute. lia.
Defined.

(** X6 on the location [L2], processed on an empty store. *)
Lemma stations_of_a_new_site_area_have_no_company_witness :
  exists evs a,
    trace (fst (processLocation (C := collaborators partner_locations) L2 company1
                  (start world0)))
    = trace (start world0) ++ evs
    /\ siteAreas (fst (processLocation (C := collaborators partner_locations) L2 company1
                         (start world0)))
       = siteAreas (start world0) ++ [a]
    /\ siteArea_id a <> None
    /\ Forall (fun c => chargingStation_companyID c = None
                        /\ chargingStation_siteAreaID c = siteArea_id a
                        /\ chargingStation_siteID c = siteArea_siteID a) (saves evs).
Proof.
  apply (stations_of_a_new_site_area_have_no_company (C := collaborators partner_locations)
           (fun w op => eq_refl) L2 company1 (start world0)).
  intros a [].
Defined.

(** What C2 says does not hold for every flow.  [pullSessions], with one session out
    of four failing, returns a summary without any collection of failed ids;
    [pushTokens], with a token that fails twice, returns its uid twice (the copy saved
    on the endpoint has it once); [pullLocations], with two locations, returns
    [total = 0]. *)
Lemma summary_is_not_as_described :
  (exists s' r,
      run (C := collaborators partner_three_pages) PullSessions 5 (start world0) = (s', Ok r)
      /\ failed_ids (outcomes PullSessions (trace s')) = ["c"]
      /\ objectIDsInFailure r = None
      /\ ~ described_summary (outcomes PullSessions (trace s')) r)
  /\ (exists s' r,
        run (C := collaborators partner_three_pages) PushTokens 5 (start world_token_twice)
        = (s', Ok r)
        /\ objectIDsInFailure r = Some ["T2"; "T2"]
        /\ option_map tokenIDsInFailure (lastPatchJobResult (ocpiEndpoint (this s')))
           = Some ["T2"]
        /\ ~ described_summary (outcomes PushTokens (trace s')) r)
  /\ (exists s' r,
        run (C := collaborators partner_locations) (PullLocations true) 5 (start world0)
        = (s', Ok r)
        /\ success r = 1%Z /\ failure r = 1%Z /\ total r = 0%Z
        /\ ~ described_summary (outcomes (PullLocations true) (trace s')) r).
Proof.
  split; [ | split ].
  - eexists. eexists. split; [ vm_compute; reflexivity | ].
    split; [ vm_compute; reflexivity | ]. split; [ reflexivity | ].
    intros (_ & _ & ids & Hids & _). discriminate Hids.
  - eexists. eexists. split; [ vm_compute; reflexivity | ].
    split; [ reflexivity | ]. split; [ reflexivity | ].
    intros (_ & _ & ids & Hids & Hnd & _). inversion Hids; subst ids.
    inversion Hnd as [| x l Hnotin _]; subst. apply Hnotin. left. reflexivity.
  - eexists. eexists. split; [ vm_compute; reflexivity | ].
    split; [ reflexivity | ]. split; [ reflexivity | ]. split; [ reflexivity | ].
    intros (Htotal & _). discriminate Htotal.
Qed.

End ClientExamples.


(* ================================================================== *)
(** * The remote commands: properties *)
(* ================================================================== *)

Section CommandFacts.
Import EmspOCPIClient RemoteCommands.
Context {W : Type} {C : RemoteCommands.Collaborators W}.

(** Splits a run of a command along the answers of the collaborators. *)
Ltac run_command :=
  repeat first
    [ progress cbv beta iota zeta
    | progress cbn [fst snd RemoteCommands.env RemoteCommands.trace RemoteCommands.this
                    negb orb andb]
    | match goal with
      | |- context [RemoteCommands.lift ?c] =>
          destruct c eqn:?; cbn [RemoteCommands.lift]; unfold ret, throw
      | |- context [let (_, _) := generateUUID ?w in _] =>
          destruct (generateUUID w) as [? ?] eqn:?
      | |- context [let (_, _) := ?c in _] => destruct c as [? [? | ?]] eqn:?
      | |- context [match ?x with Some _ => _ | None => _ end] => destruct x eqn:?
      | |- context [if ?b then _ else _] => destruct b eqn:?
      end ].

Ltac in_cases H :=
  cbn [In app] in H;
  repeat match type of H with
         | _ \/ _ => destruct H as [H | H]
         end;
  try contradiction; try discriminate H.

(** X7. [remoteStartSession] sends a start command only for a tag of this
    organisation that is active and belongs to a user of this organisation.  Every
    command it sends goes to the commands endpoint of the partner, carries the token
    of the endpoint, names the charging station as the EVSE, carries the tag as the
    token (uid the id of the tag, auth_id the id of its user), and asks for the answer
    at the local commands endpoint under the authorization id that was drawn for it.
    For a tag that is missing, not of this organisation, not active, or whose user is
    missing or not of this organisation, the method throws a [BackendError] and sends
    nothing.  It sends at most one command, and when it returns, it returns what the
    partner answered to it. *)
Theorem remoteStartSession_sends_for_usable_tags_only chargingStation connectorID tagID
        (s : RemoteCommands.St W) :
  exists evs,
    trace (fst (remoteStartSession chargingStation connectorID tagID s)) = trace s ++ evs
    /\ (forall url body auth r,
          In (PostStart url body auth r) evs ->
          exists tag user commandUrl callbackUrl,
            In (GetTag (tenant_id (tenant (this s))) tagID (Returned (Some tag))) evs
            /\ usable tag = true
            /\ tag_user tag = Some user
            /\ uid (start_token body) = tag_id tag
            /\ auth_id (start_token body) = user_id user
            /\ evse_uid body = station_id chargingStation
            /\ In (GenerateUUID (authorization_id body)) evs
            /\ getEndpointUrl (this s) "commands" OCPI_START_SESSION = Returned commandUrl
            /\ url = (commandUrl ++ "/" ++ OCPICommandType_START_SESSION)%string
            /\ getLocalEndpointUrl (this s) "commands" = Returned callbackUrl
            /\ start_response_url body
               = ((callbackUrl ++ "/" ++ OCPICommandType_START_SESSION)
                  ++ "/" ++ authorization_id body)%string
            /\ auth = ("Token " ++ token (ocpiEndpoint (this s)))%string)
    /\ (forall tag,
          In (GetTag (tenant_id (tenant (this s))) tagID (Returned tag)) evs ->
          match tag with
          | Some tag => usable tag = false
          | None => True
          end ->
          commands_sent evs = []
          /\ exists message,
               snd (remoteStartSession chargingStation connectorID tagID s)
               = Throw (BackendError RemoteCommands.MODULE_NAME "remoteStartSession" message))
    /\ (forall response,
          snd (remoteStartSession chargingStation connectorID tagID s) = Ok response ->
          exists url body auth st,
            commands_sent evs
            = [PostStart url body auth (Returned {| status := st; reply_data := response |})])
    /\ List.length (commands_sent evs) <= 1.
Proof.
  unfold remoteStartSession, RemoteCommands.authorization,
    RemoteCommands.Logging_logDebug, RemoteCommands.emit, bind, RemoteCommands.gets,
    RemoteCommands.call, modify, ret, throw.
  run_command.
  all: rewrite <- ?app_assoc; cbn [app].
  all: match goal with
       | |- exists evs, RemoteCommands.trace ?x = RemoteCommands.trace ?x ++ _ /\ _ =>
           exists []; split; [ symmetry; apply app_nil_r | ]
       | |- _ => eexists; split; [ reflexivity | ]
       end.
  all: split; [ intros url body auth r Hin; in_cases Hin; injection Hin as <- <- <- <- | ].
  all: try match goal with
           | Ht : tag_user ?t = Some ?u |- exists (_ : Tag), _ =>
               exists t, u; do 2 eexists;
               repeat match goal with
                      | |- _ /\ _ => split
                      end;
               try reflexivity; try eassumption;
               try (cbn [In]; auto; fail);
               unfold usable; rewrite Ht;
               destruct (tag_issuer t), (tag_active t), (user_issuer u);
               try discriminate; reflexivity
           end.
  all: split;
    [ intros otag Hin Hbad; in_cases Hin; injection Hin as <-;
      first
        [ split; [ reflexivity | eexists; reflexivity ]
        | exfalso;
          match goal with
          | Ht : tag_user ?t = Some ?u |- _ =>
              unfold usable in Hbad; rewrite Ht in Hbad;
              destruct (tag_issuer t), (tag_active t), (user_issuer u); discriminate
          end ]
    | ].
  all: split;
    [ intros response Hok;
      first
        [ discriminate Hok
        | match goal with
          | a : CommandReply |- _ => destruct a
          end;
          injection Hok as <-; do 4 eexists; reflexivity ]
    | cbn; lia ].
Qed.

(** X8. [remoteStopSession] sends a stop command only for a transaction that exists,
    belongs to this organisation and has an OCPI session.  Every command it sends
    goes to the commands endpoint of the partner (resolved, as in the code, under the
    action of the start command), carries the token of the endpoint, names the OCPI
    session of the transaction, and asks for the answer at the local commands
    endpoint under the id of that session.  For a transaction that is missing,
    belongs to another organisation, or has no OCPI session, the method throws a
    [BackendError] and sends nothing.  It sends at most one command, and when it
    returns, it returns what the partner answered to it. *)
Theorem remoteStopSession_sends_for_local_sessions_only transactionId
        (s : RemoteCommands.St W) :
  exists evs,
    trace (fst (remoteStopSession transactionId s)) = trace s ++ evs
    /\ (forall url body auth r,
          In (PostStop url body auth r) evs ->
          exists transaction session commandUrl callbackUrl,
            In (GetTransaction (tenant_id (tenant (this s))) transactionId
                  (Returned (Some transaction))) evs
            /\ stoppable transaction = true
            /\ session_of transaction = Some session
            /\ stop_session_id body = session_id session
            /\ getEndpointUrl (this s) "commands" OCPI_START_SESSION = Returned commandUrl
            /\ url = (commandUrl ++ "/" ++ OCPICommandType_STOP_SESSION)%string
            /\ getLocalEndpointUrl (this s) "commands" = Returned callbackUrl
            /\ stop_response_url body
               = ((callbackUrl ++ "/" ++ OCPICommandType_STOP_SESSION)
                  ++ "/" ++ session_id session)%string
            /\ auth = ("Token " ++ token (ocpiEndpoint (this s)))%string)
    /\ (forall transaction,
          In (GetTransaction (tenant_id (tenant (this s))) transactionId
                (Returned transaction)) evs ->
          match transaction with
          | Some transaction => stoppable transaction = false
          | None => True
          end ->
          commands_sent evs = []
          /\ exists message,
               snd (remoteStopSession transactionId s)
               = Throw (BackendError RemoteCommands.MODULE_NAME "remoteStopSession" message))
    /\ (forall response,
          snd (remoteStopSession transactionId s) = Ok response ->
          exists url body auth st,
            commands_sent evs
            = [PostStop url body auth (Returned {| status := st; reply_data := response |})])
    /\ List.length (commands_sent evs) <= 1.
Proof.
  unfold remoteStopSession, RemoteCommands.authorization,
    RemoteCommands.Logging_logDebug, RemoteCommands.emit, bind, RemoteCommands.gets,
    RemoteCommands.call, modify, ret, throw.
  run_command.
  all: repeat match goal with
              | H : match RemoteCommands.ocpiData ?t with _ => _ end = _ |- _ =>
                  fold (session_of t) in H
              end.
  all: rewrite <- ?app_assoc; cbn [app].
  all: match goal with
       | |- exists evs, RemoteCommands.trace ?x = RemoteCommands.trace ?x ++ _ /\ _ =>
           exists []; split; [ symmetry; apply app_nil_r | ]
       | |- _ => eexists; split; [ reflexivity | ]
       end.
  all: split; [ intros url body auth r Hin; in_cases Hin; injection Hin as <- <- <- <- | ].
  all: try match goal with
           | Hs : session_of ?t = Some ?x |- exists (_ : RemoteCommands.Transaction), _ =>
               exists t, x; do 2 eexists;
               repeat match goal with
                      | |- _ /\ _ => split
                      end;
               try reflexivity; try eassumption;
               try (cbn [In]; auto; fail);
               unfold stoppable; rewrite Hs;
               destruct (transaction_issuer t); try discriminate; reflexivity
           end.
  all: split;
    [ intros otransaction Hin Hbad; in_cases Hin; injection Hin as <-;
      first
        [ split; [ reflexivity | eexists; reflexivity ]
        | exfalso;
          match goal with
          | Hs : session_of ?t = Some ?x |- _ =>
              unfold stoppable in Hbad; rewrite Hs in Hbad;
              destruct (transaction_issuer t); discriminate
          end ]
    | ].
  all: split;
    [ intros response Hok;
      first
        [ discriminate Hok
        | match goal with
          | a : CommandReply |- _ => destruct a
          end;
          injection Hok as <-; do 4 eexists; reflexivity ]
    | cbn; lia ].
Qed.

End CommandFacts.


(* ================================================================== *)
(** * The migration of the user settings: properties *)
(* ================================================================== *)

Section MigrationFacts.
Import MigrateUserSettingsTask.
Context {W : Type} {C : MigrateUserSettingsTask.Collaborators W}.

Ltac run_migration :=
  repeat first
    [ progress cbv beta iota zeta
    | progress cbn [fst snd MigrateUserSettingsTask.env MigrateUserSettingsTask.trace]
    | match goal with
      | |- context [let (_, _) := ?c in _] => destruct c as [? [? | ?]] eqn:?
      | |- context [match ?x with Some _ => _ | None => _ end] => destruct x eqn:?
      end ].

(** The migration of one tenant. *)
Lemma migrateTenant_run tenant (s : MigrateUserSettingsTask.St W) :
  exists evs,
    trace (fst (migrateTenant tenant s)) = trace s ++ evs
    /\ Forall saves_initial_settings evs
    /\ Forall no_listing evs
    /\ asked evs = [tenant_id tenant]
    /\ saved_for evs = found_without evs
    /\ (snd (migrateTenant tenant s) = Ok tt
        \/ exists e, snd (migrateTenant tenant s) = Throw e).
Proof.
  unfold migrateTenant, bind, MigrateUserSettingsTask.call, MigrateUserSettingsTask.gets,
    ret.
  run_migration.
  all: rewrite <- ?app_assoc; cbn [app].
  all: eexists; split; [ reflexivity | ].
  all: split; [ repeat constructor | ].
  all: split; [ repeat constructor | ].
  all: repeat match goal with
              | u : unit |- _ => destruct u
              end.
  all: cbn; repeat split; eauto.
Qed.

Lemma migrate_loop tenants (s : MigrateUserSettingsTask.St W) :
  exists evs n,
    trace (fst (for_of tenants migrateTenant s)) = trace s ++ evs
    /\ Forall saves_initial_settings evs
    /\ Forall no_listing evs
    /\ asked evs = map tenant_id (firstn n tenants)
    /\ saved_for evs = found_without evs
    /\ (snd (for_of tenants migrateTenant s) = Ok tt -> firstn n tenants = tenants)
    /\ snd (for_of tenants migrateTenant s) <> OutOfFuel.
Proof.
  revert s. induction tenants as [| tenant tenants IH]; intros s; cbn [for_of].
  - exists [], 0. rewrite app_nil_r. repeat split; try constructor. discriminate.
  - unfold bind. destruct (migrateTenant_run tenant s) as (e1 & T1 & F1 & N1 & A1 & S1 & R1).
    destruct (migrateTenant tenant s) as [s1 [[] | e | ]]; cbn [fst snd] in *.
    + destruct (IH s1) as (e2 & n & T2 & F2 & N2 & A2 & S2 & R2 & H2).
      exists (e1 ++ e2), (Datatypes.S n). cbn [firstn map].
      unfold asked, saved_for, found_without in *.
      rewrite !flat_map_app, A1, A2, S1, S2.
      split; [ rewrite T2, T1, app_assoc; reflexivity | ].
      split; [ apply Forall_app; auto | ].
      split; [ apply Forall_app; auto | ].
      repeat split; auto. intros Hok. rewrite (R2 Hok). reflexivity.
    + exists e1, 1. cbn [firstn map].
      repeat split; try assumption; discriminate.
    + destruct R1 as [R1 | (e & R1)]; discriminate R1.
Qed.

(** X9. The migration gives user settings to the tenants that have none, and to
    no other.  In every run of [migrate], the tenants for which settings are saved are
    exactly those the storage reported without user settings, in the same order, and
    what is saved is always the initial user settings, with the automatic activation
    of accounts switched on; user settings that exist are never written.  The run
    asks for the settings of the tenants in the order of the list it fetched, and
    stops at the first tenant for which a call fails: when it returns, it has gone
    through the whole list. *)
Theorem migrate_initialises_missing_settings_only (s : MigrateUserSettingsTask.St W) :
  exists evs,
    trace (fst (migrate s)) = trace s ++ evs
    /\ Forall saves_initial_settings evs
    /\ saved_for evs = found_without evs
    /\ (forall tenants,
          In (GetTenants (Returned tenants)) evs ->
          exists n,
            asked evs = map tenant_id (firstn n tenants)
            /\ (snd (migrate s) = Ok tt -> asked evs = map tenant_id tenants))
    /\ snd (migrate s) <> OutOfFuel.
Proof.
  unfold migrate, bind, MigrateUserSettingsTask.call.
  destruct (tenantStorage_getTenants (MigrateUserSettingsTask.env s))
    as [w1 [tenants | e]]; cbv beta iota.
  - match goal with
    | |- context [for_of tenants migrateTenant ?s1] =>
        destruct (migrate_loop tenants s1)
          as (e2 & n & T2 & F2 & N2 & A2 & S2 & R2 & H2)
    end.
    exists ([GetTenants (Returned tenants)] ++ e2).
    split; [ rewrite T2; cbn [MigrateUserSettingsTask.trace]; rewrite <- app_assoc;
             reflexivity | ].
    split; [ constructor; [ exact I | exact F2 ] | ].
    split; [ exact S2 | ].
    split; [ | exact H2 ].
    intros tenants' Hin. cbn [In app] in Hin. destruct Hin as [Hin | Hin].
    + injection Hin as <-. exists n. split; [ exact A2 | ].
      intros Hok. cbn [asked flat_map app]. fold (asked e2).
      rewrite A2, (R2 Hok). reflexivity.
    + exfalso. rewrite Forall_forall in N2. exact (N2 _ Hin).
  - exists [GetTenants (Raised e)]. split; [ reflexivity | ].
    split; [ repeat constructor | ]. split; [ reflexivity | ].
    split; [ | discriminate ].
    intros tenants Hin. cbn [In] in Hin. destruct Hin as [Hin | []]. discriminate Hin.
Qed.

(** A tenant that has user settings keeps them through the migration of any tenant,
    and nothing is saved for it; a tenant whose migration returns has user
    settings. *)
Lemma migrateTenant_keeps (Hkeeps : keeps_settings) tenant (s : MigrateUserSettingsTask.St W) :
  exists evs,
    trace (fst (migrateTenant tenant s)) = trace s ++ evs
    /\ Forall no_listing evs
    /\ (forall t, has_user_settings (MigrateUserSettingsTask.env s) t ->
                  has_user_settings (MigrateUserSettingsTask.env (fst (migrateTenant tenant s))) t
                  /\ ~ In t (saved_for evs))
    /\ (snd (migrateTenant tenant s) = Ok tt ->
        has_user_settings (MigrateUserSettingsTask.env (fst (migrateTenant tenant s)))
          (tenant_id tenant)).
Proof.
  destruct Hkeeps as [_ Kget Ksave Kset].
  unfold migrateTenant, bind, MigrateUserSettingsTask.call, MigrateUserSettingsTask.gets,
    ret.
  destruct (settingStorage_getUserSettings (MigrateUserSettingsTask.env s)
              (tenant_id tenant)) as [w1 [[u |] | e]] eqn:Eget;
    cbv beta iota zeta; cbn [fst snd MigrateUserSettingsTask.env MigrateUserSettingsTask.trace].
  - eexists; split; [ reflexivity | ]. split; [ repeat constructor | ].
    split.
    + intros t Ht. split; [ exact (Kget _ _ _ _ Eget _ Ht) | cbn; tauto ].
    + intros _. apply (Kget _ _ _ _ Eget). exists w1, u. exact Eget.
  - match goal with
    | |- context [settingStorage_saveSettings w1 ?t ?u] =>
        destruct (settingStorage_saveSettings w1 t u) as [w2 [[] | e]] eqn:Esave
    end; cbn [fst snd MigrateUserSettingsTask.env MigrateUserSettingsTask.trace].
    + rewrite <- app_assoc. eexists; split; [ reflexivity | ].
      split; [ repeat constructor | ]. split.
      * intros t Ht. split.
        -- exact (Ksave _ _ _ _ _ Esave _ (Kget _ _ _ _ Eget _ Ht)).
        -- cbn. intros [<- | []].
           destruct Ht as (w' & u' & Ht). rewrite Ht in Eget. discriminate Eget.
      * intros _. exact (Kset _ _ _ _ Esave).
    + rewrite <- app_assoc. eexists; split; [ reflexivity | ].
      split; [ repeat constructor | ]. split; [ | discriminate ].
      intros t Ht. split.
      * exact (Ksave _ _ _ _ _ Esave _ (Kget _ _ _ _ Eget _ Ht)).
      * cbn. intros [<- | []].
        destruct Ht as (w' & u' & Ht). rewrite Ht in Eget. discriminate Eget.
  - eexists; split; [ reflexivity | ]. split; [ repeat constructor | ].
    split; [ | discriminate ].
    intros t Ht. split; [ exact (Kget _ _ _ _ Eget _ Ht) | cbn; tauto ].
Qed.

Lemma migrate_loop_keeps (Hkeeps : keeps_settings) tenants
    (s : MigrateUserSettingsTask.St W) :
  exists evs,
    trace (fst (for_of tenants migrateTenant s)) = trace s ++ evs
    /\ Forall no_listing evs
    /\ (forall t, has_user_settings (MigrateUserSettingsTask.env s) t ->
                  has_user_settings
                    (MigrateUserSettingsTask.env (fst (for_of tenants migrateTenant s))) t
                  /\ ~ In t (saved_for evs))
    /\ (snd (for_of tenants migrateTenant s) = Ok tt ->
        forall tenant, In tenant tenants ->
          has_user_settings
            (MigrateUserSettingsTask.env (fst (for_of tenants migrateTenant s)))
            (tenant_id tenant)).
Proof.
  revert s. induction tenants as [| tenant tenants IH]; intros s; cbn [for_of].
  - exists []. rewrite app_nil_r. repeat split; auto. intros _ t [].
  - unfold bind. destruct (migrateTenant_keeps Hkeeps tenant s) as (e1 & T1 & N1 & K1 & R1).
    destruct (migrateTenant tenant s) as [s1 [[] | e | ]]; cbn [fst snd] in *.
    + destruct (IH s1) as (e2 & T2 & N2 & K2 & R2).
      exists (e1 ++ e2).
      split; [ rewrite T2, T1, app_assoc; reflexivity | ].
      split; [ apply Forall_app; auto | ].
      split.
      * intros t Ht. destruct (K1 t Ht) as [Ht1 Hn1]. destruct (K2 t Ht1) as [Ht2 Hn2].
        split; [ exact Ht2 | ].
        unfold saved_for in *. rewrite flat_map_app, in_app_iff. tauto.
      * intros Hok t' [<- | Hin].
        -- apply K2. apply R1. reflexivity.
        -- apply R2; assumption.
    + exists e1. repeat split; try assumption; try apply K1; try assumption; discriminate.
    + exists e1. repeat split; try assumption; try apply K1; try assumption; discriminate.
Qed.

(** X10. A tenant that went through one migration is left alone by the next.
    Provided the storage keeps the settings it has (a tenant that has user settings
    has them after any call, and has them once they were saved), when a run of
    [migrate] returns, every tenant of the list it fetched has user settings, and a
    second run started from the storage it left saves settings for none of them,
    whatever list of tenants the second run fetches. *)
Theorem migrated_tenants_are_left_alone (Hkeeps : keeps_settings)
    (s s' : MigrateUserSettingsTask.St W)
    (Hok : snd (migrate s) = Ok tt)
    (Hnext : MigrateUserSettingsTask.env s' = MigrateUserSettingsTask.env (fst (migrate s))) :
  exists tenants evs evs',
    trace (fst (migrate s)) = trace s ++ GetTenants (Returned tenants) :: evs
    /\ trace (fst (migrate s')) = trace s' ++ evs'
    /\ forall tenant, In tenant tenants ->
         has_user_settings (MigrateUserSettingsTask.env (fst (migrate s))) (tenant_id tenant)
         /\ ~ In (tenant_id tenant) (saved_for evs').
Proof.
  assert (Second :
             exists evs', trace (fst (migrate s')) = trace s' ++ evs'
                          /\ forall t, has_user_settings (MigrateUserSettingsTask.env s') t ->
                                       ~ In t (saved_for evs')).
  { unfold migrate, bind, MigrateUserSettingsTask.call.
    destruct (tenantStorage_getTenants (MigrateUserSettingsTask.env s'))
      as [w1 [tenants | e]] eqn:Elist; cbv beta iota.
    - match goal with
      | |- context [for_of tenants migrateTenant ?s1] =>
          destruct (migrate_loop_keeps Hkeeps tenants s1) as (e2 & T2 & N2 & K2 & R2)
      end.
      exists (GetTenants (Returned tenants) :: e2).
      split; [ rewrite T2; cbn [MigrateUserSettingsTask.trace]; rewrite <- app_assoc;
               reflexivity | ].
      intros t Ht. cbn [saved_for flat_map app]. apply K2.
      cbn [MigrateUserSettingsTask.env]. exact (kept_by_list Hkeeps _ _ _ Elist _ Ht).
    - exists [GetTenants (Raised e)]. split; [ reflexivity | ]. intros t _ []. }
  destruct Second as (evs' & T' & K').
  rewrite Hnext in K'. revert Hok K'.
  unfold migrate, bind, MigrateUserSettingsTask.call.
  destruct (tenantStorage_getTenants (MigrateUserSettingsTask.env s))
    as [w1 [tenants | e]] eqn:Elist; cbv beta iota; [ | discriminate ].
  match goal with
  | |- context [for_of tenants migrateTenant ?s1] =>
      destruct (migrate_loop_keeps Hkeeps tenants s1) as (e2 & T2 & N2 & K2 & R2)
  end.
  intros Hok K'. exists tenants, e2, evs'.
  split; [ rewrite T2; cbn [MigrateUserSettingsTask.trace]; rewrite <- app_assoc;
           reflexivity | ].
  split; [ exact T' | ].
  intros tenant Hin. specialize (R2 Hok tenant Hin). split; [ exact R2 | ].
  apply K'. exact R2.
Qed.

End MigrationFacts.


(** ** The migration on the storage in memory *)

Section MigrationExamples.
Import MigrateUserSettingsTask MigrationEnv.

Lemma memory_has_user_settings w t :
  has_user_settings w t
  <-> exists u, option_map snd (find (fun p => String.eqb (fst p) t) (settings w)) = Some u.
Proof.
  unfold has_user_settings. cbn. unfold getUserSettings. split.
  - intros (w' & u & H). injection H as _ H. eauto.
  - intros (u & H). exists w, u. rewrite H. reflexivity.
Qed.

Lemma memory_keeps_settings : keeps_settings (C := MigrationEnv.collaborators).
Proof.
  constructor.
  - cbn. intros w w' r H t' Ht. injection H as <- _. exact Ht.
  - cbn. unfold getUserSettings. intros w t w' r H t' Ht. injection H as <- _. exact Ht.
  - cbn. unfold saveSettings. intros w t u w' r H t' Ht. injection H as <- _.
    apply memory_has_user_settings. apply memory_has_user_settings in Ht.
    cbn [settings find fst]. destruct (String.eqb t t'); [ cbn; eauto | exact Ht ].
  - cbn. unfold saveSettings. intros w t u w' H. injection H as <-.
    apply memory_has_user_settings. cbn [settings find fst].
    rewrite String.eqb_refl. cbn. eauto.
Qed.

Lemma migrated_tenants_are_left_alone_witness :
  exists tenants evs evs',
    trace (fst (migrate (start world0)))
    = trace (start world0) ++ GetTenants (Returned tenants) :: evs
    /\ trace (fst (migrate (start (env (fst (migrate (start world0)))))))
       = trace (start (env (fst (migrate (start world0))))) ++ evs'
    /\ forall tenant, In tenant tenants ->
         has_user_settings (env (fst (migrate (start world0)))) (tenant_id tenant)
         /\ ~ In (tenant_id tenant) (saved_for evs').
Proof.
  apply (migrated_tenants_are_left_alone memory_keeps_settings
           (start world0) (start (env (fst (migrate (start world0)))))).
  - vm_compute. reflexivity.
  - reflexivity.
Defined.

End MigrationExamples.


(* ================================================================== *)
(** * The storage of transactions: properties *)
(* ================================================================== *)

Section StorageFacts.
Import OCPIPushCdrsTask TransactionStorage.
Context {W : Type} {C : TransactionStorage.Collaborators W}.

(** ** [findAvailableID] *)

(** One round of the loop: the draw and the look-up, and the warning when the id is
    taken. *)
Lemma findAvailableID_round_run tenantID l (s : TransactionStorage.St W) :
  exists w1 id w2 r,
    getRandomIntSafe (TransactionStorage.env s) = (w1, id)
    /\ TransactionStorage.transactionStorage_getTransactions w1 tenantID [id] = (w2, r)
    /\ match r with
       | Raised e =>
           findAvailableID_round tenantID l s
           = ({| TransactionStorage.env := w2;
                 transactions := transactions s;
                 TransactionStorage.trace :=
                   TransactionStorage.trace s
                   ++ [GetRandomIntSafe id;
                       TransactionStorage.GetTransactions tenantID [id] (Raised e)] |},
              Throw e)
       | Returned answer =>
           match held answer with
           | Some t =>
               findAvailableID_round tenantID l s
               = ({| TransactionStorage.env := w2;
                     transactions := transactions s;
                     TransactionStorage.trace :=
                       TransactionStorage.trace s ++ collision tenantID (id, answer) |},
                  Ok {| existingTransaction := Some t; returned := None |})
           | None =>
               findAvailableID_round tenantID l s
               = ({| TransactionStorage.env := w2;
                     transactions := transactions s;
                     TransactionStorage.trace :=
                       TransactionStorage.trace s
                       ++ [GetRandomIntSafe id;
                           TransactionStorage.GetTransactions tenantID [id]
                             (Returned answer)] |},
                  Ok {| existingTransaction := None; returned := Some id |})
           end
       end.
Proof.
  unfold findAvailableID_round, TransactionStorage.getTransaction, bind,
    TransactionStorage.call, ret, Logging_logWarning, TransactionStorage.emit, modify.
  destruct (getRandomIntSafe (TransactionStorage.env s)) as [w1 id].
  cbn [TransactionStorage.env TransactionStorage.trace transactions].
  destruct (TransactionStorage.transactionStorage_getTransactions w1 tenantID [id])
    as [w2 r] eqn:Hget.
  exists w1, id, w2, r. split; [ reflexivity | ]. split; [ exact Hget | ].
  destruct r as [answer | e]; cbv beta iota.
  - fold (held answer). destruct (held answer) as [t | ]; cbv beta iota;
      cbn [TransactionStorage.env TransactionStorage.trace transactions];
      rewrite <- ?app_assoc; reflexivity.
  - rewrite <- ?app_assoc. reflexivity.
Qed.

Lemma collisions_no_trace_end tenantID collisions :
  Forall no_trace_end (flat_map (collision tenantID) collisions).
Proof.
  induction collisions as [| c collisions IH]; cbn; [ constructor | ].
  repeat (constructor; [ exact I | ]). exact IH.
Qed.

Lemma warnings_app a b : warnings (a ++ b) = warnings a ++ warnings b.
Proof. apply flat_map_app. Qed.

Lemma warnings_collisions tenantID collisions :
  warnings (flat_map (collision tenantID) collisions)
  = map (fun c => collision_warning tenantID (fst c)) collisions.
Proof.
  induction collisions as [| c collisions IH]; cbn; [ reflexivity | ].
  f_equal. exact IH.
Qed.

(** The loop: a run of rounds whose ids are taken, and then, when the loop ends, a
    round whose id is free. *)
Lemma findAvailableID_loop tenantID fuel l (s : TransactionStorage.St W) :
  exists collisions tail,
    TransactionStorage.trace
      (fst (do_while fuel (findAvailableID_round tenantID)
                 (fun l => match existingTransaction l with
                           | Some _ => true
                           | None => false
                           end) l s))
    = TransactionStorage.trace s ++ flat_map (collision tenantID) collisions ++ tail
    /\ Forall (fun c => held (snd c) <> None) collisions
    /\ Forall no_trace_end tail
    /\ warnings tail = []
    /\ forall l',
         snd (do_while fuel (findAvailableID_round tenantID)
                 (fun l => match existingTransaction l with
                           | Some _ => true
                           | None => false
                           end) l s) = Ok l' ->
         exists id answer,
           tail = [GetRandomIntSafe id;
                   TransactionStorage.GetTransactions tenantID [id] (Returned answer)]
           /\ held answer = None
           /\ returned l' = Some id.
Proof.
  revert l s. induction fuel as [| fuel IH]; intros l s; cbn [do_while].
  - exists [], []. cbn. rewrite app_nil_r. repeat split; try constructor.
    intros l' H. discriminate H.
  - unfold bind.
    destruct (findAvailableID_round_run tenantID l s) as (w1 & id & w2 & r & _ & _ & Hr).
    destruct r as [answer | e].
    + destruct (held answer) as [t | ] eqn:Hheld; rewrite Hr; cbn [existingTransaction].
      * match goal with
        | |- context [do_while fuel _ _ ?l1 ?s1] =>
            destruct (IH l1 s1) as (collisions & tail & T & F & N & Wn & R)
        end.
        exists ((id, answer) :: collisions), tail.
        split; [ rewrite T; cbn [TransactionStorage.trace flat_map];
                 rewrite <- !app_assoc; reflexivity | ].
        split; [ constructor; [ cbn [snd]; congruence | exact F ] | ].
        split; [ exact N | ]. split; [ exact Wn | exact R ].
      * exists [], [GetRandomIntSafe id;
                    TransactionStorage.GetTransactions tenantID [id] (Returned answer)].
        split; [ reflexivity | ]. split; [ constructor | ].
        split; [ repeat constructor | ]. split; [ reflexivity | ].
        intros l' H. unfold ret in H. cbn [snd] in H. injection H as <-.
        exists id, answer. repeat split. exact Hheld.
    + rewrite Hr.
      exists [], [GetRandomIntSafe id;
                  TransactionStorage.GetTransactions tenantID [id] (Raised e)].
      split; [ reflexivity | ]. split; [ constructor | ].
      split; [ repeat constructor | ]. split; [ reflexivity | ].
      intros l' H. discriminate H.
Qed.

(** X11. [findAvailableID] returns only an id that it has just checked to be free.
    In every run the events after the check of the tenant are rounds of a draw, a
    look-up that finds a transaction, and a warning about the id; when the function
    returns, these are followed by a last draw and a look-up that finds no
    transaction, and the result is the id of that last draw.  The function never
    returns [undefined], and never reaches the statements after its loop. *)
Theorem findAvailableID_returns_a_checked_id tenantID fuel (s : TransactionStorage.St W) :
  exists evs,
    TransactionStorage.trace (fst (findAvailableID tenantID fuel s))
    = TransactionStorage.trace s ++ evs
    /\ Forall no_trace_end evs
    /\ snd (findAvailableID tenantID fuel s) <> Ok None
    /\ forall id, snd (findAvailableID tenantID fuel s) = Ok (Some id) ->
         exists collisions answer,
           evs = TransactionStorage.TraceStart TransactionStorage.MODULE_NAME "_findAvailableID"
                 :: TransactionStorage.CheckTenant tenantID (Returned tt)
                 :: flat_map (collision tenantID) collisions
                 ++ [GetRandomIntSafe id;
                     TransactionStorage.GetTransactions tenantID [id] (Returned answer)]
           /\ held answer = None
           /\ Forall (fun c => held (snd c) <> None) collisions
           /\ warnings evs = map (fun c => collision_warning tenantID (fst c)) collisions.
Proof.
  unfold findAvailableID, bind, TransactionStorage.Logging_traceStart,
    TransactionStorage.emit, modify, TransactionStorage.call.
  cbn [TransactionStorage.env TransactionStorage.trace transactions].
  destruct (databaseUtils_checkTenant (TransactionStorage.env s) tenantID)
    as [w1 [[] | e]]; cbv beta iota.
  2: { eexists. split; [ cbn; rewrite <- app_assoc; reflexivity | ].
       split; [ repeat constructor | ]. split; [ discriminate | ].
       intros id H. discriminate H. }
  match goal with
  | |- context [do_while fuel _ _ ?l1 ?s1] =>
      destruct (findAvailableID_loop tenantID fuel l1 s1)
        as (collisions & tail & T & F & N & Wn & R);
      destruct (do_while fuel (findAvailableID_round tenantID) _ l1 s1)
        as [s2 [l2 | e | ]] eqn:Hloop
  end; cbn [fst snd] in *.
  - destruct (R l2 eq_refl) as (id & answer & -> & Hheld & Hret).
    rewrite Hret. unfold ret. cbn [fst snd].
    eexists. split; [ rewrite T; cbn [TransactionStorage.trace];
                      rewrite <- !app_assoc; reflexivity | ].
    split.
    { constructor; [ exact I | ]. constructor; [ exact I | ].
      apply Forall_app. split; [ apply collisions_no_trace_end | exact N ]. }
    split; [ discriminate | ].
    intros id' H. injection H as <-. exists collisions, answer.
    split; [ reflexivity | ]. split; [ exact Hheld | ]. split; [ exact F | ].
    cbn [app]. unfold warnings at 1. cbn [flat_map app]. fold (warnings
      (flat_map (collision tenantID) collisions
       ++ [GetRandomIntSafe id;
           TransactionStorage.GetTransactions tenantID [id] (Returned answer)])).
    rewrite warnings_app, warnings_collisions. cbn. apply app_nil_r.
  - eexists. split; [ rewrite T; cbn [TransactionStorage.trace];
                      rewrite <- !app_assoc; reflexivity | ].
    split.
    { constructor; [ exact I | ]. constructor; [ exact I | ].
      apply Forall_app. split; [ apply collisions_no_trace_end | exact N ]. }
    split; [ discriminate | ]. intros id H. discriminate H.
  - eexists. split; [ rewrite T; cbn [TransactionStorage.trace];
                      rewrite <- !app_assoc; reflexivity | ].
    split.
    { constructor; [ exact I | ]. constructor; [ exact I | ].
      apply Forall_app. split; [ apply collisions_no_trace_end | exact N ]. }
    split; [ discriminate | ]. intros id H. discriminate H.
Qed.

Lemma findAvailableID_loop_finds tenantID taken free w :
  finds tenantID w taken free ->
  forall fuel l (s : TransactionStorage.St W),
    TransactionStorage.env s = w -> List.length taken < fuel ->
    exists s',
      do_while fuel (findAvailableID_round tenantID)
               (fun l => match existingTransaction l with
                         | Some _ => true
                         | None => false
                         end) l s
      = (s', Ok {| existingTransaction := None; returned := Some free |})
      /\ warnings (TransactionStorage.trace s')
         = warnings (TransactionStorage.trace s) ++ map (collision_warning tenantID) taken.
Proof.
  induction 1 as [w w1 w2 id answer Hdraw Hget Hheld
                 | w w1 w2 id answer taken free Hdraw Hget Hheld Hrest IH];
    intros fuel l s Hs Hfuel.
  - destruct fuel as [| fuel]; [ cbn in Hfuel; lia | ]. cbn [do_while]. unfold bind.
    destruct (findAvailableID_round_run tenantID l s) as (w1' & id' & w2' & r & E1 & E2 & Hr).
    rewrite Hs, Hdraw in E1. injection E1 as <- <-.
    rewrite Hget in E2. injection E2 as <- <-.
    rewrite Hheld in Hr. rewrite Hr. cbn [existingTransaction]. unfold ret.
    eexists. split; [ reflexivity | ].
    cbn [TransactionStorage.trace map]. rewrite warnings_app. reflexivity.
  - destruct fuel as [| fuel]; [ cbn in Hfuel; lia | ]. cbn [do_while]. unfold bind.
    destruct (findAvailableID_round_run tenantID l s) as (w1' & id' & w2' & r & E1 & E2 & Hr).
    rewrite Hs, Hdraw in E1. injection E1 as <- <-.
    rewrite Hget in E2. injection E2 as <- <-.
    destruct (held answer) as [t | ] eqn:Ht; [ | congruence ].
    rewrite Hr. cbn [existingTransaction].
    match goal with
    | |- context [do_while fuel _ _ ?l1 ?s1] =>
        destruct (IH fuel l1 s1 eq_refl ltac:(cbn in Hfuel; lia)) as (s' & R & Wn)
    end.
    exists s'. split; [ exact R | ].
    rewrite Wn. cbn [TransactionStorage.trace]. rewrite warnings_app.
    cbn [map]. rewrite <- app_assoc. reflexivity.
Qed.

(** X12. [findAvailableID] ends at the first draw that is free.  When the check of
    the tenant passes and the draws that follow are ids that the storage finds, up
    to an id that it does not find, the function, given more rounds than there are
    taken ids, returns this id, having warned once about each taken id, in the order
    of the draws. *)
Theorem findAvailableID_finds_the_first_free_draw tenantID fuel
    (s : TransactionStorage.St W) w1 taken free
  (Hcheck : databaseUtils_checkTenant (TransactionStorage.env s) tenantID
            = (w1, Returned tt))
  (Hfinds : finds tenantID w1 taken free)
  (Hfuel : List.length taken < fuel) :
  snd (findAvailableID tenantID fuel s) = Ok (Some free)
  /\ warnings (TransactionStorage.trace (fst (findAvailableID tenantID fuel s)))
     = warnings (TransactionStorage.trace s) ++ map (collision_warning tenantID) taken.
Proof.
  unfold findAvailableID, bind, TransactionStorage.Logging_traceStart,
    TransactionStorage.emit, modify, TransactionStorage.call.
  cbn [TransactionStorage.env TransactionStorage.trace transactions].
  rewrite Hcheck. cbv beta iota.
  match goal with
  | |- context [do_while fuel _ _ ?l1 ?s1] =>
      destruct (findAvailableID_loop_finds tenantID taken free w1 Hfinds fuel l1 s1
                  eq_refl Hfuel) as (s' & R & Wn)
  end.
  rewrite R. cbn [returned ret fst snd]. split; [ reflexivity | ].
  rewrite Wn. cbn [TransactionStorage.trace]. rewrite !warnings_app. cbn.
  rewrite !app_nil_r. reflexivity.
Qed.

(** ** [getTransactionYears] *)

Lemma timestamp_lt_asym a b : timestamp_lt a b = true -> timestamp_lt b a = false.
Proof.
  destruct a, b; cbn; try reflexivity; try discriminate.
  intros H. apply Z.ltb_lt in H. apply Z.ltb_ge. lia.
Qed.

Lemma timestamp_lt_chain a b c :
  timestamp_lt a b = true -> timestamp_lt c b = false -> timestamp_lt c a = false.
Proof.
  destruct a, b, c; cbn; try reflexivity; try discriminate.
  intros H1 H2. apply Z.ltb_lt in H1. apply Z.ltb_ge in H2. apply Z.ltb_ge. lia.
Qed.

Lemma insert_by_timestamp_In d l x :
  In x (insert_by_timestamp d l) <-> x = d \/ In x l.
Proof.
  induction l as [| y l IH]; cbn.
  - intuition congruence.
  - destruct (timestamp_lt (doc_timestamp d) (doc_timestamp y)); cbn.
    + intuition congruence.
    + rewrite IH. intuition congruence.
Qed.

Lemma insert_by_timestamp_sorted d l :
  StronglySorted not_after l -> StronglySorted not_after (insert_by_timestamp d l).
Proof.
  induction 1 as [| y l Hs IH Hy]; cbn.
  - constructor; constructor.
  - destruct (timestamp_lt (doc_timestamp d) (doc_timestamp y)) eqn:Hlt.
    + constructor; [ constructor; assumption | ].
      constructor.
      * unfold not_after. apply timestamp_lt_asym. exact Hlt.
      * rewrite Forall_forall in *. intros z Hz. unfold not_after.
        apply (timestamp_lt_chain _ (doc_timestamp y)); [ exact Hlt | ].
        apply Hy. exact Hz.
    + constructor; [ exact IH | ].
      rewrite Forall_forall in *. intros z Hz.
      apply insert_by_timestamp_In in Hz. destruct Hz as [-> | Hz].
      * exact Hlt.
      * apply Hy. exact Hz.
Qed.

Lemma sort_by_timestamp_In l x : In x (sort_by_timestamp l) <-> In x l.
Proof.
  unfold sort_by_timestamp. induction l as [| y l IH]; cbn; [ tauto | ].
  rewrite insert_by_timestamp_In, IH. intuition congruence.
Qed.

Lemma sort_by_timestamp_sorted l : StronglySorted not_after (sort_by_timestamp l).
Proof.
  unfold sort_by_timestamp. induction l as [| y l IH]; cbn; [ constructor | ].
  apply insert_by_timestamp_sorted. exact IH.
Qed.

Lemma timestamp_lt_irrefl a : timestamp_lt a a = false.
Proof. destruct a; cbn; try reflexivity. apply Z.ltb_irrefl. Qed.

(** The first document of the sort is a document of the collection, and none is
    before it. *)
Lemma sort_by_timestamp_first l first rest :
  sort_by_timestamp l = first :: rest ->
  In first l /\ forall d, In d l -> not_after first d.
Proof.
  intros E. pose proof (sort_by_timestamp_sorted l) as Hs. rewrite E in Hs.
  inversion Hs as [| ? ? _ Hall]; subst.
  split.
  - apply sort_by_timestamp_In. rewrite E. left. reflexivity.
  - intros d Hd. apply sort_by_timestamp_In in Hd. rewrite E in Hd.
    destruct Hd as [<- | Hd].
    + apply timestamp_lt_irrefl.
    + rewrite Forall_forall in Hall. apply Hall. exact Hd.
Qed.

Lemma push_years_run last rounds :
  forall i acc,
    rounds = Z.to_nat (last - i + 1) ->
    push_years rounds i last acc
    = acc ++ map (fun k => (i + Z.of_nat k)%Z) (seq 0 rounds).
Proof.
  induction rounds as [| rounds IH]; intros i acc Hn; cbn [push_years].
  - cbn. symmetry. apply app_nil_r.
  - assert (Hi : (i <= last)%Z) by lia.
    apply Z.leb_le in Hi. rewrite Hi.
    rewrite IH by lia. rewrite <- app_assoc. f_equal.
    cbn [seq map app]. rewrite Z.add_0_r. f_equal.
    rewrite <- seq_shift, map_map. apply map_ext. intros k. lia.
Qed.

Lemma years_spec i last :
  let years := map (fun k => (i + Z.of_nat k)%Z) (seq 0 (Z.to_nat (last - i + 1))) in
  (forall y, In y years <-> (i <= y <= last)%Z)
  /\ StronglySorted Z.lt years.
Proof.
  cbv zeta. split.
  - intros y. rewrite in_map_iff. split.
    + intros (k & <- & Hk). apply in_seq in Hk. lia.
    + intros Hy. exists (Z.to_nat (y - i)). split; [ lia | ]. apply in_seq. lia.
  - generalize (Z.to_nat (last - i + 1)) as n. intros n.
    generalize 0 as start. induction n as [| n IH]; intros start; cbn; constructor.
    + apply IH.
    + rewrite Forall_forall. intros y Hy. apply in_map_iff in Hy.
      destruct Hy as (k & <- & Hk). apply in_seq in Hk. lia.
Qed.

(** X13. [getTransactionYears] lists the years from the first transaction to now.
    The collection is left as it is.  When the function returns [null] there is no
    transaction, and the performance trace that was opened is not closed.
    Otherwise the list is taken from a transaction that none precedes in the order
    of timestamps: with [y] the year of its timestamp, the list holds exactly the
    years from [y] to the current year, in ascending order, so it is empty when [y]
    is in the future; it is empty as well when the timestamp gives no year. *)
Theorem getTransactionYears_lists_the_years tenantID (s : TransactionStorage.St W) :
  transactions (fst (getTransactionYears tenantID s)) = transactions s
  /\ exists evs,
       TransactionStorage.trace (fst (getTransactionYears tenantID s))
       = TransactionStorage.trace s ++ evs
       /\ forall r, snd (getTransactionYears tenantID s) = Ok r ->
            match r with
            | None => transactions s = [] /\ Forall no_trace_end evs
            | Some years =>
                exists first,
                  In first (transactions s)
                  /\ (forall d, In d (transactions s) -> not_after first d)
                  /\ StronglySorted Z.lt years
                  /\ match getFullYear (doc_timestamp first) with
                     | Some y =>
                         forall i,
                           In i years
                           <-> (y <= i
                                <= currentYear
                                     (TransactionStorage.env
                                        (fst (getTransactionYears tenantID s))))%Z
                     | None => years = []
                     end
            end.
Proof.
  unfold getTransactionYears, bind, TransactionStorage.Logging_traceStart,
    TransactionStorage.Logging_traceEnd, TransactionStorage.emit, modify,
    TransactionStorage.call, TransactionStorage.gets, ret.
  cbn [TransactionStorage.env TransactionStorage.trace transactions].
  destruct (databaseUtils_checkTenant (TransactionStorage.env s) tenantID)
    as [w1 [[] | e]]; cbv beta iota;
    cbn [TransactionStorage.env TransactionStorage.trace transactions fst snd].
  2: { split; [ reflexivity | ]. eexists. split; [ rewrite <- app_assoc; reflexivity | ].
       intros r H. discriminate H. }
  destruct (getCollection w1 tenantID "transactions") as [w2 [[] | e]]; cbv beta iota;
    cbn [TransactionStorage.env TransactionStorage.trace transactions fst snd].
  2: { split; [ reflexivity | ]. eexists. split; [ rewrite <- !app_assoc; reflexivity | ].
       intros r H. discriminate H. }
  destruct (TransactionStorage.database w2 tenantID "transactions" "find")
    as [w3 [[] | e]]; cbv beta iota;
    cbn [TransactionStorage.env TransactionStorage.trace transactions fst snd].
  2: { split; [ reflexivity | ]. eexists. split; [ rewrite <- !app_assoc; reflexivity | ].
       intros r H. discriminate H. }
  destruct (sort_by_timestamp (transactions s)) as [| first rest] eqn:Hsort;
    cbn [firstn]; cbv beta iota;
    cbn [TransactionStorage.env TransactionStorage.trace transactions fst snd].
  - split; [ reflexivity | ]. eexists. split; [ rewrite <- !app_assoc; reflexivity | ].
    intros r H. injection H as <-. split; [ | repeat constructor ].
    destruct (transactions s) as [| d l]; [ reflexivity | ].
    assert (Hin : In d (sort_by_timestamp (d :: l)))
      by (apply sort_by_timestamp_In; left; reflexivity).
    rewrite Hsort in Hin. destruct Hin.
  - split; [ reflexivity | ]. eexists. split; [ rewrite <- !app_assoc; reflexivity | ].
    intros r H. injection H as <-.
    destruct (sort_by_timestamp_first _ _ _ Hsort) as (Hin & Hfirst).
    exists first. split; [ exact Hin | ]. split; [ exact Hfirst | ].
    destruct (getFullYear (doc_timestamp first)) as [y | ].
    + rewrite push_years_run by reflexivity. cbn [app].
      destruct (years_spec y (currentYear w3)) as (Hy & Hs).
      split; [ exact Hs | exact Hy ].
    + split; [ constructor | reflexivity ].
Qed.

(** ** [assignTransactionsToUser] and [getUnassignedTransactionsCount] *)





End StorageFacts.


(** ** The storage of transactions in memory *)

Section StorageExamples.
Import OCPIPushCdrsTask TransactionStorage StorageEnv.

(** The draws 2 and 4 are ids of stored transactions, the draw 7 is not: the id
    found is 7, after two warnings. *)
Lemma findAvailableID_finds_the_first_free_draw_witness :
  snd (findAvailableID "t1" 3 (start world0)) = Ok (Some 7%Z)
  /\ warnings (TransactionStorage.trace (fst (findAvailableID "t1" 3 (start world0))))
     = warnings (TransactionStorage.trace (start world0))
       ++ map (collision_warning "t1") [2%Z; 4%Z].
Proof.
  apply (findAvailableID_finds_the_first_free_draw (C := collaborators) "t1" 3
           (start world0) world0 [2%Z; 4%Z] 7%Z).
  - reflexivity.
  - eapply finds_taken; [ reflexivity | reflexivity | discriminate | ].
    eapply finds_taken; [ reflexivity | reflexivity | discriminate | ].
    eapply finds_free; [ reflexivity | reflexivity | reflexivity ].
  - cbn. lia.
Defined.

(** Two transactions of the tag "TAG1" have no user.  Once they are assigned to the
    user "U1", none has; the transaction of "TAG2" without user is still counted. *)
Example assign_then_count :
  snd (getUnassignedTransactionsCount "t1" "TAG1" (start world0)) = Ok 2%Z
  /\ snd (getUnassignedTransactionsCount "t1" "TAG1"
            (fst (assignTransactionsToUser "t1" "U1" "TAG1" (start world0)))) = Ok 0%Z
  /\ snd (getUnassignedTransactionsCount "t1" "TAG2"
            (fst (assignTransactionsToUser "t1" "U1" "TAG1" (start world0)))) = Ok 1%Z
  /\ map doc_userID
         (transactions (fst (assignTransactionsToUser "t1" "U1" "TAG1" (start world0))))
     = [Val "U1"; Val "U9"; Missing; Val "U1"]%string.
Proof. vm_compute. repeat split; reflexivity. Qed.

(** The first transaction is of 2019 and the current year is 2021. *)
Example years_of_the_documents :
  snd (getTransactionYears "t1" (start world0)) = Ok (Some [2019; 2020; 2021]%Z).
Proof. vm_compute. reflexivity. Qed.

End StorageExamples.
